(** * CustomFeatureSettings: per-feature G-code rewriting

    A shallow embedding of [CustomFeatureSettings.py] and the properties of
    its single pass over a G-code document.

    Conventions of the embedding.
    - Text is a list of characters ([str]); a character is a code point
      below 256, the replacement character U+FFFD, which decoding puts in
      the place of bytes that are not UTF-8, or a lone surrogate, which
      strict encoding refuses.  Character classes ([\s], [\w], [\d],
      [str.lower]) follow Python's tables on these characters.  A file that
      holds any other character is outside the embedding: decoding it gives
      no text.
    - Files hold bytes; they are read as UTF-8 with [errors="replace"] and
      universal newlines, and written as strict UTF-8 with the line ends
      of POSIX.
    - Python floats are IEEE 754 binary64 numbers, taken from the Standard
      Library's [SpecFloat] with [prec = 53] and [emax = 1024]; [float()],
      [round()], [repr()] and the [.Nf] format are computed exactly from the
      mantissa and the exponent.  Every float that is read or computed is
      in canonical form.
    - Regular expressions are values of an inductive type [regex], run by a
      backtracking matcher that tries alternatives in Python's order.
    - The closures of [process_gcode] share one record of mutable
      variables, [state], threaded through every call. *)

From Stdlib Require Import ZArith List Ascii String Bool Lia SpecFloat DecimalString.
From Stdlib Require Strings.Byte.
From stdpp Require Import base option list gmap strings.

Local Open Scope Z_scope.
Local Open Scope list_scope.

(** ** Text *)

(** A character of the embedding. *)
Inductive char :=
| Latin (a : ascii)                       (** the code point of [a], below 256 *)
| Replacement                             (** U+FFFD *)
| Surrogate (h2 h1 h0 : bool) (lo : ascii).
    (** the lone surrogate U+D800 + 256 * [h2 h1 h0] + [lo] *)

Coercion Latin : ascii >-> char.
Bind Scope char_scope with char.

#[global] Instance char_eq_dec : EqDecision char.
Proof. solve_decision. Defined.

#[global] Instance char_countable : Countable char.
Proof.
  refine (inj_countable'
    (fun c => match c with
              | Latin a => inl a
              | Replacement => inr (inl ())
              | Surrogate h2 h1 h0 lo => inr (inr (h2, h1, h0, lo))
              end)
    (fun x => match x with
              | inl a => Latin a
              | inr (inl _) => Replacement
              | inr (inr (h2, h1, h0, lo)) => Surrogate h2 h1 h0 lo
              end) _).
  by intros [a| |h2 h1 h0 lo].
Defined.

Abbreviation str := (list char).

Definition chars (s : string) : str := map Latin (list_ascii_of_string s).

Definition nl : char := Latin (ascii_of_nat 10).

Definition bit (b : bool) : N := if b then 1%N else 0%N.

(** The code point. *)
Definition code (c : char) : N :=
  match c with
  | Latin a => N_of_ascii a
  | Replacement => 65533%N
  | Surrogate h2 h1 h0 lo =>
      (55296 + 256 * (4 * bit h2 + 2 * bit h1 + bit h0) + N_of_ascii lo)%N
  end.

Definition char_eqb (a b : char) : bool :=
  match a, b with
  | Latin x, Latin y => Ascii.eqb x y
  | Replacement, Replacement => true
  | Surrogate a2 a1 a0 x, Surrogate b2 b1 b0 y =>
      Bool.eqb a2 b2 && Bool.eqb a1 b1 && Bool.eqb a0 b0 && Ascii.eqb x y
  | _, _ => false
  end.

Definition str_eqb (a b : str) : bool := bool_decide (a = b).

(** A class of code points below 256; U+FFFD and the surrogates are in none
    of Python's classes used here. *)
Definition latin_class (p : N -> bool) (c : char) : bool :=
  match c with
  | Latin a => p (N_of_ascii a)
  | _ => false
  end.

(** Python's [str.isspace] and the class [\s]. *)
Definition is_space : char -> bool :=
  latin_class (fun n =>
    ((9 <=? n) && (n <=? 13) || (28 <=? n) && (n <=? 32)
     || (n =? 133) || (n =? 160))%N).

Definition is_digit : char -> bool :=
  latin_class (fun n => ((48 <=? n) && (n <=? 57))%N).

Definition is_upper : char -> bool :=
  latin_class (fun n =>
    ((65 <=? n) && (n <=? 90)
     || (192 <=? n) && (n <=? 222) && negb (n =? 215))%N).

(** The class [\w]: alphanumeric code points and the underscore. *)
Definition is_word : char -> bool :=
  latin_class (fun n =>
    ((48 <=? n) && (n <=? 57) || (65 <=? n) && (n <=? 90)
     || (97 <=? n) && (n <=? 122) || (n =? 95)
     || (n =? 170) || (n =? 178) || (n =? 179) || (n =? 181)
     || (n =? 185) || (n =? 186) || (188 <=? n) && (n <=? 190)
     || (192 <=? n) && (n <=? 214) || (216 <=? n) && (n <=? 246)
     || (248 <=? n))%N).

(** [str.lower] on one character. *)
Definition lower_char (c : char) : char :=
  match c with
  | Latin a => if is_upper c then Latin (ascii_of_N (N_of_ascii a + 32)) else c
  | _ => c
  end.

Definition lower (s : str) : str := map lower_char s.

Fixpoint drop_while (p : char -> bool) (s : str) : str :=
  match s with
  | c :: s' => if p c then drop_while p s' else s
  | [] => []
  end.

Fixpoint take_while (p : char -> bool) (s : str) : str :=
  match s with
  | c :: s' => if p c then c :: take_while p s' else []
  | [] => []
  end.

(** [s.rstrip(...)] for a set of characters given as a predicate. *)
Definition rstrip_by (p : char -> bool) (s : str) : str :=
  rev (drop_while p (rev s)).

(** [s.strip()] *)
Definition strip (s : str) : str := rstrip_by is_space (drop_while is_space s).

(** [s.rstrip("\n")] *)
Definition rstrip_nl (s : str) : str := rstrip_by (char_eqb nl) s.

(** [s.endswith("\n")] *)
Definition ends_with_nl (s : str) : bool :=
  match rev s with
  | c :: _ => char_eqb c nl
  | [] => false
  end.

(** [s.partition(sep)] for a one-character separator: the text before the
    first separator, the separator if there is one, the text after it. *)
Fixpoint py_partition (sep : char) (s : str) : str * str * str :=
  match s with
  | [] => ([], [], [])
  | c :: s' =>
      if char_eqb c sep then ([], [c], s')
      else let '(a, b, r) := py_partition sep s' in (c :: a, b, r)
  end.

(** [s.replace(a, b)] for single characters. *)
Definition replace_char (a b : char) (s : str) : str :=
  map (fun c => if char_eqb c a then b else c) s.

(** [s[i:j]] for [0 <= i], [0 <= j]. *)
Definition slice (i j : nat) (s : str) : str := firstn (j - i) (skipn i s).

(** [str(n)] for an integer. *)
Definition str_of_Z (n : Z) : str :=
  chars (NilZero.string_of_int (Z.to_int n)).

Definition digit_val (c : char) : Z :=
  match c with
  | Latin a => Z.of_N (N_of_ascii a) - 48
  | _ => 0
  end.

(** The value of a run of decimal digits. *)
Definition digits_val (ds : str) : Z :=
  fold_left (fun acc c => 10 * acc + digit_val c) ds 0.

(** ** Python numbers *)

Inductive py_exn := ValueError | OverflowError | UnicodeEncodeError.

Module Float.

Definition prec : Z := 53.
Definition emax : Z := 1024.

Abbreviation float := spec_float.

#[global] Instance float_eq_dec : EqDecision float.
Proof. solve_decision. Defined.

Definition add : float -> float -> float := SFadd prec emax.
Definition sub : float -> float -> float := SFsub prec emax.
Definition mul : float -> float -> float := SFmul prec emax.
Definition div : float -> float -> float := SFdiv prec emax.
Definition abs : float -> float := SFabs.
Definition ltb : float -> float -> bool := SFltb.
Definition leb : float -> float -> bool := SFleb.

(** The float nearest to [m * 10^e] (ties to even), as [float()] reads a
    decimal literal. *)
Definition of_decimal (neg : bool) (m : Z) (e : Z) : float :=
  match m with
  | Zpos p =>
      if 0 <=? e then binary_normalize prec emax ((if neg then - m else m) * 10 ^ e) 0 false
      else SFdiv prec emax (S754_finite neg p 0)
                           (S754_finite false (Z.to_pos (10 ^ (- e))) 0)
  | _ => S754_zero neg
  end.

Definition of_Z (n : Z) : float := binary_normalize prec emax n 0 false.

(** [x.is_integer()] *)
Definition is_integer (x : float) : bool :=
  match x with
  | S754_zero _ => true
  | S754_finite _ m e => (0 <=? e) || (Zpos m mod 2 ^ (- e) =? 0)
  | _ => false
  end.

(** [int(x)]: truncation towards zero; [None] for infinities and NaN. *)
Definition to_Z (x : float) : option Z :=
  match x with
  | S754_zero _ => Some 0
  | S754_finite s m e =>
      let a := if 0 <=? e then Zpos m * 2 ^ e else Zpos m / 2 ^ (- e) in
      Some (if s then - a else a)
  | _ => None
  end.

(** The integer nearest to [n / d], ties to even, for [0 <= n], [0 < d]. *)
Definition div_half_even (n d : Z) : Z :=
  let q := n / d in
  let r := n mod d in
  match 2 * r ?= d with
  | Lt => q
  | Gt => q + 1
  | Eq => if Z.even q then q else q + 1
  end.

(** The magnitude of [x * 10^k] rounded to an integer, ties to even. *)
Definition scaled_magnitude (m : positive) (e : Z) (k : Z) : Z :=
  let num := Zpos m * (if 0 <=? e then 2 ^ e else 1) * (if 0 <=? k then 10 ^ k else 1) in
  let den := (if 0 <=? e then 1 else 2 ^ (- e)) * (if 0 <=? k then 1 else 10 ^ (- k)) in
  div_half_even num den.

(** [round(x)] with one argument. *)
Definition round (x : float) : py_exn + Z :=
  match x with
  | S754_zero _ => inr 0
  | S754_finite s m e =>
      let a := scaled_magnitude m e 0 in inr (if s then - a else a)
  | S754_infinity _ => inl OverflowError
  | S754_nan => inl ValueError
  end.

(** *** Reading numbers: [float(s)] and [int(s)] *)

Definition all_digits (s : str) : bool := forallb is_digit s.

Definition split_sign (s : str) : bool * str :=
  match s with
  | c :: s' =>
      if char_eqb c "-" then (true, s')
      else if char_eqb c "+" then (false, s') else (false, s)
  | [] => (false, [])
  end.

(** The exponent part of a literal: empty, or [e], a sign and digits. *)
Definition parse_exponent (s : str) : option Z :=
  match s with
  | [] => Some 0
  | c :: s' =>
      if char_eqb (lower_char c) "e" then
        let '(neg, ds) := split_sign s' in
        match ds with
        | [] => None
        | _ => if all_digits ds
               then Some (if neg then - digits_val ds else digits_val ds)
               else None
        end
      else None
  end.

(** [float(s)] on decimal literals, [inf] and [nan] (digit grouping with
    underscores is not read); [None] stands for [ValueError]. *)
Definition of_str (s : str) : option float :=
  let '(neg, body) := split_sign (strip s) in
  let lw := lower body in
  if str_eqb lw (chars "inf") || str_eqb lw (chars "infinity")
  then Some (S754_infinity neg)
  else if str_eqb lw (chars "nan") then Some S754_nan
  else
    let ip := take_while is_digit body in
    let r1 := drop_while is_digit body in
    let '(fp, r2) :=
      match r1 with
      | c :: r =>
          if char_eqb c "." then (take_while is_digit r, drop_while is_digit r)
          else ([], r1)
      | [] => ([], [])
      end in
    match ip ++ fp with
    | [] => None
    | ds =>
        match parse_exponent r2 with
        | Some ex => Some (of_decimal neg (digits_val ds) (ex - Z.of_nat (length fp)))
        | None => None
        end
    end.

(** [sys.get_int_max_str_digits()], CPython's default. *)
Definition int_max_str_digits : nat := 4300.

(** [int(s)] in base 10 (no digit grouping); [None] stands for
    [ValueError], raised also for more than [int_max_str_digits] digits. *)
Definition int_of_str (s : str) : option Z :=
  let '(neg, ds) := split_sign (strip s) in
  match ds with
  | [] => None
  | _ =>
      if all_digits ds && (length ds <=? int_max_str_digits)%nat
      then Some (if neg then - digits_val ds else digits_val ds)
      else None
  end.

(** *** Writing numbers: the [.Nf] format and [repr] *)

Definition zeros (n : nat) : str := repeat (Latin "0") n.

(** The digits of [n / 10^d] with exactly [d] digits after the point. *)
Definition fixed_digits (n : Z) (d : nat) : str :=
  let ds := str_of_Z n in
  let padded := zeros (S d - length ds) ++ ds in
  let k := (length padded - d)%nat in
  match d with
  | O => padded
  | _ => firstn k padded ++ Latin "." :: skipn k padded
  end.

Definition sign_str (s : bool) : str := if s then chars "-" else [].

(** [f"{x:.{d}f}"] *)
Definition format_f (x : float) (d : nat) : str :=
  match x with
  | S754_nan => chars "nan"
  | S754_infinity s => sign_str s ++ chars "inf"
  | S754_zero s => sign_str s ++ fixed_digits 0 d
  | S754_finite s m e =>
      sign_str s ++ fixed_digits (scaled_magnitude m e (Z.of_nat d)) d
  end.

(** [floor(m * 2^e * 10^k)] *)
Definition scaled_floor (m : positive) (e : Z) (k : Z) : Z :=
  let num := Zpos m * (if 0 <=? e then 2 ^ e else 1) * (if 0 <=? k then 10 ^ k else 1) in
  let den := (if 0 <=? e then 1 else 2 ^ (- e)) * (if 0 <=? k then 1 else 10 ^ (- k)) in
  num / den.

(** The decimal exponent [k] of [m * 2^e]: [10^(k-1) <= m * 2^e < 10^k]. *)
Fixpoint small_exponent (fuel : nat) (m : positive) (e : Z) (j : Z) : Z :=
  match fuel with
  | O => 1 - j
  | S fuel' =>
      if 1 <=? scaled_floor m e j then 1 - j
      else small_exponent fuel' m e (j + 1)
  end.

Definition decimal_exponent (m : positive) (e : Z) : Z :=
  let ip := scaled_floor m e 0 in
  if 1 <=? ip then Z.of_nat (length (str_of_Z ip))
  else small_exponent 400 m e 1.

(** The shortest decimal [c * 10^q] that [float()] reads back as
    [m * 2^e], the nearest one if two are as short: tried with
    [n], [n+1], ... significant digits. *)
Fixpoint shortest_from (fuel : nat) (m : positive) (e : Z) (k : Z) (n : Z)
  : Z * Z :=
  let q := k - n in
  let lo := scaled_floor m e (- q) in
  let hi := lo + 1 in
  let ok c := bool_decide (of_decimal false c q = S754_finite false m e) in
  let nearer_lo :=
    (* [m * 2^e * 10^(-q) - lo <= 1/2] *)
    scaled_floor m e (1 - q) - 10 * lo <? 5 in
  match fuel with
  | O => (lo, q)
  | S fuel' =>
      if ok lo && ok hi then (if nearer_lo then (lo, q) else (hi, q))
      else if ok lo then (lo, q)
      else if ok hi then (hi, q)
      else shortest_from fuel' m e k (n + 1)
  end.

Definition strip_zeros (ds : str) : str := rstrip_by (char_eqb "0") ds.

(** [repr(x)], which is also [str(x)]. *)
Definition repr (x : float) : str :=
  match x with
  | S754_nan => chars "nan"
  | S754_infinity s => sign_str s ++ chars "inf"
  | S754_zero s => sign_str s ++ chars "0.0"
  | S754_finite s m e =>
      let '(c, q) := shortest_from 17 m e (decimal_exponent m e) 1 in
      let all := str_of_Z c in
      let decpt := Z.of_nat (length all) + q in
      let ds := strip_zeros all in
      let n := Z.of_nat (length ds) in
      sign_str s ++
      (if (-4 <? decpt) && (decpt <=? 16) then
         if decpt <=? 0 then chars "0." ++ zeros (Z.to_nat (- decpt)) ++ ds
         else if n <=? decpt then ds ++ zeros (Z.to_nat (decpt - n)) ++ chars ".0"
         else firstn (Z.to_nat decpt) ds ++ Latin "." :: skipn (Z.to_nat decpt) ds
       else
         let ex := decpt - 1 in
         let exs := str_of_Z (Z.abs ex) in
         firstn 1 ds
         ++ (match skipn 1 ds with [] => [] | r => Latin "." :: r end)
         ++ chars "e" ++ (if ex <? 0 then chars "-" else chars "+")
         ++ zeros (2 - length exs) ++ exs)
  end.

End Float.

Import Float.

(** ** Regular expressions

    The fragment of Python's [re] syntax the program uses.  Repetition is
    only ever applied to a character class, so [Star] takes a class. *)

Inductive regex :=
| Eps
| Chr (p : char -> bool)      (** one character of a class *)
| Star (p : char -> bool)     (** [p*], greedy *)
| Cat (r1 r2 : regex)
| Alt (r1 r2 : regex)          (** [r1|r2], [r1] tried first *)
| Group (r : regex)            (** the capture group, [(r)] *)
| WordB                        (** [\b] *)
| Bol                          (** [^] *)
| Eol.                         (** [$] *)

(** A match: where it ends and the span of group 1. *)
Record match_obj := { m_end : nat; m_span : option (nat * nat) }.

(** [m.group(1)] of a match on [s]. *)
Definition group1 (m : match_obj) (s : str) : str :=
  match m_span m with
  | Some (i, j) => slice i j s
  | None => []
  end.

Section Matcher.

(** What remains to be matched: called with the previous character, the
    position, the rest of the text and the span of group 1. *)
Definition cont : Type :=
  option char -> nat -> str -> option (nat * nat) -> option match_obj.

Definition word_before (prev : option char) : bool :=
  match prev with Some c => is_word c | None => false end.

Definition word_after (s : str) : bool :=
  match s with c :: _ => is_word c | [] => false end.

Definition at_boundary (prev : option char) (s : str) : bool :=
  xorb (word_before prev) (word_after s).

(** [$] holds at the end and before a final newline. *)
Definition at_eol (s : str) : bool :=
  match s with
  | [] => true
  | [c] => char_eqb c nl
  | _ => false
  end.

(** Greedy [p*]: the longest run first, then shorter ones. *)
Fixpoint star (p : char -> bool)
    (k : option char -> nat -> str -> option match_obj)
    (prev : option char) (pos : nat) (s : str) : option match_obj :=
  match s with
  | c :: s' =>
      if p c then
        match star p k (Some c) (S pos) s' with
        | Some m => Some m
        | None => k prev pos s
        end
      else k prev pos s
  | [] => k prev pos s
  end.

Fixpoint run (r : regex) (k : cont) {struct r} : cont :=
  fun prev pos s g =>
  match r with
  | Eps => k prev pos s g
  | Chr p =>
      match s with
      | c :: s' => if p c then k (Some c) (S pos) s' g else None
      | [] => None
      end
  | Star p => star p (fun prev' pos' s' => k prev' pos' s' g) prev pos s
  | Cat r1 r2 => run r1 (run r2 k) prev pos s g
  | Alt r1 r2 =>
      match run r1 k prev pos s g with
      | Some m => Some m
      | None => run r2 k prev pos s g
      end
  | Group r' =>
      run r' (fun prev' pos' s' _ => k prev' pos' s' (Some (pos, pos')))
          prev pos s g
  | WordB => if at_boundary prev s then k prev pos s g else None
  | Bol => match pos with O => k prev pos s g | S _ => None end
  | Eol => if at_eol s then k prev pos s g else None
  end.

Definition accept : cont :=
  fun _ pos _ g => Some {| m_end := pos; m_span := g |}.

(** [r.match(s)] *)
Definition re_match (r : regex) (s : str) : option match_obj :=
  run r accept None 0%nat s None.

Fixpoint search_from (r : regex) (prev : option char) (pos : nat) (s : str)
  : option match_obj :=
  match run r accept prev pos s None with
  | Some m => Some m
  | None =>
      match s with
      | c :: s' => search_from r (Some c) (S pos) s'
      | [] => None
      end
  end.

(** [r.search(s)] *)
Definition re_search (r : regex) (s : str) : option match_obj :=
  search_from r None 0%nat s.

End Matcher.

(** Building blocks. *)
Definition only (a : char) : char -> bool := char_eqb a.
(** A letter under [re.IGNORECASE]. *)
Definition ci (a : char) : char -> bool :=
  fun c => char_eqb (lower_char c) (lower_char a).
Definition any_of (s : string) : char -> bool :=
  fun c => existsb (char_eqb c) (chars s).
Definition none_of (s : string) : char -> bool :=
  fun c => negb (any_of s c).
(** [.] without [re.DOTALL] *)
Definition dot : char -> bool := none_of (String (ascii_of_nat 10) EmptyString).

Definition Seq (rs : list regex) : regex := fold_right Cat Eps rs.
Definition Plus (p : char -> bool) : regex := Cat (Chr p) (Star p).
Definition Opt (r : regex) : regex := Alt r Eps.
Definition Lit (s : string) : regex := Seq (map (fun a => Chr (only a)) (chars s)).
Definition LitI (s : string) : regex := Seq (map (fun a => Chr (ci a)) (chars s)).

(** *** The patterns of the program *)

(** [^\s*;\s*TYPE\s*:\s*(.+)$], IGNORECASE *)
Definition TYPE_PREFIX_RE : regex :=
  Seq [Bol; Star is_space; Chr (only ";"); Star is_space; LitI "TYPE";
       Star is_space; Chr (only ":"); Star is_space; Group (Plus dot); Eol].

(** [-?\d+(?:\.\d+)?] *)
Definition temp_number : regex :=
  Seq [Opt (Chr (only "-")); Plus is_digit; Opt (Seq [Chr (only "."); Plus is_digit])].

(** [^\s*M10(?:4|9)\b[^;]*\bS(-?\d+(?:\.\d+)?)], IGNORECASE *)
Definition TEMP_CMD_RE : regex :=
  Seq [Bol; Star is_space; LitI "M10"; Alt (Chr (only "4")) (Chr (only "9")); WordB;
       Star (none_of ";"); WordB; Chr (ci "S"); Group temp_number].

(** [^\s*M106\b[^;]*\bS(\d+)], IGNORECASE *)
Definition FAN_ON_RE : regex :=
  Seq [Bol; Star is_space; LitI "M106"; WordB; Star (none_of ";"); WordB;
       Chr (ci "S"); Group (Plus is_digit)].

(** [^\s*M107\b], IGNORECASE *)
Definition FAN_OFF_RE : regex := Seq [Bol; Star is_space; LitI "M107"; WordB].

(** [^\s*G0?1\b], IGNORECASE *)
Definition MOVE_RE : regex :=
  Seq [Bol; Star is_space; Chr (ci "G"); Opt (Chr (only "0")); Chr (only "1"); WordB].

(** [[-+]?\d*\.?\d+] *)
Definition decimal_number : regex :=
  Seq [Opt (Chr (any_of "-+")); Star is_digit; Opt (Chr (only ".")); Plus is_digit].

(** [(?i)\bE([-+]?\d*\.?\d+(?:[eE][-+]?\d+)?)] *)
Definition E_WORD_RE : regex :=
  Seq [WordB; Chr (ci "E");
       Group (Seq [decimal_number;
                   Opt (Seq [Chr (ci "e"); Opt (Chr (any_of "-+")); Plus is_digit])])].

(** [\bZ([-+]?\d*\.?\d+)], case-sensitive *)
Definition Z_WORD_RE : regex := Seq [WordB; Chr (only "Z"); Group decimal_number].

(** [-?\d+] *)
Definition int_number : regex := Seq [Opt (Chr (only "-")); Plus is_digit].

(** [^\s*;LAYER:\s*(-?\d+)], IGNORECASE *)
Definition LAYER_NUM_RE : regex :=
  Seq [Bol; Star is_space; Chr (only ";"); LitI "LAYER"; Chr (only ":");
       Star is_space; Group int_number].

(** [^\s*;\s*layer\s+(-?\d+)\b], IGNORECASE *)
Definition LAYER_WORD_RE : regex :=
  Seq [Bol; Star is_space; Chr (only ";"); Star is_space; LitI "layer";
       Plus is_space; Group int_number; WordB].

(** [^\s*;(?:BEFORE_)?LAYER_CHANGE\b], IGNORECASE *)
Definition LAYER_CHANGE_RE : regex :=
  Seq [Bol; Star is_space; Chr (only ";"); Opt (LitI "BEFORE_");
       LitI "LAYER_CHANGE"; WordB].

(** [^\s*M82\b], [^\s*M83\b] and [^\s*G92\b], IGNORECASE *)
Definition M82_RE : regex := Seq [Bol; Star is_space; LitI "M82"; WordB].
Definition M83_RE : regex := Seq [Bol; Star is_space; LitI "M83"; WordB].
Definition G92_RE : regex := Seq [Bol; Star is_space; LitI "G92"; WordB].

(** ** Feature names *)

(** Python's truth value of a string and of an optional string. *)
Definition truthy (s : str) : bool :=
  match s with [] => false | _ => true end.

Definition truthy_opt (o : option str) : bool :=
  match o with Some s => truthy s | None => false end.

Definition FEATURE_SYNONYMS : list (string * list string) :=
  [ ("external_perimeter",
      ["external perimeter"; "external perimeters"; "external wall";
       "outer wall"; "wall-outer"; "wall outer"]);
    ("internal_perimeter",
      ["perimeter"; "perimeters"; "inner wall"; "wall-inner"; "wall inner"]);
    ("overhang_perimeter",
      ["overhang perimeter"; "overhang wall"; "wall-overhang"; "overhang-wall"]);
    ("infill", ["infill"; "internal infill"]);
    ("solid_infill", ["solid infill"; "solid-infill"]);
    ("top_surface",
      ["top solid infill"; "skin top"; "top surface"; "top surfaces"; "topskin"]);
    ("bottom_surface",
      ["bottom solid infill"; "skin bottom"; "bottom surface";
       "bottom surfaces"; "bottomskin"]);
    ("bridge", ["bridge"; "bridges"; "bridge infill"; "bridge-infill"]);
    ("support_interface", ["support material interface"; "support interface"]);
    ("support", ["support material"; "support"; "supports"]) ]%string.

(** [re.sub(r"\s+", " ", s)]; [in_run] tells that the previous character
    was white space. *)
Fixpoint collapse_spaces (in_run : bool) (s : str) : str :=
  match s with
  | [] => []
  | c :: s' =>
      if is_space c then
        if in_run then collapse_spaces true s'
        else Latin " " :: collapse_spaces true s'
      else c :: collapse_spaces false s'
  end.

Definition norm_key (s : str) : str :=
  let s := replace_char "-" " " (replace_char "_" " " (lower (strip s))) in
  collapse_spaces false s.

(** The two module-level dictionaries, filled by the loop over
    [FEATURE_SYNONYMS]; a later entry replaces an earlier one. *)
Definition fill_tables (key : str -> str) : gmap str str :=
  fold_left
    (fun d '(canon, syns) =>
       fold_left (fun d s => <[ key (chars s) := chars canon ]> d) syns d)
    FEATURE_SYNONYMS ∅.

Definition SYNONYM_TO_CANONICAL : gmap str str :=
  fill_tables (fun s => lower (strip s)).

Definition NORM_TO_CANONICAL : gmap str str := fill_tables norm_key.

(** [re.split(r"[;|,]", s, maxsplit=1)[0]] *)
Definition first_segment (s : str) : str := take_while (none_of ";|,") s.

Definition match_canonical (type_value : str) : option str :=
  if negb (truthy type_value) then None
  else
    let primary := strip (first_segment type_value) in
    let key_exact := lower primary in
    let canon := SYNONYM_TO_CANONICAL !! key_exact in
    if truthy_opt canon then canon
    else NORM_TO_CANONICAL !! norm_key primary.

Definition clamp (v lo hi : Z) : Z := Z.max lo (Z.min hi v).

(** Results of code that can raise. *)
Inductive result (A : Type) :=
| Ok (a : A)
| Raised (e : py_exn).
Arguments Ok {A} a.
Arguments Raised {A} e.

Definition f100 : float := Eval vm_compute in of_Z 100.
Definition f255 : float := Eval vm_compute in of_Z 255.
Definition f1 : float := Eval vm_compute in of_Z 1.
Definition f0 : float := S754_zero false.
(** [1e-12] and [1e-6] *)
Definition eps_flow : float := Eval vm_compute in of_decimal false 1 (-12).
Definition eps_z : float := Eval vm_compute in of_decimal false 1 (-6).

Definition pct_to_pwm (pct : float) : result Z :=
  match round (mul (div pct f100) f255) with
  | inr n => Ok (clamp n 0 255)
  | inl e => Raised e
  end.

Definition fmt_temp (t : float) : str :=
  if is_integer t then
    match to_Z t with Some n => str_of_Z n | None => [] end
  else repr t.

Definition fmt_float (value : float) (decimals : nat) : str :=
  let s := format_f value decimals in
  let s := if existsb (char_eqb ".") s
           then rstrip_by (char_eqb ".") (rstrip_by (char_eqb "0") s)
           else s in
  if truthy s then s else chars "0".

(** ** The pass over the document *)

(** The keyword arguments of [process_gcode]. *)
Record config := {
  wait_temp : bool;
  skip_first_layers : Z;
  flow_decimals : nat;
  feature_temps : gmap str float;
  feature_fans_pct : gmap str float;
  feature_flow : gmap str float;
  feature_gcode_enter : gmap str (list str);
  feature_gcode_exit : gmap str (list str)
}.

(** The local variables of [process_gcode] that its closures and its loop
    share.  [processed_line] is assigned by both loops and read at the top
    of the second one. *)
Record state := mkState {
  out_lines : list str;
  current_temp : option float;
  current_fan_pwm : option Z;
  e_relative : bool;
  last_e_abs : float;
  last_z : option float;
  baseline_temp : option float;
  baseline_fan_pwm : option Z;
  prev_overrode_temp : bool;
  prev_overrode_fan : bool;
  prev_feature_canon : option str;
  current_feature_canon : option str;
  current_layer : Z;
  processed_line : str
}.

Definition append_out (l : str) (st : state) : state :=
  mkState (out_lines st ++ [l]) (current_temp st) (current_fan_pwm st)
    (e_relative st) (last_e_abs st) (last_z st) (baseline_temp st)
    (baseline_fan_pwm st) (prev_overrode_temp st) (prev_overrode_fan st)
    (prev_feature_canon st) (current_feature_canon st) (current_layer st)
    (processed_line st).

Definition set_current_temp (v : option float) (st : state) : state :=
  mkState (out_lines st) v (current_fan_pwm st)
    (e_relative st) (last_e_abs st) (last_z st) (baseline_temp st)
    (baseline_fan_pwm st) (prev_overrode_temp st) (prev_overrode_fan st)
    (prev_feature_canon st) (current_feature_canon st) (current_layer st)
    (processed_line st).

Definition set_current_fan_pwm (v : option Z) (st : state) : state :=
  mkState (out_lines st) (current_temp st) v
    (e_relative st) (last_e_abs st) (last_z st) (baseline_temp st)
    (baseline_fan_pwm st) (prev_overrode_temp st) (prev_overrode_fan st)
    (prev_feature_canon st) (current_feature_canon st) (current_layer st)
    (processed_line st).

Definition set_e_relative (v : bool) (st : state) : state :=
  mkState (out_lines st) (current_temp st) (current_fan_pwm st)
    v (last_e_abs st) (last_z st) (baseline_temp st)
    (baseline_fan_pwm st) (prev_overrode_temp st) (prev_overrode_fan st)
    (prev_feature_canon st) (current_feature_canon st) (current_layer st)
    (processed_line st).

Definition set_last_e_abs (v : float) (st : state) : state :=
  mkState (out_lines st) (current_temp st) (current_fan_pwm st)
    (e_relative st) v (last_z st) (baseline_temp st)
    (baseline_fan_pwm st) (prev_overrode_temp st) (prev_overrode_fan st)
    (prev_feature_canon st) (current_feature_canon st) (current_layer st)
    (processed_line st).

Definition set_last_z (v : option float) (st : state) : state :=
  mkState (out_lines st) (current_temp st) (current_fan_pwm st)
    (e_relative st) (last_e_abs st) v (baseline_temp st)
    (baseline_fan_pwm st) (prev_overrode_temp st) (prev_overrode_fan st)
    (prev_feature_canon st) (current_feature_canon st) (current_layer st)
    (processed_line st).

Definition set_baseline_temp (v : option float) (st : state) : state :=
  mkState (out_lines st) (current_temp st) (current_fan_pwm st)
    (e_relative st) (last_e_abs st) (last_z st) v
    (baseline_fan_pwm st) (prev_overrode_temp st) (prev_overrode_fan st)
    (prev_feature_canon st) (current_feature_canon st) (current_layer st)
    (processed_line st).

Definition set_baseline_fan_pwm (v : option Z) (st : state) : state :=
  mkState (out_lines st) (current_temp st) (current_fan_pwm st)
    (e_relative st) (last_e_abs st) (last_z st) (baseline_temp st)
    v (prev_overrode_temp st) (prev_overrode_fan st)
    (prev_feature_canon st) (current_feature_canon st) (current_layer st)
    (processed_line st).

Definition set_prev_overrode_temp (v : bool) (st : state) : state :=
  mkState (out_lines st) (current_temp st) (current_fan_pwm st)
    (e_relative st) (last_e_abs st) (last_z st) (baseline_temp st)
    (baseline_fan_pwm st) v (prev_overrode_fan st)
    (prev_feature_canon st) (current_feature_canon st) (current_layer st)
    (processed_line st).

Definition set_prev_overrode_fan (v : bool) (st : state) : state :=
  mkState (out_lines st) (current_temp st) (current_fan_pwm st)
    (e_relative st) (last_e_abs st) (last_z st) (baseline_temp st)
    (baseline_fan_pwm st) (prev_overrode_temp st) v
    (prev_feature_canon st) (current_feature_canon st) (current_layer st)
    (processed_line st).

Definition set_prev_feature_canon (v : option str) (st : state) : state :=
  mkState (out_lines st) (current_temp st) (current_fan_pwm st)
    (e_relative st) (last_e_abs st) (last_z st) (baseline_temp st)
    (baseline_fan_pwm st) (prev_overrode_temp st) (prev_overrode_fan st)
    v (current_feature_canon st) (current_layer st)
    (processed_line st).

Definition set_current_feature_canon (v : option str) (st : state) : state :=
  mkState (out_lines st) (current_temp st) (current_fan_pwm st)
    (e_relative st) (last_e_abs st) (last_z st) (baseline_temp st)
    (baseline_fan_pwm st) (prev_overrode_temp st) (prev_overrode_fan st)
    (prev_feature_canon st) v (current_layer st)
    (processed_line st).

Definition set_current_layer (v : Z) (st : state) : state :=
  mkState (out_lines st) (current_temp st) (current_fan_pwm st)
    (e_relative st) (last_e_abs st) (last_z st) (baseline_temp st)
    (baseline_fan_pwm st) (prev_overrode_temp st) (prev_overrode_fan st)
    (prev_feature_canon st) (current_feature_canon st) v
    (processed_line st).

Definition set_processed_line (v : str) (st : state) : state :=
  mkState (out_lines st) (current_temp st) (current_fan_pwm st)
    (e_relative st) (last_e_abs st) (last_z st) (baseline_temp st)
    (baseline_fan_pwm st) (prev_overrode_temp st) (prev_overrode_fan st)
    (prev_feature_canon st) (current_feature_canon st) (current_layer st)
    v.

Definition is_match (r : regex) (s : str) : bool :=
  match re_match r s with Some _ => true | None => false end.

(** The extrusion mode and the extrusion origin read off a command: the
    [M82] / [M83] / [G92] chain, which [insert_raw] and the main loop both
    contain. *)
Definition track_extrusion (s : str) (st : state) : state :=
  if is_match M82_RE s then set_e_relative false st
  else if is_match M83_RE s then set_e_relative true st
  else if is_match G92_RE s then
    match re_search E_WORD_RE s with
    | Some m =>
        match of_str (group1 m s) with
        | Some v => set_last_e_abs v st
        | None => st
        end
    | None => st
    end
  else st.

(** The temperature and the fan duty read off a command: the
    [TEMP_CMD_RE] / [FAN_OFF_RE] / [FAN_ON_RE] chain, in [insert_raw] and
    in the main loop alike. *)
Definition track_temp_fan (s : str) (st : state) : state :=
  match re_match TEMP_CMD_RE s with
  | Some m_temp =>
      match of_str (group1 m_temp s) with
      | Some v => set_current_temp (Some v) st
      | None => st
      end
  | None =>
      if is_match FAN_OFF_RE s then set_current_fan_pwm (Some 0) st
      else
        match re_match FAN_ON_RE s with
        | Some m_fan =>
            match int_of_str (group1 m_fan s) with
            | Some v => set_current_fan_pwm (Some v) st
            | None => st
            end
        | None => st
        end
  end.

Definition observe (s : str) (st : state) : state :=
  track_temp_fan s (track_extrusion s st).

Definition insert_raw (line : str) (st : state) : state :=
  if ends_with_nl line
  then observe (rstrip_nl line) (append_out line st)
  else observe line (append_out (line ++ [nl]) st).

Definition cmd_temp (cfg : config) : str :=
  if wait_temp cfg then chars "M109" else chars "M104".

Definition insert_temp (cfg : config) (target : float) (reason : str)
    (st : state) : state :=
  insert_raw (cmd_temp cfg ++ chars " S" ++ fmt_temp target
              ++ chars " ; set temp (" ++ reason ++ chars ")") st.

Definition insert_fan_pwm (pwm : Z) (reason : str) (st : state) : state :=
  insert_raw (chars "M106 S" ++ str_of_Z (clamp pwm 0 255)
              ++ chars " ; set fan (" ++ reason ++ chars ")") st.

(** [m_e.span(1)] *)
Definition span1 (m : match_obj) : nat * nat :=
  match m_span m with Some sp => sp | None => (0%nat, 0%nat) end.

Definition apply_flow_to_line (cfg : config) (line : str)
    (factor : option float) (st : state) : str * state :=
  match factor with
  | None => (line, st)
  | Some f =>
  if ltb (abs (sub f f1)) eps_flow then (line, st) else
  let '(code_part, sep, comment) := py_partition ";" line in
  if negb (is_match MOVE_RE code_part) then (line, st) else
  match re_search E_WORD_RE code_part with
  | None => (line, st)
  | Some m_e =>
  match of_str (group1 m_e code_part) with
  | None => (line, st)
  | Some e_val =>
      let delta := if e_relative st then e_val else sub e_val (last_e_abs st) in
      if leb delta f0 then
        (line, if e_relative st then st else set_last_e_abs e_val st)
      else
        let new_delta := mul delta f in
        let new_e :=
          if e_relative st then new_delta else add (last_e_abs st) new_delta in
        let new_e_str := fmt_float new_e (flow_decimals cfg) in
        let '(start, stop) := span1 m_e in
        let code_new := firstn start code_part ++ new_e_str ++ skipn stop code_part in
        (code_new ++ (if truthy sep then sep ++ comment else []),
         if e_relative st then st else set_last_e_abs new_e st)
  end end end.

Definition layer_marker (s : str) : option match_obj :=
  match re_match LAYER_NUM_RE s with
  | Some m => Some m
  | None => re_match LAYER_WORD_RE s
  end.

Definition next_layer (n : Z) : Z := if 0 <=? n then n + 1 else 0.

Definition update_layer_from_line (original_line processed : str)
    (st : state) : state :=
  let s := original_line in
  match layer_marker s with
  | Some m =>
      let st := match int_of_str (group1 m s) with
                | Some n => set_current_layer n st
                | None => st
                end in
      set_current_feature_canon None st
  | None =>
  if is_match LAYER_CHANGE_RE s then
    set_current_feature_canon None
      (set_current_layer (next_layer (current_layer st)) st)
  else
    let code_part := (py_partition ";" processed).1.1 in
    if is_match MOVE_RE code_part then
      match re_search Z_WORD_RE code_part with
      | Some mz =>
          match of_str (group1 mz code_part) with
          | Some z_val =>
              match last_z st with
              | None =>
                  let st := set_last_z (Some z_val) st in
                  if current_layer st <? 0 then set_current_layer 0 st else st
              | Some lz =>
                  let st :=
                    if ltb (add lz eps_z) z_val then
                      set_current_feature_canon None
                        (set_current_layer
                           (if current_layer st <? 0 then 0
                            else current_layer st + 1) st)
                    else st in
                  set_last_z (Some z_val) st
              end
          | None => st
          end
      | None => st
      end
    else st
  end.

Definition insert_all (tag : str) (gcodes : list str) (st : state) : state :=
  fold_left (fun st gc => insert_raw (gc ++ tag) st) gcodes st.

(** [pct_to_pwm(feature_fans_pct[canon]) if (canon in feature_fans_pct)
    else None] *)
Definition new_fan_pwm (cfg : config) (canon : str) : result (option Z) :=
  match feature_fans_pct cfg !! canon with
  | Some pct =>
      match pct_to_pwm pct with
      | Ok n => Ok (Some n)
      | Raised e => Raised e
      end
  | None => Ok None
  end.

Definition restore_reason : str := chars "restore baseline at feature boundary".

(** The steps of the branch [if not skip_active and canon] of the main
    loop, in the order of the source. *)

(** [for gc in prev_exit_gcodes: insert_raw(f"{gc} ; exit {prev_feature_canon}")] *)
Definition emit_exit (cfg : config) (st : state) : state :=
  match prev_feature_canon st with
  | Some prev =>
      if truthy prev then
        insert_all (chars " ; exit " ++ prev)
          (default [] (feature_gcode_exit cfg !! prev)) st
      else st
  | None => st
  end.

Definition restore_temp (cfg : config) (new_temp : option float) (st : state)
    : state :=
  match prev_overrode_temp st, new_temp, baseline_temp st with
  | true, None, Some b =>
      set_current_temp (Some b) (insert_temp cfg b restore_reason st)
  | _, _, _ => st
  end.

Definition restore_fan (new_fan : option Z) (st : state) : state :=
  match prev_overrode_fan st, new_fan, baseline_fan_pwm st with
  | true, None, Some b =>
      set_current_fan_pwm (Some b) (insert_fan_pwm b restore_reason st)
  | _, _, _ => st
  end.

Definition snapshot_baselines (st : state) : state :=
  let st := set_baseline_temp (current_temp st) st in
  set_baseline_fan_pwm (current_fan_pwm st) st.

(** [for gc in new_enter_gcodes: insert_raw(f"{gc} ; enter {canon}")] *)
Definition emit_enter (cfg : config) (canon : str) (st : state) : state :=
  insert_all (chars " ; enter " ++ canon)
    (default [] (feature_gcode_enter cfg !! canon)) st.

Definition override_temp (cfg : config) (canon : str)
    (new_temp : option float) (st : state) : state :=
  match new_temp with
  | Some t =>
      set_prev_overrode_temp true
        (set_current_temp (Some t) (insert_temp cfg t canon st))
  | None => set_prev_overrode_temp false st
  end.

Definition override_fan (canon : str) (new_fan : option Z) (st : state)
    : state :=
  match new_fan with
  | Some p =>
      set_prev_overrode_fan true
        (set_current_fan_pwm (Some p) (insert_fan_pwm p canon st))
  | None => set_prev_overrode_fan false st
  end.

(** The branch as a whole.  The fan duty is computed first, and that is
    where the branch can raise. *)
Definition feature_boundary (cfg : config) (canon : str) (st : state)
    : result state :=
  let new_temp := feature_temps cfg !! canon in
  match new_fan_pwm cfg canon with
  | Raised e => Raised e
  | Ok new_fan =>
      let st := emit_exit cfg st in
      let st := restore_temp cfg new_temp st in
      let st := restore_fan new_fan st in
      let st := snapshot_baselines st in
      let st := emit_enter cfg canon st in
      let st := override_temp cfg canon new_temp st in
      let st := override_fan canon new_fan st in
      Ok (set_prev_feature_canon (Some canon) st)
  end.

Definition skip_active (cfg : config) (st : state) : bool :=
  (0 <? skip_first_layers cfg) && (0 <=? current_layer st)
  && (current_layer st <? skip_first_layers cfg).

(** The flow factor the main loop looks up for a line. *)
Definition flow_factor (cfg : config) (skip : bool) (st : state) : option float :=
  match current_feature_canon st with
  | Some c => if truthy c && negb skip then feature_flow cfg !! c else None
  | None => None
  end.

(** One iteration of the main loop. *)
Definition process_line (cfg : config) (line : str) (st : state)
    : result state :=
  let st := update_layer_from_line line (processed_line st) st in
  let skip := skip_active cfg st in
  let factor := flow_factor cfg skip st in
  let '(pl, st) :=
    match factor with
    | Some _ => apply_flow_to_line cfg line factor st
    | None => (line, st)
    end in
  let st := append_out pl (set_processed_line pl st) in
  match re_match TYPE_PREFIX_RE pl with
  | Some m_type =>
      let st := if current_layer st <? 0 then set_current_layer 0 st else st in
      let canon := match_canonical (group1 m_type pl) in
      let st := set_current_feature_canon canon st in
      match canon with
      | Some c =>
          if negb skip && truthy c then feature_boundary cfg c st
          else Ok (set_prev_feature_canon canon st)
      | None => Ok (set_prev_feature_canon canon st)
      end
  | None =>
      let st := observe (rstrip_nl pl) st in
      Ok (update_layer_from_line line pl st)
  end.

(** The main loop. *)
Fixpoint main_loop (cfg : config) (lines : list str) (st : state)
    : result state :=
  match lines with
  | [] => Ok st
  | line :: rest =>
      match process_line cfg line st with
      | Ok st' => main_loop cfg rest st'
      | Raised e => Raised e
      end
  end.

(** The variables as first assigned, before any loop. *)
Definition initial_state : state :=
  mkState [] None None false f0 None None None false false None None (-1) [].

(** The first loop: it only leaves the last line in [processed_line]. *)
Definition first_loop (lines : list str) (st : state) : state :=
  fold_left (fun st line => set_processed_line line st) lines st.

(** The assignments between the two loops. *)
Definition reset_state (st : state) : state :=
  mkState [] None None false f0 None None None false false None None 0
    (processed_line st).

(** Both loops: the lines [process_gcode] writes back for the lines it
    read. *)
Definition run_pass (cfg : config) (lines : list str) : result state :=
  main_loop cfg lines (reset_state (first_loop lines initial_state)).

(** ** The document on disk and the process

    A file system is a finite map from paths to the bytes of the files.
    [open(..., "r", encoding="utf-8", errors="replace")] decodes the bytes,
    putting U+FFFD in the place of what is not UTF-8, and reads with
    universal newlines; [open(..., "w", encoding="utf-8")] empties the file
    and encodes strictly. *)

Abbreviation bytes := (list Byte.byte).

(** A continuation byte, [80..BF]. *)
Definition is_cont (b : N) : bool := ((128 <=? b) && (b <=? 191))%N.

(** The second byte that a lead byte of a sequence of three or four bytes
    allows: no overlong forms, no surrogates, nothing above U+10FFFF. *)
Definition second_ok (b0 b1 : N) : bool :=
  (if b0 =? 224 then (160 <=? b1) && (b1 <=? 191)
   else if b0 =? 237 then (128 <=? b1) && (b1 <=? 159)
   else if b0 =? 240 then (144 <=? b1) && (b1 <=? 191)
   else if b0 =? 244 then (128 <=? b1) && (b1 <=? 143)
   else is_cont b1)%N.

Definition replacement_code : N := 65533.

(** [raw.decode("utf-8", errors="replace")] as code points: a byte that
    cannot start a sequence, and the valid start of a sequence that does
    not go on, are each replaced by one U+FFFD; decoding resumes at the
    byte that did not fit. *)
Fixpoint utf8_decode (bs : list N) : list N :=
  match bs with
  | [] => []
  | b0 :: r0 =>
      if (b0 <? 128)%N then b0 :: utf8_decode r0
      else if (b0 <? 194)%N then replacement_code :: utf8_decode r0
      else if (b0 <? 224)%N then
        match r0 with
        | [] => [replacement_code]
        | b1 :: r1 =>
            if is_cont b1
            then ((b0 - 192) * 64 + (b1 - 128))%N :: utf8_decode r1
            else replacement_code :: utf8_decode r0
        end
      else if (b0 <? 240)%N then
        match r0 with
        | [] => [replacement_code]
        | b1 :: r1 =>
            if second_ok b0 b1 then
              match r1 with
              | [] => [replacement_code]
              | b2 :: r2 =>
                  if is_cont b2
                  then ((b0 - 224) * 4096 + (b1 - 128) * 64 + (b2 - 128))%N
                       :: utf8_decode r2
                  else replacement_code :: utf8_decode r1
              end
            else replacement_code :: utf8_decode r0
        end
      else if (b0 <? 245)%N then
        match r0 with
        | [] => [replacement_code]
        | b1 :: r1 =>
            if second_ok b0 b1 then
              match r1 with
              | [] => [replacement_code]
              | b2 :: r2 =>
                  if is_cont b2 then
                    match r2 with
                    | [] => [replacement_code]
                    | b3 :: r3 =>
                        if is_cont b3
                        then ((b0 - 240) * 262144 + (b1 - 128) * 4096
                              + (b2 - 128) * 64 + (b3 - 128))%N
                             :: utf8_decode r3
                        else replacement_code :: utf8_decode r2
                    end
                  else replacement_code :: utf8_decode r1
              end
            else replacement_code :: utf8_decode r0
        end
      else replacement_code :: utf8_decode r0
  end.

(** The character of a code point, if the embedding has it.  Decoding
    never gives a surrogate. *)
Definition char_of_code (n : N) : option char :=
  if (n <? 256)%N then Some (Latin (ascii_of_N n))
  else if (n =? replacement_code)%N then Some Replacement
  else None.

Fixpoint text_of_codes (l : list N) : option str :=
  match l with
  | [] => Some []
  | n :: l' =>
      match char_of_code n, text_of_codes l' with
      | Some c, Some s => Some (c :: s)
      | _, _ => None
      end
  end.

(** The decoded text of a file; [None] if it holds a character outside the
    embedding. *)
Definition decode_text (raw : bytes) : option str :=
  text_of_codes (utf8_decode (map Byte.to_N raw)).

Definition byte_of_N (n : N) : Byte.byte := byte_of_ascii (ascii_of_N n).

(** [c.encode("utf-8")]; [None] stands for [UnicodeEncodeError], which a
    surrogate raises. *)
Definition utf8_encode_char (c : char) : option bytes :=
  match c with
  | Latin a =>
      let n := N_of_ascii a in
      if (n <? 128)%N then Some [byte_of_N n]
      else Some [byte_of_N (192 + n / 64); byte_of_N (128 + n mod 64)]
  | Replacement => Some [byte_of_N 239; byte_of_N 191; byte_of_N 189]
  | Surrogate _ _ _ _ => None
  end.

Fixpoint utf8_encode (s : str) : option bytes :=
  match s with
  | [] => Some []
  | c :: s' =>
      match utf8_encode_char c, utf8_encode s' with
      | Some b, Some r => Some (b ++ r)
      | _, _ => None
      end
  end.

Definition cr : char := Latin (ascii_of_nat 13).

(** Universal newlines: [\r\n] and a lone [\r] are read as [\n]. *)
Fixpoint translate_newlines (after_cr : bool) (s : str) : str :=
  match s with
  | [] => []
  | c :: s' =>
      if char_eqb c cr then nl :: translate_newlines true s'
      else if char_eqb c nl && after_cr then translate_newlines false s'
      else c :: translate_newlines false s'
  end.

(** The lines of a text, each with its newline; [cur] is the line being
    read, last character first. *)
Fixpoint split_lines (cur : str) (s : str) : list str :=
  match s with
  | [] => match cur with [] => [] | _ => [rev cur] end
  | c :: s' =>
      if char_eqb c nl then rev (c :: cur) :: split_lines [] s'
      else split_lines (c :: cur) s'
  end.

(** [f.readlines()] on the decoded text *)
Definition readlines (text : str) : list str :=
  split_lines [] (translate_newlines false text).

(** The text [outfile.writelines(lines)] writes when every line can be
    encoded. *)
Definition writelines (lines : list str) : str := concat lines.

(** [outfile.writelines(lines)] on the file opened with ["w"] and closed by
    the [with] statement: each line is encoded as a whole before any of it
    is written, so the bytes of the lines before the first one that cannot
    be encoded reach the file, and the exception leaves the rest out. *)
Fixpoint write_lines (lines : list str) : bytes * option py_exn :=
  match lines with
  | [] => ([], None)
  | l :: rest =>
      match utf8_encode l with
      | Some b => let '(data, err) := write_lines rest in (b ++ data, err)
      | None => ([], Some UnicodeEncodeError)
      end
  end.

(** What the process does to the outside, in order. *)
Inductive event :=
| LogError (msg : str)                   (** [logging.error] *)
| OpenWrite (path : str)                 (** the file is opened with ["w"]: it is emptied *)
| WriteData (path : str) (data : bytes)  (** bytes reach the file *)
| Traceback (e : py_exn).                (** an exception nobody catches *)

Record outcome := {
  files_after : gmap str bytes;
  events : list event;
  exit_status : Z
}.

(** The end of [process_gcode]: the output lines are written back. *)
Definition write_back (input_file : str) (files : gmap str bytes)
    (lines : list str) : outcome :=
  let '(data, err) := write_lines lines in
  {| files_after := <[ input_file := data ]> files;
     events := [OpenWrite input_file; WriteData input_file data]
               ++ match err with Some e => [Traceback e] | None => [] end;
     exit_status := match err with Some _ => 1 | None => 0 end |}.

(** [process_gcode] as the script calls it, up to the end of the process;
    [None] if the file holds a character outside the embedding. *)
Definition process_gcode (cfg : config) (input_file : str)
    (files : gmap str bytes) : option outcome :=
  match files !! input_file with
  | None =>
      Some {| files_after := files;
              events := [LogError (chars "Input file not found: " ++ input_file)];
              exit_status := 1 |}
  | Some raw =>
      match decode_text raw with
      | None => None
      | Some text =>
          match run_pass cfg (readlines text) with
          | Ok st => Some (write_back input_file files (out_lines st))
          | Raised e =>
              Some {| files_after := files; events := [Traceback e];
                      exit_status := 1 |}
          end
      end
  end.
(** ** Sample documents and configurations *)

(** A line of a document, with its newline. *)
Definition line (s : string) : str := chars s ++ [nl].

Definition no_overrides : config :=
  {| wait_temp := false; skip_first_layers := 0; flow_decimals := 5;
     feature_temps := ∅; feature_fans_pct := ∅; feature_flow := ∅;
     feature_gcode_enter := ∅; feature_gcode_exit := ∅ |}.

(** The state in which the main loop starts on a document. *)
Definition start_state (lines : list str) : state :=
  reset_state (first_loop lines initial_state).

Definition state_of (r : result state) : option state :=
  match r with Ok st => Some st | Raised _ => None end.

Definition doc_layer_change : list str := [line ";LAYER_CHANGE"].

Definition doc_falling_z : list str := [line "G1 Z0.2"; line "G1 Z0.1"].

Definition doc_no_signal : list str := [line "G1 X1 Y1"].

(** A configuration with one temperature, given in whole degrees. *)
Definition only_temp (feature : string) (degrees : Z) : config :=
  {| wait_temp := false; skip_first_layers := 0; flow_decimals := 5;
     feature_temps := {[ chars feature := of_Z degrees ]};
     feature_fans_pct := ∅; feature_flow := ∅;
     feature_gcode_enter := ∅; feature_gcode_exit := ∅ |}.

(** Bridges at 210 degrees, nothing else. *)
Definition bridge_210 : config := only_temp "bridge" 210.

(** Bridges at 210 degrees, and the first layer left alone. *)
Definition bridge_210_skip_1 : config :=
  {| wait_temp := false; skip_first_layers := 1; flow_decimals := 5;
     feature_temps := {[ chars "bridge" := of_Z 210 ]};
     feature_fans_pct := ∅; feature_flow := ∅;
     feature_gcode_enter := ∅; feature_gcode_exit := ∅ |}.

(** Bridges with an exit command. *)
Definition bridge_exit : config :=
  {| wait_temp := false; skip_first_layers := 0; flow_decimals := 5;
     feature_temps := ∅; feature_fans_pct := ∅; feature_flow := ∅;
     feature_gcode_enter := ∅;
     feature_gcode_exit := {[ chars "bridge" := [chars "M117 bridge done"] ]} |}.

(** Infill with the flow factor 1.1. *)
Definition infill_flow : config :=
  {| wait_temp := false; skip_first_layers := 0; flow_decimals := 5;
     feature_temps := ∅; feature_fans_pct := ∅;
     feature_flow := {[ chars "infill" := of_decimal false 11 (-1) ]};
     feature_gcode_enter := ∅; feature_gcode_exit := ∅ |}.

Definition doc_bridge : list str := [line ";TYPE:bridge"].

Definition doc_bridge_infill : list str :=
  [line ";TYPE:bridge"; line ";TYPE:infill"].

Definition doc_heated_bridge_infill : list str :=
  [line "M104 S200"; line ";TYPE:bridge"; line ";TYPE:infill"].

Definition doc_raft_bridge : list str := [line ";LAYER:-1"; line ";TYPE:bridge"].

Definition doc_unknown_marker : list str :=
  [line ";TYPE:bridge"; line ";TYPE:Skirt"; line ";TYPE:infill"; line "G1 X1"].

Definition doc_infill_move : list str := [line "; TYPE: infill"; line "G1 X10 E5"].

(** The state after the main loop has run over [lines]; the start state if
    it raised. *)
Definition state_after (cfg : config) (lines : list str) : state :=
  match run_pass cfg lines with
  | Ok st => st
  | Raised _ => start_state lines
  end.

(** The state the main loop is in after the first [n] lines of a
    document. *)
Definition state_at (cfg : config) (lines : list str) (n : nat) : state :=
  match main_loop cfg (firstn n lines) (start_state lines) with
  | Ok st => st
  | Raised _ => start_state lines
  end.

(** The state a feature boundary leaves; the state itself if it raised. *)
Definition boundary_after (cfg : config) (canon : str) (st : state) : state :=
  match feature_boundary cfg canon st with
  | Ok st' => st'
  | Raised _ => st
  end.

(** More digits than [int()] reads. *)
Definition too_many_digits : str := repeat (Latin "7") 4301.

Definition long_layer_marker : str := chars ";LAYER:" ++ too_many_digits ++ [nl].

Definition long_fan_command : str := chars "M106 S" ++ too_many_digits.

Definition sample_path : str := chars "part.gcode".

(** The bytes of a string literal. *)
Definition raw (s : string) : bytes := list_byte_of_string s.

(** A file with a Windows line end and without a final newline, and its
    text. *)
Definition sample_raw : bytes :=
  raw "M104 S200" ++ [Byte.x0d; Byte.x0a] ++ raw ";TYPE:bridge" ++ [Byte.x0a]
  ++ raw ";TYPE:infill".

Definition sample_text : str :=
  chars "M104 S200" ++ [cr; nl] ++ chars ";TYPE:bridge" ++ [nl]
  ++ chars ";TYPE:infill".

Definition sample_files : gmap str bytes := {[ sample_path := sample_raw ]}.

(** A file in Latin-1: the degree sign is the single byte [B0], which is
    not UTF-8. *)
Definition degree_raw : bytes :=
  raw "; temp 200" ++ [Byte.xb0] ++ raw "C" ++ [Byte.x0a] ++ raw "G1 X1"
  ++ [Byte.x0a].

Definition degree_files : gmap str bytes := {[ sample_path := degree_raw ]}.

(** U+DC80, as a command-line argument with the byte [80] is decoded. *)
Definition stray : char := Surrogate true false false (ascii_of_nat 128).

(** Bridges with an enter command that holds a surrogate. *)
Definition bridge_stray_gcode : config :=
  {| wait_temp := false; skip_first_layers := 0; flow_decimals := 5;
     feature_temps := ∅; feature_fans_pct := ∅; feature_flow := ∅;
     feature_gcode_enter := {[ chars "bridge" := [chars "M117 " ++ [stray]] ]};
     feature_gcode_exit := ∅ |}.


(** The state after one more line; the state itself if the iteration
    raised. *)
Definition step_after (cfg : config) (l : str) (st : state) : state :=
  match process_line cfg l st with
  | Ok st' => st'
  | Raised _ => st
  end.

(** The outcome of a run on a file the embedding covers; on any other file,
    a run that did nothing. *)
Definition outcome_of (files : gmap str bytes) (r : option outcome) : outcome :=
  match r with
  | Some o => o
  | None => {| files_after := files; events := []; exit_status := 0 |}
  end.

(** The text of [degree_raw]: the byte [B0] is read as U+FFFD. *)
Definition degree_text : str :=
  chars "; temp 200" ++ [Replacement] ++ chars "C" ++ [nl] ++ chars "G1 X1" ++ [nl].
(** ** What a step writes

    The lines one iteration of the main loop appends, written out for the
    statements below. *)

(** The line [insert_raw] appends for a command. *)
Definition with_nl (l : str) : str := if ends_with_nl l then l else l ++ [nl].

(** The line [insert_temp] appends. *)
Definition temp_line (cfg : config) (t : float) (reason : str) : str :=
  cmd_temp cfg ++ chars " S" ++ fmt_temp t ++ chars " ; set temp ("
  ++ reason ++ chars ")" ++ [nl].

(** The line [insert_fan_pwm] appends. *)
Definition fan_line (p : Z) (reason : str) : str :=
  chars "M106 S" ++ str_of_Z (clamp p 0 255) ++ chars " ; set fan ("
  ++ reason ++ chars ")" ++ [nl].

(** The exit commands of the previous feature, tagged. *)
Definition exit_lines (cfg : config) (st : state) : list str :=
  match prev_feature_canon st with
  | Some prev =>
      if truthy prev then
        map (fun gc => with_nl (gc ++ chars " ; exit " ++ prev))
            (default [] (feature_gcode_exit cfg !! prev))
      else []
  | None => []
  end.

(** The enter commands of a feature, tagged. *)
Definition enter_lines (cfg : config) (canon : str) : list str :=
  map (fun gc => with_nl (gc ++ chars " ; enter " ++ canon))
      (default [] (feature_gcode_enter cfg !! canon)).

Definition restore_temp_lines (cfg : config) (canon : str) (st : state)
    : list str :=
  match prev_overrode_temp st, feature_temps cfg !! canon, baseline_temp st with
  | true, None, Some b => [temp_line cfg b restore_reason]
  | _, _, _ => []
  end.

Definition restore_fan_lines (new_fan : option Z) (st : state) : list str :=
  match prev_overrode_fan st, new_fan, baseline_fan_pwm st with
  | true, None, Some b => [fan_line b restore_reason]
  | _, _, _ => []
  end.

Definition set_temp_lines (cfg : config) (canon : str) : list str :=
  match feature_temps cfg !! canon with
  | Some t => [temp_line cfg t canon]
  | None => []
  end.

Definition set_fan_lines (new_fan : option Z) (canon : str) : list str :=
  match new_fan with
  | Some p => [fan_line p canon]
  | None => []
  end.

(** Everything a feature boundary appends, in order. *)
Definition boundary_block (cfg : config) (canon : str) (new_fan : option Z)
    (st : state) : list str :=
  exit_lines cfg st ++ restore_temp_lines cfg canon st
  ++ restore_fan_lines new_fan st ++ enter_lines cfg canon
  ++ set_temp_lines cfg canon ++ set_fan_lines new_fan canon.

(** The variables that injected commands never touch: two states agree on
    everything but the output, the tracked temperature and fan duty, and
    the extrusion mode and origin. *)
Definition same_bookkeeping (st st' : state) : Prop :=
  last_z st' = last_z st
  /\ baseline_temp st' = baseline_temp st
  /\ baseline_fan_pwm st' = baseline_fan_pwm st
  /\ prev_overrode_temp st' = prev_overrode_temp st
  /\ prev_overrode_fan st' = prev_overrode_fan st
  /\ prev_feature_canon st' = prev_feature_canon st
  /\ current_feature_canon st' = current_feature_canon st
  /\ current_layer st' = current_layer st
  /\ processed_line st' = processed_line st.

(** The previous character after a run of [p] characters. *)
Fixpoint prev_after (p : char -> bool) (prev : option char) (s : str)
    : option char :=
  match s with
  | c :: s' => if p c then prev_after p (Some c) s' else prev
  | [] => prev
  end.

(** The text the main loop outputs for an input line: the line itself, or
    the line with its extrusion value rescaled. *)
Definition rewritten (cfg : config) (line : str) (st : state) : str :=
  let st1 := update_layer_from_line line (processed_line st) st in
  match flow_factor cfg (skip_active cfg st1) st1 with
  | Some f => (apply_flow_to_line cfg line (Some f) st1).1
  | None => line
  end.

(** Whether an iteration takes the branch [if not skip_active and canon]:
    the line is a feature marker, its text is recognized and the layer is
    not skipped. *)
Definition fires_boundary (cfg : config) (line : str) (st : state) : bool :=
  let st1 := update_layer_from_line line (processed_line st) st in
  let pl := rewritten cfg line st in
  match re_match TYPE_PREFIX_RE pl with
  | Some m =>
      match match_canonical (group1 m pl) with
      | Some c => negb (skip_active cfg st1) && truthy c
      | None => false
      end
  | None => false
  end.

(** No iteration over [lines], started in [st], takes that branch. *)
Fixpoint quiet (cfg : config) (lines : list str) (st : state) : bool :=
  match lines with
  | [] => true
  | l :: rest =>
      negb (fires_boundary cfg l st)
      && match process_line cfg l st with
         | Ok st' => quiet cfg rest st'
         | Raised _ => true
         end
  end.

(** [pl] is [line], or [line] with the token after its first [E] word
    replaced and everything else in place. *)
Definition kept (line pl : str) : Prop :=
  pl = line
  \/ exists code_part sep comment m_e new_e_str,
       py_partition ";" line = (code_part, sep, comment)
       /\ is_match MOVE_RE code_part = true
       /\ re_search E_WORD_RE code_part = Some m_e
       /\ pl = firstn (span1 m_e).1 code_part ++ new_e_str
               ++ skipn (span1 m_e).2 code_part
               ++ (if truthy sep then sep ++ comment else []).

(** The line and the state after the flow rewriter, as the main loop has
    them when it appends the line. *)
Definition flowed (cfg : config) (line : str) (st : state) : str * state :=
  let st1 := update_layer_from_line line (processed_line st) st in
  match flow_factor cfg (skip_active cfg st1) st1 with
  | Some f => apply_flow_to_line cfg line (Some f) st1
  | None => (line, st1)
  end.

(** The state in which an iteration whose output line [pl] is a feature
    marker looks at the feature [canon]. *)
Definition marker_state (pl : str) (canon : option str) (st : state) : state :=
  let st := append_out pl (set_processed_line pl st) in
  let st := if current_layer st <? 0 then set_current_layer 0 st else st in
  set_current_feature_canon canon st.

(** The variables a feature boundary reads are not touched on the way to
    it. *)
Definition same_overrides (st st' : state) : Prop :=
  prev_feature_canon st' = prev_feature_canon st
  /\ prev_overrode_temp st' = prev_overrode_temp st
  /\ prev_overrode_fan st' = prev_overrode_fan st
  /\ baseline_temp st' = baseline_temp st
  /\ baseline_fan_pwm st' = baseline_fan_pwm st
  /\ current_temp st' = current_temp st
  /\ current_fan_pwm st' = current_fan_pwm st.

(** A decimal numeral with at most [d] digits after the point and no
    trailing zero there: [ip] alone, or [ip], a point and digits of which
    the last is not [0]. *)
Definition trimmed_decimal (d : nat) (s : str) : Prop :=
  exists ip fp,
    s = ip ++ fp
    /\ existsb (char_eqb ".") ip = false
    /\ (fp = []
        \/ exists ds c,
             fp = Latin "." :: ds ++ [c]
             /\ forallb is_digit (ds ++ [c]) = true
             /\ (length (ds ++ [c]) <= d)%nat
             /\ c <> Latin "0").


(** The state in which a feature boundary records its baselines: after the
    exit commands of the previous feature and the restore, before the enter
    commands and the overrides of the feature it enters. *)
Definition before_snapshot (cfg : config) (canon : str) (st : state) : state :=
  match new_fan_pwm cfg canon with
  | Ok new_fan =>
      restore_fan new_fan
        (restore_temp cfg (feature_temps cfg !! canon) (emit_exit cfg st))
  | Raised _ => st
  end.


(** Text that strict UTF-8 encodes: it holds no surrogate. *)
Definition encodable (s : str) : bool :=
  forallb (fun c => match c with Surrogate _ _ _ _ => false | _ => true end) s.

(** Every custom command of a configuration can be encoded. *)
Definition gcodes_encodable (cfg : config) : Prop :=
  (forall c gcs, feature_gcode_enter cfg !! c = Some gcs ->
                 Forall (fun gc => encodable gc = true) gcs)
  /\ (forall c gcs, feature_gcode_exit cfg !! c = Some gcs ->
                    Forall (fun gc => encodable gc = true) gcs).

(** Bytes below 128. *)
Definition ascii_only (data : bytes) : bool :=
  forallb (fun b => (Byte.to_N b <? 128)%N) data.

(** No carriage return among the bytes. *)
Definition no_cr_byte (data : bytes) : bool :=
  forallb (fun b => negb (Byte.to_N b =? 13)%N) data.


(** Text of code points below 256 only. *)
Definition all_latin (s : str) : bool :=
  forallb (fun c => match c with Latin _ => true | _ => false end) s.

(** The text of bytes below 128. *)
Definition text_of_ascii (data : bytes) : str :=
  map (fun b => Latin (ascii_of_byte b)) data.
(** ** The command line

    What the script does after [parser.parse_args()]: the parsed arguments
    are an object with, for each canonical feature name, five optional
    attributes.  The loop over [FEATURE_SYNONYMS.keys()] copies them into
    the five dictionaries, and [process_gcode] is called with those. *)

(** The attributes [canon], [canon_fan], [canon_flow], [canon_gcode] and
    [canon_gcode_exit] of the parsed arguments; [None] when the option was
    not given. *)
Record feature_args := {
  arg_temp : option float;
  arg_fan : option float;
  arg_flow : option float;
  arg_gcode : option (list str);
  arg_gcode_exit : option (list str)
}.

Record cli_args := {
  arg_input_file : str;
  arg_wait_temp : bool;
  arg_skip_first_layers : Z;
  arg_feature : str -> feature_args   (** [getattr(args, ...)] by feature *)
}.

(** [FEATURE_SYNONYMS.keys()] *)
Definition canonical_names : list str :=
  map (fun entry => chars entry.1) FEATURE_SYNONYMS.

(** [if v is not None: d[canon] = v], over the features. *)
Definition collect {A : Type} (get : str -> option A) : gmap str A :=
  fold_left
    (fun d canon => match get canon with Some v => <[ canon := v ]> d | None => d end)
    canonical_names ∅.

(** [if ge: d[canon] = ge]: a list that is missing or empty sets nothing. *)
Definition non_empty (l : option (list str)) : option (list str) :=
  match l with
  | Some (x :: r) => Some (x :: r)
  | _ => None
  end.

(** The keyword arguments the script passes to [process_gcode]. *)
Definition config_of_args (args : cli_args) : config :=
  {| wait_temp := arg_wait_temp args;
     skip_first_layers := arg_skip_first_layers args;
     flow_decimals := 5;
     feature_temps := collect (fun c => arg_temp (arg_feature args c));
     feature_fans_pct := collect (fun c => arg_fan (arg_feature args c));
     feature_flow := collect (fun c => arg_flow (arg_feature args c));
     feature_gcode_enter :=
       collect (fun c => non_empty (arg_gcode (arg_feature args c)));
     feature_gcode_exit :=
       collect (fun c => non_empty (arg_gcode_exit (arg_feature args c))) |}.

(** The script from the parsed arguments on. *)
Definition main (args : cli_args) (files : gmap str bytes) : option outcome :=
  process_gcode (config_of_args args) (arg_input_file args) files.

(** ** More sample data *)

(** No option given for any feature. *)
Definition no_feature_args : feature_args :=
  {| arg_temp := None; arg_fan := None; arg_flow := None;
     arg_gcode := None; arg_gcode_exit := None |}.

(** [--bridge 210 --bridge-fan 50 --infill-gcode "M117 infill"], and an
    empty list of exit commands for infill. *)
Definition sample_args : cli_args :=
  {| arg_input_file := sample_path;
     arg_wait_temp := false;
     arg_skip_first_layers := 0;
     arg_feature := fun c =>
       if str_eqb c (chars "bridge") then
         {| arg_temp := Some (of_Z 210); arg_fan := Some (of_Z 50);
            arg_flow := None; arg_gcode := None; arg_gcode_exit := None |}
       else if str_eqb c (chars "infill") then
         {| arg_temp := None; arg_fan := None; arg_flow := None;
            arg_gcode := Some [chars "M117 infill"];
            arg_gcode_exit := Some [] |}
       else no_feature_args |}.

(** No override at all, but other options set. *)
Definition plain_waiting : config :=
  {| wait_temp := true; skip_first_layers := 3; flow_decimals := 2;
     feature_temps := ∅; feature_fans_pct := ∅; feature_flow := ∅;
     feature_gcode_enter := ∅; feature_gcode_exit := ∅ |}.

(** A configuration in which no feature has any override. *)
Definition is_plain (cfg : config) : Prop :=
  feature_temps cfg = ∅ /\ feature_fans_pct cfg = ∅ /\ feature_flow cfg = ∅
  /\ feature_gcode_enter cfg = ∅ /\ feature_gcode_exit cfg = ∅.

(** Every fan percentage of a configuration can be rounded to a duty. *)
Definition fans_round (cfg : config) : Prop :=
  forall c pct, feature_fans_pct cfg !! c = Some pct ->
                exists n, pct_to_pwm pct = Ok n.

(** A feature name the state may hold: none, or a canonical one. *)
Definition known_feature (o : option str) : Prop :=
  match o with
  | Some c => c ∈ canonical_names
  | None => True
  end.

(** A line as [readlines] returns it: not empty, and a newline only at the
    very end. *)
Definition is_line (l : str) : Prop :=
  exists body,
    forallb (fun c => negb (char_eqb c nl)) body = true
    /\ (l = body ++ [nl] \/ (l = body /\ body <> [])).

Definition no_cr (s : str) : Prop :=
  forallb (fun c => negb (char_eqb c cr)) s = true.


(** A line that is not a feature marker with a recognised text. *)
Definition no_known_marker (l : str) : bool :=
  match re_match TYPE_PREFIX_RE l with
  | Some m =>
      match match_canonical (group1 m l) with
      | Some _ => false
      | None => true
      end
  | None => true
  end.

(** A line whose first character after white space is a semicolon. *)
Definition is_comment (s : str) : bool :=
  match drop_while is_space s with
  | c :: _ => char_eqb c ";"
  | [] => false
  end.

(** Bridges with a fan percentage, nothing else. *)
Definition bridge_fan (pct : float) : config :=
  {| wait_temp := false; skip_first_layers := 0; flow_decimals := 5;
     feature_temps := ∅; feature_fans_pct := {[ chars "bridge" := pct ]};
     feature_flow := ∅; feature_gcode_enter := ∅; feature_gcode_exit := ∅ |}.

(** The variables that follow the commands of the document. *)
Definition same_tracking (st st' : state) : Prop :=
  current_temp st' = current_temp st
  /\ current_fan_pwm st' = current_fan_pwm st
  /\ e_relative st' = e_relative st
  /\ last_e_abs st' = last_e_abs st.

(** The script called with the file and [--wait-temp] only. *)
Definition plain_args : cli_args :=
  {| arg_input_file := sample_path;
     arg_wait_temp := true;
     arg_skip_first_layers := 0;
     arg_feature := fun _ => no_feature_args |}.

(** No option of a feature sets anything: none is given, or only empty
    lists of commands. *)
Definition sets_nothing (fa : feature_args) : Prop :=
  arg_temp fa = None /\ arg_fan fa = None /\ arg_flow fa = None
  /\ non_empty (arg_gcode fa) = None /\ non_empty (arg_gcode_exit fa) = None.
(** * Lemmas *)

(** ** Text *)

Lemma char_eqb_true a b : char_eqb a b = true -> a = b.
Proof.
  destruct a as [x| |a2 a1 a0 x], b as [y| |b2 b1 b0 y]; cbn [char_eqb]; try done.
  - by intros ->%Ascii.eqb_eq.
  - intros [[[H2 H1]%andb_true_iff H0]%andb_true_iff Hx]%andb_true_iff.
    apply Bool.eqb_prop in H2, H1, H0. apply Ascii.eqb_eq in Hx. by subst.
Qed.

Lemma char_eqb_refl a : char_eqb a a = true.
Proof.
  destruct a as [x| |a2 a1 a0 x]; cbn [char_eqb]; [apply Ascii.eqb_refl|done|].
  by rewrite !Bool.eqb_reflx, Ascii.eqb_refl.
Qed.

Lemma char_eqb_sym a b : char_eqb a b = char_eqb b a.
Proof.
  destruct (char_eqb a b) eqn:E.
  - apply char_eqb_true in E as ->. by rewrite char_eqb_refl.
  - destruct (char_eqb b a) eqn:E'; [|done].
    apply char_eqb_true in E' as ->. by rewrite char_eqb_refl in E.
Qed.

(** Case analysis on a character, down to its code point. *)
Ltac each_char c := destruct c as [[[] [] [] [] [] [] [] []]| |? ? ? ?].

Lemma take_drop_while p s : take_while p s ++ drop_while p s = s.
Proof.
  induction s as [|c s IH]; simpl; [done|].
  destruct (p c); simpl; by rewrite ?IH.
Qed.

Lemma take_while_all p s : forallb p (take_while p s) = true.
Proof.
  induction s as [|c s IH]; simpl; [done|].
  destruct (p c) eqn:E; simpl; by rewrite ?E, ?IH.
Qed.

Lemma drop_while_all p s : forallb p s = true -> drop_while p s = [].
Proof.
  induction s as [|c s IH]; simpl; [done|].
  intros [Hc Hs]%andb_true_iff. rewrite Hc. by apply IH.
Qed.

Lemma py_partition_prefix sep ws s1 :
  forallb (fun c => negb (char_eqb c sep)) ws = true ->
  py_partition sep (ws ++ sep :: s1) = (ws, [sep], s1).
Proof.
  induction ws as [|c ws IH]; simpl.
  - intros _. by rewrite char_eqb_refl.
  - intros [Hc Hs]%andb_true_iff. apply negb_true_iff in Hc. rewrite Hc.
    by rewrite (IH Hs).
Qed.

Lemma only_eq a c : only a c = true -> c = a.
Proof. unfold only. intros H. symmetry. by apply char_eqb_true. Qed.

Lemma space_not_semicolon c : is_space c = true -> only ";" c = false.
Proof. destruct c as [[[] [] [] [] [] [] [] []]| |? ? ? ?]; vm_compute; congruence. Qed.

Lemma space_not_G c : is_space c = true -> ci "G" c = false.
Proof. destruct c as [[[] [] [] [] [] [] [] []]| |? ? ? ?]; vm_compute; congruence. Qed.

Lemma ends_with_nl_app s c : ends_with_nl (s ++ [c]) = char_eqb c nl.
Proof. unfold ends_with_nl. by rewrite rev_app_distr. Qed.

Lemma with_nl_closing s : with_nl (s ++ chars ")") = s ++ chars ")" ++ [nl].
Proof.
  unfold with_nl. change (chars ")") with [Latin ")"].
  rewrite ends_with_nl_app. simpl. by rewrite <- app_assoc.
Qed.

(** ** The matcher *)

(** A greedy run followed by something that cannot start with a character
    of the run never backtracks. *)
Lemma star_commit p k prev pos s :
  (forall c s' prev' pos', p c = true -> k prev' pos' (c :: s') = None) ->
  star p k prev pos s
  = k (prev_after p prev s) (pos + length (take_while p s))%nat (drop_while p s).
Proof.
  intros Hk. revert prev pos. induction s as [|c s IH]; intros prev pos; simpl.
  - by rewrite Nat.add_0_r.
  - destruct (p c) eqn:Hc; simpl.
    + rewrite IH. replace (S pos + length (take_while p s))%nat
        with (pos + S (length (take_while p s)))%nat by lia.
      destruct (k _ _ _) eqn:E; [done|]. by apply Hk.
    + by rewrite Nat.add_0_r.
Qed.

Lemma run_star_chr p q R k prev pos s g :
  (forall c, p c = true -> q c = false) ->
  run (Cat (Star p) (Cat (Chr q) R)) k prev pos s g =
    match drop_while p s with
    | c :: s' =>
        if q c then run R k (Some c) (S (pos + length (take_while p s))) s' g
        else None
    | [] => None
    end.
Proof.
  intros Hpq. cbn [run]. rewrite star_commit.
  - reflexivity.
  - intros c s' prev' pos' Hc. by rewrite (Hpq c Hc).
Qed.

(** The patterns anchored at the start skip white space and then need
    their first character. *)
Lemma re_match_head q R s :
  (forall c, is_space c = true -> q c = false) ->
  re_match (Cat Bol (Cat (Star is_space) (Cat (Chr q) R))) s =
    match drop_while is_space s with
    | c :: s' =>
        if q c
        then run R accept (Some c) (S (length (take_while is_space s))) s' None
        else None
    | [] => None
    end.
Proof.
  intros H. unfold re_match.
  change (run (Cat Bol ?r) ?k None 0%nat s None) with (run r k None 0%nat s None).
  by rewrite run_star_chr.
Qed.

(** A feature marker starts with white space and a semicolon. *)
Lemma type_marker_shape s m :
  re_match TYPE_PREFIX_RE s = Some m ->
  exists ws s1, s = ws ++ Latin ";" :: s1 /\ forallb is_space ws = true.
Proof.
  unfold TYPE_PREFIX_RE, Seq. cbn [fold_right].
  rewrite re_match_head by apply space_not_semicolon.
  intros H. exists (take_while is_space s).
  destruct (drop_while is_space s) as [|c s1] eqn:E; [done|].
  destruct (only ";" c) eqn:Hc; [|done]. apply only_eq in Hc. subst c.
  exists s1. split; [|apply take_while_all].
  by rewrite <- E, take_drop_while.
Qed.

Lemma move_needs_command ws :
  forallb is_space ws = true -> is_match MOVE_RE ws = false.
Proof.
  intros H. unfold is_match, MOVE_RE, Seq. cbn [fold_right].
  rewrite re_match_head by apply space_not_G.
  by rewrite drop_while_all.
Qed.

Lemma marker_code_part s m :
  re_match TYPE_PREFIX_RE s = Some m ->
  is_match MOVE_RE (py_partition ";" s).1.1 = false.
Proof.
  intros (ws & s1 & -> & Hws)%type_marker_shape.
  rewrite py_partition_prefix.
  - by apply move_needs_command.
  - clear -Hws. induction ws as [|c ws IH]; cbn [forallb] in *; [done|].
    apply andb_true_iff in Hws as [Hc Hs]. rewrite (IH Hs), andb_true_r.
    apply space_not_semicolon in Hc. unfold only in Hc.
    by rewrite char_eqb_sym, Hc.
Qed.

(** The flow rewriter leaves a feature marker and the state alone. *)
Lemma apply_flow_marker cfg s m factor st :
  re_match TYPE_PREFIX_RE s = Some m ->
  apply_flow_to_line cfg s factor st = (s, st).
Proof.
  intros H%marker_code_part. unfold apply_flow_to_line.
  destruct factor as [f|]; [|done].
  destruct (ltb _ _); [done|].
  destruct (py_partition ";" s) as [[code_part sep] comment]. simpl in H.
  by rewrite H.
Qed.

(** ** What each closure leaves alone *)

Ltac by_cases :=
  intros;
  repeat (progress (cbv beta iota zeta in *; simpl in *) || case_match);
  try reflexivity.

Lemma same_bookkeeping_refl st : same_bookkeeping st st.
Proof. by repeat split. Qed.

Lemma same_bookkeeping_trans a b c :
  same_bookkeeping a b -> same_bookkeeping b c -> same_bookkeeping a c.
Proof.
  unfold same_bookkeeping. intros H1 H2.
  destruct H1 as (?&?&?&?&?&?&?&?&?), H2 as (?&?&?&?&?&?&?&?&?).
  repeat split; congruence.
Qed.

Lemma track_extrusion_out s st : out_lines (track_extrusion s st) = out_lines st.
Proof. unfold track_extrusion. by_cases. Qed.

Lemma track_temp_fan_out s st : out_lines (track_temp_fan s st) = out_lines st.
Proof. unfold track_temp_fan. by_cases. Qed.

Lemma observe_out s st : out_lines (observe s st) = out_lines st.
Proof. unfold observe. by rewrite track_temp_fan_out, track_extrusion_out. Qed.

Lemma track_extrusion_same s st : same_bookkeeping st (track_extrusion s st).
Proof. unfold track_extrusion. by_cases; by repeat split. Qed.

Lemma track_temp_fan_same s st : same_bookkeeping st (track_temp_fan s st).
Proof. unfold track_temp_fan. by_cases; by repeat split. Qed.

Lemma observe_same s st : same_bookkeeping st (observe s st).
Proof.
  unfold observe. eapply same_bookkeeping_trans;
    [apply track_extrusion_same | apply track_temp_fan_same].
Qed.

Lemma insert_raw_out l st : out_lines (insert_raw l st) = out_lines st ++ [with_nl l].
Proof.
  unfold insert_raw, with_nl. destruct (ends_with_nl l); by rewrite observe_out.
Qed.

Lemma insert_raw_same l st : same_bookkeeping st (insert_raw l st).
Proof.
  unfold insert_raw. destruct (ends_with_nl l);
    (eapply same_bookkeeping_trans; [|apply observe_same]); by repeat split.
Qed.

Lemma insert_all_out tag gcs st :
  out_lines (insert_all tag gcs st)
  = out_lines st ++ map (fun gc => with_nl (gc ++ tag)) gcs.
Proof.
  unfold insert_all. revert st. induction gcs as [|gc gcs IH]; intros st; simpl.
  - by rewrite app_nil_r.
  - rewrite IH, insert_raw_out. by rewrite <- app_assoc.
Qed.

Lemma insert_all_same tag gcs st : same_bookkeeping st (insert_all tag gcs st).
Proof.
  unfold insert_all. revert st. induction gcs as [|gc gcs IH]; intros st; simpl.
  - apply same_bookkeeping_refl.
  - eapply same_bookkeeping_trans; [apply insert_raw_same | apply IH].
Qed.

Lemma insert_temp_out cfg t reason st :
  out_lines (insert_temp cfg t reason st) = out_lines st ++ [temp_line cfg t reason].
Proof.
  unfold insert_temp, temp_line. rewrite insert_raw_out.
  rewrite !app_assoc. rewrite with_nl_closing. by rewrite <- !app_assoc.
Qed.

Lemma insert_fan_pwm_out p reason st :
  out_lines (insert_fan_pwm p reason st) = out_lines st ++ [fan_line p reason].
Proof.
  unfold insert_fan_pwm, fan_line. rewrite insert_raw_out.
  rewrite !app_assoc. rewrite with_nl_closing. by rewrite <- !app_assoc.
Qed.

Lemma update_layer_out a b st :
  out_lines (update_layer_from_line a b st) = out_lines st.
Proof. unfold update_layer_from_line. by_cases. Qed.

Lemma apply_flow_out cfg l f st :
  out_lines (apply_flow_to_line cfg l f st).2 = out_lines st.
Proof. unfold apply_flow_to_line. by_cases. Qed.

(** ** Feature boundaries *)

Lemma insert_temp_same cfg t reason st :
  same_bookkeeping st (insert_temp cfg t reason st).
Proof. apply insert_raw_same. Qed.

Lemma insert_fan_pwm_same p reason st :
  same_bookkeeping st (insert_fan_pwm p reason st).
Proof. apply insert_raw_same. Qed.

Lemma emit_exit_out cfg st :
  out_lines (emit_exit cfg st) = out_lines st ++ exit_lines cfg st.
Proof.
  unfold emit_exit, exit_lines. destruct (prev_feature_canon st) as [prev|].
  - destruct (truthy prev); [apply insert_all_out | by rewrite app_nil_r].
  - by rewrite app_nil_r.
Qed.

Lemma emit_exit_same cfg st : same_bookkeeping st (emit_exit cfg st).
Proof.
  unfold emit_exit. destruct (prev_feature_canon st) as [prev|].
  - destruct (truthy prev); [apply insert_all_same | apply same_bookkeeping_refl].
  - apply same_bookkeeping_refl.
Qed.

Lemma restore_temp_same cfg new_temp st :
  same_bookkeeping st (restore_temp cfg new_temp st).
Proof.
  unfold restore_temp.
  destruct (prev_overrode_temp st), new_temp, (baseline_temp st);
    try apply same_bookkeeping_refl.
  apply (insert_temp_same cfg _ _ st).
Qed.

Lemma restore_temp_out cfg canon st s1 :
  same_bookkeeping st s1 ->
  out_lines (restore_temp cfg (feature_temps cfg !! canon) s1)
  = out_lines s1 ++ restore_temp_lines cfg canon st.
Proof.
  intros (_ & Hbt & _ & Hpt & _). unfold restore_temp, restore_temp_lines.
  rewrite Hbt, Hpt.
  destruct (prev_overrode_temp st), (feature_temps cfg !! canon), (baseline_temp st);
    simpl; rewrite ?app_nil_r; try done.
  apply insert_temp_out.
Qed.

Lemma restore_fan_out new_fan st s2 :
  same_bookkeeping st s2 ->
  out_lines (restore_fan new_fan s2) = out_lines s2 ++ restore_fan_lines new_fan st.
Proof.
  intros (_ & _ & Hbf & _ & Hpf & _). unfold restore_fan, restore_fan_lines.
  rewrite Hbf, Hpf.
  destruct (prev_overrode_fan st), new_fan, (baseline_fan_pwm st);
    simpl; rewrite ?app_nil_r; try done.
  apply insert_fan_pwm_out.
Qed.

Lemma override_temp_out cfg canon st :
  out_lines (override_temp cfg canon (feature_temps cfg !! canon) st)
  = out_lines st ++ set_temp_lines cfg canon.
Proof.
  unfold override_temp, set_temp_lines.
  destruct (feature_temps cfg !! canon); simpl;
    [apply insert_temp_out | by rewrite app_nil_r].
Qed.

Lemma override_fan_out canon new_fan st :
  out_lines (override_fan canon new_fan st) = out_lines st ++ set_fan_lines new_fan canon.
Proof.
  unfold override_fan, set_fan_lines.
  destruct new_fan; simpl; [apply insert_fan_pwm_out | by rewrite app_nil_r].
Qed.

(** A feature boundary raises only if the fan percentage cannot be
    rounded; otherwise it appends [boundary_block] and nothing else. *)
Lemma feature_boundary_out cfg canon st st' :
  feature_boundary cfg canon st = Ok st' ->
  exists new_fan,
    new_fan_pwm cfg canon = Ok new_fan
    /\ out_lines st' = out_lines st ++ boundary_block cfg canon new_fan st.
Proof.
  unfold feature_boundary. destruct (new_fan_pwm cfg canon) as [new_fan|e]; [|done].
  intros [= <-]. exists new_fan. split; [done|].
  pose proof (emit_exit_same cfg st) as H1.
  pose proof (same_bookkeeping_trans _ _ _ H1
                (restore_temp_same cfg (feature_temps cfg !! canon) _)) as H2.
  cbn [out_lines set_prev_feature_canon].
  rewrite override_fan_out, override_temp_out.
  unfold emit_enter. rewrite insert_all_out. fold (enter_lines cfg canon).
  unfold snapshot_baselines. cbn [out_lines set_baseline_fan_pwm set_baseline_temp].
  rewrite (restore_fan_out _ st _ H2), (restore_temp_out _ _ st _ H1), emit_exit_out.
  unfold boundary_block. by rewrite <- !app_assoc.
Qed.

Lemma feature_boundary_total cfg canon st new_fan :
  new_fan_pwm cfg canon = Ok new_fan ->
  exists st', feature_boundary cfg canon st = Ok st'.
Proof. unfold feature_boundary. intros ->. eauto. Qed.

(** ** One iteration of the main loop *)

Lemma apply_flow_kept cfg line f st : kept line (apply_flow_to_line cfg line f st).1.
Proof.
  unfold apply_flow_to_line, kept.
  destruct f as [f|]; [|by left].
  destruct (ltb _ _); [by left|].
  destruct (py_partition ";" line) as [[code_part sep] comment] eqn:Hp.
  destruct (is_match MOVE_RE code_part) eqn:Hm; simpl; [|by left].
  destruct (re_search E_WORD_RE code_part) as [m_e|] eqn:He; [|by left].
  destruct (of_str _) as [e_val|]; [|by left].
  destruct (leb _ _); [by left|].
  destruct (span1 m_e) as [start stop] eqn:Hs. simpl. right.
  rewrite <- !app_assoc.
  exists code_part, sep, comment, m_e. eexists. rewrite Hs. simpl.
  repeat split; done.
Qed.

Lemma flowed_fst cfg line st : (flowed cfg line st).1 = rewritten cfg line st.
Proof. unfold flowed, rewritten. by destruct (flow_factor _ _ _). Qed.

Lemma rewritten_kept cfg line st : kept line (rewritten cfg line st).
Proof.
  unfold rewritten. destruct (flow_factor _ _ _); [apply apply_flow_kept | by left].
Qed.

Lemma flowed_out cfg line st : out_lines (flowed cfg line st).2 = out_lines st.
Proof.
  unfold flowed. destruct (flow_factor _ _ _).
  - by rewrite apply_flow_out, update_layer_out.
  - apply update_layer_out.
Qed.

(** The iteration, with its two branches spelled out. *)
Lemma process_line_eq cfg line st :
  process_line cfg line st =
    let st1 := update_layer_from_line line (processed_line st) st in
    let skip := skip_active cfg st1 in
    let pl := (flowed cfg line st).1 in
    let st2 := (flowed cfg line st).2 in
    match re_match TYPE_PREFIX_RE pl with
    | Some m =>
        match match_canonical (group1 m pl) with
        | Some c =>
            if negb skip && truthy c
            then feature_boundary cfg c (marker_state pl (Some c) st2)
            else Ok (set_prev_feature_canon (Some c) (marker_state pl (Some c) st2))
        | None => Ok (set_prev_feature_canon None (marker_state pl None st2))
        end
    | None =>
        Ok (update_layer_from_line line pl
              (observe (rstrip_nl pl) (append_out pl (set_processed_line pl st2))))
    end.
Proof.
  unfold process_line, flowed, marker_state. cbv zeta.
  destruct (flow_factor _ _ _) as [f|].
  - destruct (apply_flow_to_line _ _ _ _) as [pl st2]. cbn [fst snd].
    destruct (re_match TYPE_PREFIX_RE pl); [|done].
    by destruct (match_canonical _).
  - cbn [fst snd]. destruct (re_match TYPE_PREFIX_RE line); [|done].
    by destruct (match_canonical _).
Qed.

Lemma marker_state_out pl canon st :
  out_lines (marker_state pl canon st) = out_lines st ++ [pl].
Proof. unfold marker_state. simpl. by destruct (_ <? _). Qed.

Lemma boundary_block_ext cfg canon new_fan st st' :
  prev_feature_canon st' = prev_feature_canon st ->
  prev_overrode_temp st' = prev_overrode_temp st ->
  prev_overrode_fan st' = prev_overrode_fan st ->
  baseline_temp st' = baseline_temp st ->
  baseline_fan_pwm st' = baseline_fan_pwm st ->
  boundary_block cfg canon new_fan st' = boundary_block cfg canon new_fan st.
Proof.
  intros H1 H2 H3 H4 H5.
  unfold boundary_block, exit_lines, restore_temp_lines, restore_fan_lines.
  by rewrite H1, H2, H3, H4, H5.
Qed.

Lemma update_layer_overrides a b st :
  same_overrides st (update_layer_from_line a b st).
Proof. unfold update_layer_from_line. by_cases; by repeat split. Qed.

Lemma apply_flow_overrides cfg l f st :
  same_overrides st (apply_flow_to_line cfg l f st).2.
Proof. unfold apply_flow_to_line. by_cases; by repeat split. Qed.

Lemma same_overrides_trans a b c :
  same_overrides a b -> same_overrides b c -> same_overrides a c.
Proof.
  unfold same_overrides. intros (?&?&?&?&?&?&?) (?&?&?&?&?&?&?).
  repeat split; congruence.
Qed.

Lemma flowed_overrides cfg line st : same_overrides st (flowed cfg line st).2.
Proof.
  unfold flowed. destruct (flow_factor _ _ _).
  - eapply same_overrides_trans;
      [apply update_layer_overrides | apply apply_flow_overrides].
  - apply update_layer_overrides.
Qed.

Lemma marker_state_overrides pl canon st :
  same_overrides st (marker_state pl canon st).
Proof. unfold marker_state. simpl. destruct (_ <? _); by repeat split. Qed.

Lemma flowed_marker cfg line st m :
  re_match TYPE_PREFIX_RE line = Some m ->
  flowed cfg line st
  = (line, update_layer_from_line line (processed_line st) st).
Proof.
  intros H. unfold flowed. destruct (flow_factor _ _ _); [|done].
  by rewrite (apply_flow_marker _ _ m).
Qed.

(** What an iteration on a feature marker does: the marker is appended as
    it is, and then either nothing or the block of a feature boundary, built
    from the state the iteration started in. *)
Lemma process_line_marker cfg line st st' m :
  re_match TYPE_PREFIX_RE line = Some m ->
  process_line cfg line st = Ok st' ->
  let st1 := update_layer_from_line line (processed_line st) st in
  match match_canonical (group1 m line) with
  | Some c =>
      if negb (skip_active cfg st1) && truthy c then
        exists new_fan,
          new_fan_pwm cfg c = Ok new_fan
          /\ out_lines st' = out_lines st ++ line :: boundary_block cfg c new_fan st
      else out_lines st' = out_lines st ++ [line]
             /\ prev_feature_canon st' = Some c
  | None => out_lines st' = out_lines st ++ [line] /\ prev_feature_canon st' = None
  end.
Proof.
  intros Hm. rewrite process_line_eq. cbv zeta. rewrite (flowed_marker _ _ _ m Hm).
  cbn [fst snd]. rewrite Hm.
  destruct (match_canonical (group1 m line)) as [c|].
  - destruct (negb _ && truthy c).
    + intros (new_fan & Hf & Hout)%feature_boundary_out. exists new_fan.
      split; [done|]. rewrite Hout, marker_state_out, update_layer_out.
      rewrite <- app_assoc. simpl. do 2 f_equal.
      pose proof (same_overrides_trans _ _ _
        (update_layer_overrides line (processed_line st) st)
        (marker_state_overrides line (Some c) _)) as (?&?&?&?&?&_).
      by apply boundary_block_ext.
    + intros [= <-]. cbn [out_lines prev_feature_canon set_prev_feature_canon].
      by rewrite marker_state_out, update_layer_out.
  - intros [= <-]. cbn [out_lines prev_feature_canon set_prev_feature_canon].
    by rewrite marker_state_out, update_layer_out.
Qed.

(** An iteration that takes the feature-boundary branch appends the output
    line and the block of the boundary. *)
Lemma process_line_fires cfg line st st' :
  fires_boundary cfg line st = true ->
  process_line cfg line st = Ok st' ->
  exists c new_fan,
    new_fan_pwm cfg c = Ok new_fan
    /\ out_lines st' = out_lines st ++ rewritten cfg line st
                       :: boundary_block cfg c new_fan st.
Proof.
  unfold fires_boundary. rewrite process_line_eq. cbv zeta.
  rewrite flowed_fst.
  destruct (re_match TYPE_PREFIX_RE _) as [m|]; [|done].
  destruct (match_canonical _) as [c|]; [|done].
  intros ->. intros (new_fan & Hf & Hout)%feature_boundary_out.
  exists c, new_fan. split; [done|].
  rewrite Hout, marker_state_out, flowed_out, <- app_assoc. simpl. do 2 f_equal.
  pose proof (same_overrides_trans _ _ _ (flowed_overrides cfg line st)
    (marker_state_overrides (rewritten cfg line st) (Some c) _)) as (?&?&?&?&?&_).
  by apply boundary_block_ext.
Qed.

(** Any other iteration appends the output line and nothing else, and it
    cannot raise. *)
Lemma process_line_quiet cfg line st :
  fires_boundary cfg line st = false ->
  exists st',
    process_line cfg line st = Ok st'
    /\ out_lines st' = out_lines st ++ [rewritten cfg line st].
Proof.
  unfold fires_boundary. rewrite process_line_eq. cbv zeta.
  rewrite flowed_fst.
  destruct (re_match TYPE_PREFIX_RE _) as [m|].
  - destruct (match_canonical _) as [c|].
    + intros ->. eexists. split; [done|].
      cbn [out_lines set_prev_feature_canon].
      by rewrite marker_state_out, flowed_out.
    + intros _. eexists. split; [done|].
      cbn [out_lines set_prev_feature_canon].
      by rewrite marker_state_out, flowed_out.
  - intros _. eexists. split; [done|].
    rewrite update_layer_out, observe_out. cbn [out_lines append_out set_processed_line].
    by rewrite flowed_out.
Qed.

(** Every iteration that ends appends the output line first. *)
Lemma process_line_out cfg line st st' :
  process_line cfg line st = Ok st' ->
  exists inj, out_lines st' = out_lines st ++ rewritten cfg line st :: inj.
Proof.
  intros H. destruct (fires_boundary cfg line st) eqn:Hf.
  - destruct (process_line_fires _ _ _ _ Hf H) as (c & nf & _ & ->). eauto.
  - destruct (process_line_quiet _ _ _ Hf) as (st2 & H2 & Hout).
    rewrite H in H2. injection H2 as <-. eauto.
Qed.

(** ** The main loop *)

Lemma main_loop_out cfg lines : forall st st',
  main_loop cfg lines st = Ok st' ->
  exists blocks,
    out_lines st' = out_lines st ++ concat blocks
    /\ Forall2 (fun line block => exists pl inj, block = pl :: inj /\ kept line pl)
         lines blocks.
Proof.
  induction lines as [|line lines IH]; intros st st'; simpl.
  - intros [= <-]. exists []. by rewrite app_nil_r.
  - destruct (process_line cfg line st) as [st1|e] eqn:H1; [|done].
    intros H2. destruct (process_line_out _ _ _ _ H1) as (inj & Hout1).
    destruct (IH _ _ H2) as (blocks & Hout2 & Hall).
    exists ((rewritten cfg line st :: inj) :: blocks). split.
    + rewrite Hout2, Hout1. simpl. by rewrite <- app_assoc.
    + constructor; [|done]. eexists _, _. split; [done|]. apply rewritten_kept.
Qed.


(** ** Injected fan commands and the tracked temperature *)

Lemma temp_re_not_fan x : re_match TEMP_CMD_RE (chars "M106 S" ++ x) = None.
Proof. reflexivity. Qed.

Lemma track_extrusion_temp s st :
  current_temp (track_extrusion s st) = current_temp st
  /\ current_fan_pwm (track_extrusion s st) = current_fan_pwm st.
Proof. unfold track_extrusion. by_cases; done. Qed.

Lemma closing_no_nl s : ends_with_nl (s ++ chars ")") = false.
Proof. change (chars ")") with [Latin ")"]. by rewrite ends_with_nl_app. Qed.

Lemma insert_fan_pwm_temp p reason st :
  current_temp (insert_fan_pwm p reason st) = current_temp st.
Proof.
  unfold insert_fan_pwm, insert_raw.
  rewrite !app_assoc, closing_no_nl. rewrite <- !app_assoc. unfold observe, track_temp_fan.
  rewrite temp_re_not_fan.
  repeat case_match; cbn [current_temp set_current_fan_pwm];
    by rewrite (proj1 (track_extrusion_temp _ _)).
Qed.

Lemma restore_fan_temp new_fan st :
  current_temp (restore_fan new_fan st) = current_temp st.
Proof.
  unfold restore_fan.
  destruct (prev_overrode_fan st), new_fan, (baseline_fan_pwm st); try done.
  cbn [current_temp set_current_fan_pwm]. apply insert_fan_pwm_temp.
Qed.

(** After the snapshot nothing changes the baselines. *)
Lemma boundary_tail_baselines cfg canon new_temp new_fan st :
  let st' := override_fan canon new_fan
               (override_temp cfg canon new_temp (emit_enter cfg canon st)) in
  baseline_temp st' = baseline_temp st
  /\ baseline_fan_pwm st' = baseline_fan_pwm st.
Proof.
  cbv zeta.
  pose proof (insert_all_same (chars " ; enter " ++ canon)
                (default [] (feature_gcode_enter cfg !! canon)) st)
    as (_ & Ht1 & Hf1 & _).
  fold (emit_enter cfg canon st) in Ht1, Hf1.
  set (s1 := emit_enter cfg canon st) in *.
  assert (baseline_temp (override_temp cfg canon new_temp s1) = baseline_temp s1
          /\ baseline_fan_pwm (override_temp cfg canon new_temp s1)
             = baseline_fan_pwm s1) as [Ht2 Hf2].
  { unfold override_temp. destruct new_temp as [t|]; [|done].
    pose proof (insert_temp_same cfg t canon s1) as (_ & ? & ? & _). done. }
  set (s2 := override_temp cfg canon new_temp s1) in *.
  unfold override_fan. destruct new_fan as [p|].
  - pose proof (insert_fan_pwm_same p canon s2) as (_ & ? & ? & _).
    cbn [baseline_temp baseline_fan_pwm set_prev_overrode_fan set_current_fan_pwm].
    split; congruence.
  - cbn [baseline_temp baseline_fan_pwm set_prev_overrode_fan]. split; congruence.
Qed.


Lemma flow_factor_skipped cfg st : flow_factor cfg true st = None.
Proof.
  unfold flow_factor. destruct (current_feature_canon st); [|done].
  by rewrite andb_false_r.
Qed.


Lemma observe_overrides_prev s st :
  prev_feature_canon (observe s st) = prev_feature_canon st.
Proof. by pose proof (observe_same s st) as (_&_&_&_&_&?&_). Qed.



(** ** Float comparisons *)

Lemma SFcompare_antisym x y :
  SFcompare y x = option_map CompOpp (SFcompare x y).
Proof.
  destruct x as [sx|sx| |sx mx ex], y as [sy|sy| |sy my ey]; simpl;
    try destruct sx; try destruct sy; try reflexivity.
  - rewrite (Z.compare_antisym ex ey). destruct (ex ?= ey); simpl; try done.
    do 2 f_equal. symmetry. exact (Pos.compare_cont_antisym mx my Eq).
  - rewrite (Z.compare_antisym ex ey). destruct (ex ?= ey); simpl; try done.
    f_equal. symmetry. exact (Pos.compare_cont_antisym mx my Eq).
Qed.

(** [x < y] excludes [y < x] and [y <= x]. *)
Lemma ltb_asym x y : ltb x y = true -> ltb y x = false /\ leb y x = false.
Proof.
  unfold ltb, leb, SFltb, SFleb. rewrite (SFcompare_antisym x y).
  by destruct (SFcompare x y) as [[]|].
Qed.

Lemma py_partition_no_sep sep s a r : py_partition sep s = (a, [], r) -> r = [].
Proof.
  revert a. induction s as [|c s IH]; intros a; simpl.
  - by intros [= _ <-].
  - destruct (char_eqb c sep); [done|].
    destruct (py_partition sep s) as [[a' b'] r'].
    intros [= _ -> ->]. by apply (IH a').
Qed.


(** ** The shape of a formatted extrusion value *)

Lemma rstrip_by_snoc p s c :
  rstrip_by p (s ++ [c]) = if p c then rstrip_by p s else s ++ [c].
Proof.
  unfold rstrip_by. rewrite rev_app_distr. simpl.
  destruct (p c); [done|]. simpl. by rewrite rev_involutive.
Qed.

Lemma rstrip_by_nil p : rstrip_by p [] = [].
Proof. done. Qed.

(** Stripping stops at a character outside the set. *)
Lemma rstrip_by_stop p a x b :
  p x = false -> rstrip_by p (a ++ x :: b) = a ++ x :: rstrip_by p b.
Proof.
  intros Hx. induction b as [|c b IH] using rev_ind.
  - by rewrite rstrip_by_snoc, Hx.
  - change (a ++ x :: b ++ [c]) with (a ++ (x :: b) ++ [c]).
    rewrite app_assoc, !rstrip_by_snoc. destruct (p c); [done|].
    by rewrite <- app_assoc.
Qed.

(** What is left is a prefix, and it does not end in the set. *)
Lemma rstrip_by_spec p s :
  (exists t, s = rstrip_by p s ++ t)
  /\ (rstrip_by p s = []
      \/ exists s0 c, rstrip_by p s = s0 ++ [c] /\ p c = false).
Proof.
  induction s as [|c s [[t Ht] IH]] using rev_ind.
  - split; [by exists [] | by left].
  - rewrite rstrip_by_snoc. destruct (p c) eqn:Hc.
    + split; [|done]. exists (t ++ [c]). by rewrite app_assoc, <- Ht.
    + split; [exists []; by rewrite app_nil_r | right; eauto].
Qed.

Lemma rstrip_by_none p s :
  forallb (fun c => negb (p c)) s = true -> rstrip_by p s = s.
Proof.
  induction s as [|c s IH] using rev_ind; [done|].
  rewrite forallb_app. simpl. rewrite andb_true_r.
  intros [Hs Hc]%andb_true_iff. rewrite rstrip_by_snoc.
  by apply negb_true_iff in Hc as ->.
Qed.

Lemma uint_digits d : forallb is_digit (chars (NilEmpty.string_of_uint d)) = true.
Proof. induction d; simpl; try done. Qed.

Lemma str_of_Z_digits n : 0 <= n -> forallb is_digit (str_of_Z n) = true.
Proof.
  intros Hn. unfold str_of_Z. destruct n as [|p|p]; [done| |lia].
  simpl. destruct (Pos.to_uint p) eqn:E; try apply uint_digits. done.
Qed.

Lemma div_half_even_nonneg n d : 0 <= n -> 0 < d -> 0 <= div_half_even n d.
Proof.
  intros Hn Hd. unfold div_half_even.
  assert (0 <= n / d) by (apply Z.div_pos; lia).
  destruct (2 * (n mod d) ?= d); [destruct (Z.even _)| |]; lia.
Qed.

Lemma scale_pos (b : bool) (x : Z) : 0 < x -> 0 < (if b then x else 1).
Proof. destruct b; lia. Qed.

Lemma scaled_magnitude_nonneg m e k : 0 <= scaled_magnitude m e k.
Proof.
  unfold scaled_magnitude.
  assert (H2 : forall z, 0 < 2 ^ Z.abs z) by (intros; apply Z.pow_pos_nonneg; lia).
  assert (H10 : forall z, 0 < 10 ^ Z.abs z) by (intros; apply Z.pow_pos_nonneg; lia).
  apply div_half_even_nonneg.
  - apply Z.lt_le_incl. repeat apply Z.mul_pos_pos; [lia| |].
    + destruct (0 <=? e) eqn:E; [|lia]. apply Z.leb_le in E.
      specialize (H2 e). by rewrite Z.abs_eq in H2.
    + destruct (0 <=? k) eqn:E; [|lia]. apply Z.leb_le in E.
      specialize (H10 k). by rewrite Z.abs_eq in H10.
  - apply Z.mul_pos_pos.
    + destruct (0 <=? e) eqn:E; [lia|]. apply Z.leb_gt in E.
      specialize (H2 (- e)). rewrite Z.abs_eq in H2; lia.
    + destruct (0 <=? k) eqn:E; [lia|]. apply Z.leb_gt in E.
      specialize (H10 (- k)). rewrite Z.abs_eq in H10; lia.
Qed.

Lemma digit_not_dot c : is_digit c = true -> char_eqb "." c = false.
Proof. destruct c as [[[] [] [] [] [] [] [] []]| |? ? ? ?]; vm_compute; congruence. Qed.

Lemma digits_no_dot s :
  forallb is_digit s = true -> existsb (char_eqb ".") s = false.
Proof.
  induction s as [|c s IH]; cbn [existsb forallb]; [done|].
  intros [Hc Hs]%andb_true_iff. by rewrite (digit_not_dot _ Hc), IH.
Qed.

Lemma no_dot_rstrip s :
  existsb (char_eqb ".") s = false -> rstrip_by (char_eqb ".") s = s.
Proof.
  intros H. apply rstrip_by_none.
  induction s as [|c s IH]; cbn [existsb forallb] in *; [done|].
  apply orb_false_iff in H as [-> Hs]. by rewrite IH.
Qed.

Lemma zeros_digits n : forallb is_digit (zeros n) = true.
Proof. induction n as [|n IH]; [done|]. exact IH. Qed.

(** The digits [fixed_digits] produces: digits only when [d = 0], else a
    non-empty run of digits, a point and exactly [d] digits. *)
Lemma fixed_digits_shape n d :
  0 <= n ->
  exists a b,
    fixed_digits n d = a ++ (match d with O => [] | _ => Latin "." :: b end)
    /\ forallb is_digit a = true /\ a <> []
    /\ forallb is_digit b = true /\ length b = d.
Proof.
  intros Hn. unfold fixed_digits.
  set (ds := str_of_Z n). set (padded := zeros (S d - length ds) ++ ds).
  assert (Hdig : forallb is_digit padded = true).
  { subst padded. rewrite forallb_app, zeros_digits. by apply str_of_Z_digits. }
  assert (Hlen : (S d <= length padded)%nat).
  { subst padded. rewrite length_app. unfold zeros. rewrite repeat_length. lia. }
  exists (firstn (length padded - d) padded), (skipn (length padded - d) padded).
  rewrite <- (firstn_skipn (length padded - d) padded) in Hdig.
  rewrite forallb_app in Hdig. apply andb_true_iff in Hdig as [Ha Hb].
  split; [|split; [done|split; [|split; [done|]]]].
  - destruct d; [|done]. rewrite Nat.sub_0_r, firstn_all. by rewrite app_nil_r.
  - intros H. apply (f_equal (@length char)) in H.
    rewrite length_firstn in H. simpl in H. lia.
  - rewrite length_skipn. lia.
Qed.

Lemma sign_no_dot s a :
  forallb is_digit a = true -> existsb (char_eqb ".") (sign_str s ++ a) = false.
Proof.
  intros Ha. rewrite existsb_app, (digits_no_dot _ Ha). by destruct s.
Qed.

(** The formatted value is a numeral without trailing zeros, and without a
    point when no digit is left after it. *)
Lemma fmt_float_signed s n d :
  0 <= n -> trimmed_decimal d
              (let t := sign_str s ++ fixed_digits n d in
               let t := if existsb (char_eqb ".") t
                        then rstrip_by (char_eqb ".") (rstrip_by (char_eqb "0") t)
                        else t in
               if truthy t then t else chars "0").
Proof.
  intros Hn. destruct (fixed_digits_shape n d Hn) as (a & b & -> & Ha & Hne & Hb & Hlen).
  assert (Htr : truthy (sign_str s ++ a) = true).
  { destruct s, a; done. }
  cbv zeta. destruct d as [|d].
  - rewrite app_nil_r, (sign_no_dot _ _ Ha), Htr.
    exists (sign_str s ++ a), []. rewrite app_nil_r.
    split; [done|]. split; [by apply sign_no_dot | by left].
  - rewrite app_assoc.
    assert (Hdot : existsb (char_eqb ".") ((sign_str s ++ a) ++ Latin "." :: b) = true).
    { rewrite existsb_app. simpl. by rewrite orb_true_r. }
    rewrite Hdot, rstrip_by_stop by done.
    destruct (rstrip_by_spec (char_eqb "0") b) as [[t Ht] [H0|(b0 & c & Hb0 & Hc)]].
    + rewrite H0.
      rewrite rstrip_by_snoc.
      change (char_eqb "." ".") with true. cbv iota.
      rewrite (no_dot_rstrip _ (sign_no_dot _ _ Ha)), Htr.
      exists (sign_str s ++ a), []. rewrite app_nil_r.
      split; [done|]. split; [by apply sign_no_dot | by left].
    + rewrite Hb0 in Ht |- *.
      assert (Hd : forallb is_digit (b0 ++ [c]) = true).
      { rewrite Ht, forallb_app in Hb. by apply andb_true_iff in Hb as [? _]. }
      assert (Hcd : is_digit c = true).
      { rewrite forallb_app in Hd. apply andb_true_iff in Hd as [_ Hd].
        simpl in Hd. by rewrite andb_true_r in Hd. }
      change ((sign_str s ++ a) ++ Latin "." :: b0 ++ [c])
        with ((sign_str s ++ a) ++ (Latin "." :: b0) ++ [c]).
      rewrite app_assoc, rstrip_by_snoc, (digit_not_dot _ Hcd).
      assert (Ht2 : truthy (((sign_str s ++ a) ++ Latin "." :: b0) ++ [c]) = true).
      { by destruct ((sign_str s ++ a) ++ Latin "." :: b0). }
      rewrite Ht2. exists (sign_str s ++ a), (Latin "." :: b0 ++ [c]).
      split; [by rewrite <- app_assoc|]. split; [by apply sign_no_dot|].
      right. exists b0, c. split; [done|]. split; [done|]. split.
      * rewrite <- Hlen, Ht, !length_app. simpl. lia.
      * intros ->. done.
Qed.

Lemma fmt_float_trimmed v d : trimmed_decimal d (fmt_float v d).
Proof.
  unfold fmt_float. destruct v as [s|s| |s m e].
  - apply (fmt_float_signed s 0 d). lia.
  - exists (sign_str s ++ chars "inf"), []. rewrite app_nil_r.
    split; [by destruct s|]. split; [by destruct s | by left].
  - exists (chars "nan"), []. split; [done|]. split; [done | by left].
  - apply (fmt_float_signed s _ d), scaled_magnitude_nonneg.
Qed.


(** ** Layer-change markers *)

Lemma layer_change_unfold s :
  is_match LAYER_CHANGE_RE s = true ->
  exists n c s1,
    drop_while is_space s = Latin ";" :: c :: s1
    /\ match
         match run (LitI "BEFORE_")
                 (run (Seq [LitI "LAYER_CHANGE"; WordB]) accept)
                 (Some (Latin ";")) n (c :: s1) None with
         | Some m => Some m
         | None => run (Seq [LitI "LAYER_CHANGE"; WordB]) accept
                     (Some (Latin ";")) n (c :: s1) None
         end
       with Some _ => true | None => false end = true.
Proof.
  unfold is_match, LAYER_CHANGE_RE. unfold Seq at 1. cbn [fold_right].
  rewrite re_match_head by apply space_not_semicolon.
  destruct (drop_while is_space s) as [|c0 s0]; [done|].
  destruct (only ";" c0) eqn:Hc; [|done]. apply only_eq in Hc as ->.
  intros H. exists (S (length (take_while is_space s))).
  destruct s0 as [|c s1].
  - by vm_compute in H.
  - exists c, s1. split; [done|]. exact H.
Qed.

Ltac step_match H :=
  lazymatch type of H with
  | (match ?s with [] => _ | _ :: _ => _ end) = Some _ =>
      destruct s as [|? ?]; [discriminate H|]
  | (if ?b then _ else _) = Some _ =>
      let E := fresh "E" in destruct b eqn:E; [|discriminate H]
  end.

Lemma ci_B_facts c :
  ci "B" c = true -> is_space c = false /\ ci "T" c = false /\ ci "L" c = false.
Proof. destruct c as [[[] [] [] [] [] [] [] []]| |? ? ? ?]; vm_compute; intros; try done. Qed.

Lemma ci_L_facts c :
  ci "L" c = true -> is_space c = false /\ ci "T" c = false.
Proof. destruct c as [[[] [] [] [] [] [] [] []]| |? ? ? ?]; vm_compute; intros; try done. Qed.

Lemma ci_underscore_facts c :
  ci "_" c = true -> is_space c = false /\ only ":" c = false.
Proof. destruct c as [[[] [] [] [] [] [] [] []]| |? ? ? ?]; vm_compute; intros; try done. Qed.

(** A layer-change marker starts, after white space and the semicolon,
    with [B], or with [LAYER_]. *)
Lemma layer_change_shape s :
  is_match LAYER_CHANGE_RE s = true ->
  exists c s1,
    drop_while is_space s = Latin ";" :: c :: s1
    /\ (ci "B" c = true
        \/ exists c2 c3 c4 c5 c6 s2,
             s1 = c2 :: c3 :: c4 :: c5 :: c6 :: s2
             /\ ci "L" c = true /\ ci "A" c2 = true /\ ci "Y" c3 = true
             /\ ci "E" c4 = true /\ ci "R" c5 = true /\ ci "_" c6 = true).
Proof.
  intros (n & c & s1 & Hd & H)%layer_change_unfold.
  exists c, s1. split; [done|].
  destruct (run (LitI "BEFORE_") _ _ _ _ _) as [m|] eqn:H1.
  - left. unfold LitI, Seq in H1. cbn [fold_right map chars list_ascii_of_string run] in H1.
    by step_match H1.
  - right. destruct (run (Seq _) _ _ _ _ _) as [m|] eqn:H2; [|done].
    unfold LitI, Seq in H2. cbn [fold_right map chars list_ascii_of_string run] in H2.
    do 6 (step_match H2; try step_match H2).
    by eexists _, _, _, _, _, _.
Qed.

Lemma drop_while_head p c s : p c = false -> drop_while p (c :: s) = c :: s.
Proof. intros H. simpl. by rewrite H. Qed.

Lemma layer_change_not_type s :
  is_match LAYER_CHANGE_RE s = true -> re_match TYPE_PREFIX_RE s = None.
Proof.
  intros (c & s1 & Hd & Hc)%layer_change_shape.
  unfold TYPE_PREFIX_RE. unfold Seq at 1. cbn [fold_right].
  rewrite re_match_head by apply space_not_semicolon. rewrite Hd.
  change (only ";" ";") with true. cbv iota.
  assert (Hc' : is_space c = false /\ ci "T" c = false).
  { destruct Hc as [Hb|(?&?&?&?&?&?&_&Hl&_)].
    - by apply ci_B_facts in Hb as (?&?&_).
    - by apply ci_L_facts in Hl. }
  destruct Hc' as [Hs Ht].
  unfold LitI, Seq. cbn [fold_right map chars list_ascii_of_string run].
  rewrite star_commit.
  - rewrite (drop_while_head _ _ _ Hs). by rewrite Ht.
  - intros c' s' prev' pos' Hsp.
    destruct c' as [[[] [] [] [] [] [] [] []]| |? ? ? ?]; vm_compute in Hsp; try done.
Qed.

Lemma layer_change_not_index s :
  is_match LAYER_CHANGE_RE s = true -> layer_marker s = None.
Proof.
  intros (c & s1 & Hd & Hc)%layer_change_shape.
  unfold layer_marker.
  assert (Hnum : re_match LAYER_NUM_RE s = None).
  { unfold LAYER_NUM_RE. unfold Seq at 1. cbn [fold_right].
    rewrite re_match_head by apply space_not_semicolon. rewrite Hd.
    change (only ";" ";") with true. cbv iota.
    unfold LitI, Seq. cbn [fold_right map chars list_ascii_of_string run].
    destruct Hc as [Hb|(c2&c3&c4&c5&c6&s2&->&Hl&Ha&Hy&He&Hr&Hu)].
    - apply ci_B_facts in Hb as (_&_&Hb). by rewrite Hb.
    - rewrite Hl, Ha, Hy, He, Hr. apply ci_underscore_facts in Hu as [_ Hu].
      by rewrite Hu. }
  rewrite Hnum.
  unfold LAYER_WORD_RE. unfold Seq at 1. cbn [fold_right].
  rewrite re_match_head by apply space_not_semicolon. rewrite Hd.
  change (only ";" ";") with true. cbv iota.
  unfold LitI, Plus, Seq. cbn [fold_right map chars list_ascii_of_string run].
  rewrite star_commit.
  - destruct Hc as [Hb|(c2&c3&c4&c5&c6&s2&->&Hl&Ha&Hy&He&Hr&Hu)].
    + apply ci_B_facts in Hb as (Hs&_&Hb). rewrite (drop_while_head _ _ _ Hs).
      change (ci "l" c) with (ci "L" c). by rewrite Hb.
    + pose proof (ci_L_facts _ Hl) as [Hs _]. rewrite (drop_while_head _ _ _ Hs).
      change (ci "l" c) with (ci "L" c). change (ci "a" c2) with (ci "A" c2).
      change (ci "y" c3) with (ci "Y" c3). change (ci "e" c4) with (ci "E" c4).
      change (ci "r" c5) with (ci "R" c5).
      rewrite Hl, Ha, Hy, He, Hr. apply ci_underscore_facts in Hu as [Hu _].
      by rewrite Hu.
  - intros c' s' prev' pos' Hsp.
    destruct c' as [[[] [] [] [] [] [] [] []]| |? ? ? ?]; vm_compute in Hsp; try done.
Qed.

Lemma update_layer_on_change s processed st :
  is_match LAYER_CHANGE_RE s = true ->
  update_layer_from_line s processed st
  = set_current_feature_canon None
      (set_current_layer (next_layer (current_layer st)) st).
Proof.
  intros H. unfold update_layer_from_line.
  by rewrite (layer_change_not_index _ H), H.
Qed.


Lemma last_nonempty (a : str) (t : list str) (d1 d2 : str) :
  List.last (a :: t) d1 = List.last (a :: t) d2.
Proof. revert a. induction t as [|b t IH]; intros a; [done|]. apply (IH b). Qed.

Lemma first_loop_last lines st :
  processed_line (first_loop lines st) = List.last lines (processed_line st).
Proof.
  unfold first_loop. revert st. induction lines as [|l lines IH]; intros st; [done|].
  cbn [fold_left]. rewrite IH. cbn [processed_line set_processed_line].
  destruct lines as [|l0 lines]; [done|].
  transitivity (List.last (l0 :: lines) (processed_line st));
    [apply last_nonempty | done].
Qed.

(** * More lemmas *)

(** ** What a feature boundary leaves behind *)

Lemma insert_all_nil tag st : insert_all tag [] st = st.
Proof. done. Qed.

(** The flags and the feature names after a feature boundary. *)
Lemma feature_boundary_flags cfg canon st st' :
  feature_boundary cfg canon st = Ok st' ->
  exists new_fan,
    new_fan_pwm cfg canon = Ok new_fan
    /\ prev_overrode_temp st' = bool_decide (is_Some (feature_temps cfg !! canon))
    /\ prev_overrode_fan st' = bool_decide (is_Some new_fan)
    /\ prev_feature_canon st' = Some canon
    /\ current_feature_canon st' = current_feature_canon st
    /\ current_layer st' = current_layer st
    /\ last_z st' = last_z st
    /\ processed_line st' = processed_line st.
Proof.
  unfold feature_boundary.
  destruct (new_fan_pwm cfg canon) as [new_fan|e]; [|done].
  intros [= <-]. exists new_fan. split; [done|].
  set (s1 := emit_exit cfg st).
  set (s2 := restore_temp cfg _ s1). set (s3 := restore_fan new_fan s2).
  set (s4 := snapshot_baselines s3). set (s5 := emit_enter cfg canon s4).
  set (s6 := override_temp cfg canon _ s5).
  assert (H1 : same_bookkeeping st s1) by apply emit_exit_same.
  assert (H2 : same_bookkeeping s1 s2) by apply restore_temp_same.
  assert (H3 : same_bookkeeping s2 s3).
  { subst s3. unfold restore_fan.
    destruct (prev_overrode_fan s2), new_fan, (baseline_fan_pwm s2);
      try apply same_bookkeeping_refl.
    apply (insert_fan_pwm_same _ _ s2). }
  assert (H5 : same_bookkeeping s4 s5) by apply insert_all_same.
  assert (H4 : last_z s4 = last_z s3
               /\ prev_feature_canon s4 = prev_feature_canon s3
               /\ current_feature_canon s4 = current_feature_canon s3
               /\ current_layer s4 = current_layer s3
               /\ processed_line s4 = processed_line s3) by done.
  assert (H6 : prev_overrode_temp s6
               = bool_decide (is_Some (feature_temps cfg !! canon))
               /\ last_z s6 = last_z s5
               /\ prev_overrode_fan s6 = prev_overrode_fan s5
               /\ current_feature_canon s6 = current_feature_canon s5
               /\ current_layer s6 = current_layer s5
               /\ processed_line s6 = processed_line s5).
  { subst s6. unfold override_temp. destruct (feature_temps cfg !! canon) as [t|].
    - pose proof (insert_temp_same cfg t canon s5) as (?&?&?&?&?&?&?&?&?).
      rewrite bool_decide_eq_true_2 by eauto. done.
    - rewrite bool_decide_eq_false_2 by (by intros [? ?]). done. }
  assert (H7 : prev_overrode_fan (override_fan canon new_fan s6)
               = bool_decide (is_Some new_fan)
               /\ last_z (override_fan canon new_fan s6) = last_z s6
               /\ prev_overrode_temp (override_fan canon new_fan s6)
                  = prev_overrode_temp s6
               /\ current_feature_canon (override_fan canon new_fan s6)
                  = current_feature_canon s6
               /\ current_layer (override_fan canon new_fan s6) = current_layer s6
               /\ processed_line (override_fan canon new_fan s6)
                  = processed_line s6).
  { unfold override_fan. destruct new_fan as [p|].
    - pose proof (insert_fan_pwm_same p canon s6) as (?&?&?&?&?&?&?&?&?).
      rewrite bool_decide_eq_true_2 by eauto. done.
    - rewrite bool_decide_eq_false_2 by (by intros [? ?]). done. }
  cbn [prev_overrode_temp prev_overrode_fan prev_feature_canon
       current_feature_canon current_layer last_z processed_line
       set_prev_feature_canon].
  destruct H1 as (?&?&?&?&?&?&?&?&?), H2 as (?&?&?&?&?&?&?&?&?),
    H3 as (?&?&?&?&?&?&?&?&?), H5 as (?&?&?&?&?&?&?&?&?),
    H4 as (?&?&?&?&?), H6 as (?&?&?&?&?&?), H7 as (?&?&?&?&?&?).
  repeat split; congruence.
Qed.

(** An iteration that takes no feature boundary leaves the overrides and
    the baselines as they are. *)
Lemma process_line_quiet_overrides cfg l st st' :
  fires_boundary cfg l st = false ->
  process_line cfg l st = Ok st' ->
  prev_overrode_temp st' = prev_overrode_temp st
  /\ prev_overrode_fan st' = prev_overrode_fan st
  /\ baseline_temp st' = baseline_temp st
  /\ baseline_fan_pwm st' = baseline_fan_pwm st.
Proof.
  unfold fires_boundary. rewrite process_line_eq. cbv zeta. rewrite flowed_fst.
  pose proof (flowed_overrides cfg l st) as Hf. revert Hf.
  generalize (rewritten cfg l st) as pl, (flowed cfg l st).2 as st2.
  generalize (skip_active cfg (update_layer_from_line l (processed_line st) st)) as skip.
  intros skip pl st2 Hf.
  assert (Hm : forall canon, same_overrides st (marker_state pl canon st2)).
  { intros canon. eapply same_overrides_trans; [exact Hf|].
    apply marker_state_overrides. }
  assert (Hgoal : forall s, same_overrides st s ->
    prev_overrode_temp s = prev_overrode_temp st
    /\ prev_overrode_fan s = prev_overrode_fan st
    /\ baseline_temp s = baseline_temp st
    /\ baseline_fan_pwm s = baseline_fan_pwm st).
  { by intros s (_&?&?&?&?&_). }
  destruct (re_match TYPE_PREFIX_RE pl) as [m|].
  - destruct (match_canonical _) as [c|].
    + intros ->. intros [= <-]. exact (Hgoal _ (Hm (Some c))).
    + intros _ [= <-]. exact (Hgoal _ (Hm None)).
  - intros _ [= <-].
    pose proof (update_layer_overrides l pl
      (observe (rstrip_nl pl) (append_out pl (set_processed_line pl st2))))
      as (_&E1&E2&E3&E4&_).
    pose proof (observe_same (rstrip_nl pl)
      (append_out pl (set_processed_line pl st2))) as (_&F3&F4&F1&F2&_).
    destruct Hf as (_&G1&G2&G3&G4&_).
    rewrite E1, E2, E3, E4, F1, F2, F3, F4.
    exact (conj G1 (conj G2 (conj G3 G4))).
Qed.

(** ** A pass without overrides *)

Lemma plain_no_flow cfg skip st : is_plain cfg -> flow_factor cfg skip st = None.
Proof.
  intros (_&_&Hf&_). unfold flow_factor. rewrite Hf.
  destruct (current_feature_canon st) as [c|]; [|done].
  by destruct (truthy c && negb skip).
Qed.

Lemma plain_rewritten cfg l st : is_plain cfg -> rewritten cfg l st = l.
Proof. intros H. unfold rewritten. by rewrite plain_no_flow. Qed.

Lemma plain_new_fan cfg c : is_plain cfg -> new_fan_pwm cfg c = Ok None.
Proof. intros (_&Hf&_). unfold new_fan_pwm. by rewrite Hf. Qed.

Lemma plain_block cfg c st :
  is_plain cfg -> prev_overrode_temp st = false -> prev_overrode_fan st = false ->
  boundary_block cfg c None st = [].
Proof.
  intros (Ht&_&_&Hen&Hex) Hpt Hpf.
  unfold boundary_block, exit_lines, restore_temp_lines, restore_fan_lines,
    enter_lines, set_temp_lines, set_fan_lines.
  rewrite Ht, Hen, Hex, Hpt, Hpf.
  destruct (prev_feature_canon st) as [p|]; [|done]. by destruct (truthy p).
Qed.

(** One iteration without overrides: the line is written as it is, nothing
    raises, and no override becomes active. *)
Lemma plain_step cfg l st :
  is_plain cfg -> prev_overrode_temp st = false -> prev_overrode_fan st = false ->
  exists st',
    process_line cfg l st = Ok st'
    /\ out_lines st' = out_lines st ++ [l]
    /\ prev_overrode_temp st' = false /\ prev_overrode_fan st' = false.
Proof.
  intros Hp Hpt Hpf. destruct (fires_boundary cfg l st) eqn:Hf.
  - assert (Hok : exists st', process_line cfg l st = Ok st').
    { revert Hf. unfold fires_boundary. rewrite process_line_eq. cbv zeta.
      rewrite flowed_fst.
      destruct (re_match TYPE_PREFIX_RE _) as [m|]; [|done].
      destruct (match_canonical _) as [c|]; [|done]. intros ->.
      apply (feature_boundary_total _ _ _ None), plain_new_fan, Hp. }
    destruct Hok as [st' Hst]. exists st'. split; [done|].
    destruct (process_line_fires _ _ _ _ Hf Hst) as (c & nf & Hnf & Hout).
    rewrite (plain_new_fan _ _ Hp) in Hnf. injection Hnf as <-.
    rewrite (plain_block _ _ _ Hp Hpt Hpf), (plain_rewritten _ _ _ Hp) in Hout.
    split; [done|].
    revert Hst. rewrite process_line_eq. cbv zeta.
    revert Hf. unfold fires_boundary. rewrite flowed_fst.
    destruct (re_match TYPE_PREFIX_RE _) as [m|]; [|done].
    destruct (match_canonical _) as [c'|]; [|done]. intros ->.
    intros (nf & Hnf & -> & -> & _)%feature_boundary_flags.
    rewrite (plain_new_fan _ _ Hp) in Hnf. injection Hnf as <-.
    destruct Hp as (-> & _). split; by apply bool_decide_eq_false_2; intros [? ?].
  - destruct (process_line_quiet _ _ _ Hf) as (st' & Hst & Hout).
    exists st'. rewrite (plain_rewritten _ _ _ Hp) in Hout.
    destruct (process_line_quiet_overrides _ _ _ _ Hf Hst) as (-> & -> & _).
    done.
Qed.

Lemma plain_loop cfg lines : forall st,
  is_plain cfg -> prev_overrode_temp st = false -> prev_overrode_fan st = false ->
  exists st', main_loop cfg lines st = Ok st' /\ out_lines st' = out_lines st ++ lines.
Proof.
  induction lines as [|l lines IH]; intros st Hp Hpt Hpf; simpl.
  - exists st. by rewrite app_nil_r.
  - destruct (plain_step cfg l st Hp Hpt Hpf) as (st1 & -> & Hout & Ht1 & Hf1).
    destruct (IH st1 Hp Ht1 Hf1) as (st' & -> & Hout').
    exists st'. split; [done|]. by rewrite Hout', Hout, <- app_assoc.
Qed.

(** ** Reading and writing the document *)

Lemma split_lines_concat s : forall cur, concat (split_lines cur s) = rev cur ++ s.
Proof.
  induction s as [|c s IH]; intros cur; simpl.
  - destruct cur; simpl; by rewrite ?app_nil_r.
  - destruct (char_eqb c nl); simpl; rewrite IH; simpl;
      by rewrite <- app_assoc.
Qed.

Lemma split_lines_shape s : forall cur,
  forallb (fun c => negb (char_eqb c nl)) cur = true ->
  Forall is_line (split_lines cur s).
Proof.
  induction s as [|c s IH]; intros cur Hcur; simpl.
  - destruct cur as [|a cur]; [constructor|].
    constructor; [|constructor]. exists (rev (a :: cur)). split.
    + rewrite forallb_forall in *. intros x Hx. apply Hcur. by apply in_rev.
    + right. split; [done|]. intros H. apply (f_equal (@length char)) in H.
      rewrite length_rev in H. done.
  - destruct (char_eqb c nl) eqn:Hc.
    + constructor; [|by apply IH]. exists (rev cur). split.
      * rewrite forallb_forall in *. intros x Hx. apply Hcur. by apply in_rev.
      * left. apply char_eqb_true in Hc as ->. done.
    + apply IH. simpl. by rewrite Hc.
Qed.

Lemma translate_no_cr s : no_cr s -> translate_newlines false s = s.
Proof.
  unfold no_cr. induction s as [|c s IH]; simpl; [done|].
  intros [Hc Hs]%andb_true_iff. apply negb_true_iff in Hc. rewrite Hc.
  rewrite andb_false_r. by rewrite IH.
Qed.

Lemma translate_removes_cr s : forall b, no_cr (translate_newlines b s).
Proof.
  unfold no_cr. induction s as [|c s IH]; intros b; simpl; [done|].
  destruct (char_eqb c cr) eqn:Hc; simpl; [apply IH|].
  destruct (char_eqb c nl && b); simpl; [apply IH|]. by rewrite Hc, IH.
Qed.

(** ** Feature names *)

Lemma drop_while_shape p s :
  drop_while p s = [] \/ exists c x, drop_while p s = c :: x /\ p c = false.
Proof.
  induction s as [|c s IH]; simpl; [by left|].
  destruct (p c) eqn:E; [done|]. right. by exists c, s.
Qed.

Lemma rstrip_by_idem p s : rstrip_by p (rstrip_by p s) = rstrip_by p s.
Proof.
  destruct (rstrip_by_spec p s) as [_ [-> | (s0 & c & -> & Hc)]]; [done|].
  by rewrite rstrip_by_snoc, Hc.
Qed.

Lemma strip_idem s : strip (strip s) = strip s.
Proof.
  unfold strip. destruct (drop_while_shape is_space s) as [-> | (c & x & -> & Hc)];
    [done|].
  pose proof (rstrip_by_stop is_space [] c x Hc) as H1. cbn [app] in H1.
  rewrite H1, (drop_while_head _ _ _ Hc).
  pose proof (rstrip_by_stop is_space [] c (rstrip_by is_space x) Hc) as H2.
  cbn [app] in H2. by rewrite H2, rstrip_by_idem.
Qed.

Lemma norm_key_strip s : norm_key (strip s) = norm_key s.
Proof. unfold norm_key. by rewrite strip_idem. Qed.

(** A property of every pair the loop over [FEATURE_SYNONYMS] stores holds
    of the whole table it leaves. *)
Lemma fill_tables_forall (P : str -> str -> bool) (key : str -> str) :
  forallb (fun '(canon, syns) =>
             forallb (fun s => P (key (chars s)) (chars canon)) syns)
          FEATURE_SYNONYMS = true ->
  map_Forall (fun k c => P k c = true) (fill_tables key).
Proof.
  unfold fill_tables.
  assert (Hgen : forall tbl (d : gmap str str),
    map_Forall (fun k c => P k c = true) d ->
    forallb (fun '(canon, syns) =>
               forallb (fun s => P (key (chars s)) (chars canon)) syns) tbl = true ->
    map_Forall (fun k c => P k c = true)
      (fold_left
         (fun d '(canon, syns) =>
            fold_left (fun d s => <[ key (chars s) := chars canon ]> d) syns d)
         tbl d)).
  { induction tbl as [|[canon syns] tbl IH]; intros d Hd; cbn [fold_left forallb];
      [done|].
    intros [Hs Ht]%andb_true_iff. apply IH; [|done].
    clear IH Ht. revert d Hd Hs.
    induction syns as [|s syns IHs]; intros d Hd; cbn [fold_left forallb]; [done|].
    intros [H1 H2]%andb_true_iff. apply IHs; [|done].
    by apply map_Forall_insert_2. }
  apply Hgen. apply map_Forall_empty.
Qed.

(** What the loop leaves in the exact table: every value is a canonical
    name, and the normalised table sends the normalised key to the same
    name. *)
Lemma exact_table_facts :
  map_Forall (fun k c =>
    truthy c = true /\ c ∈ canonical_names
    /\ NORM_TO_CANONICAL
         !! collapse_spaces false (replace_char "-" " " (replace_char "_" " " k))
       = Some c) SYNONYM_TO_CANONICAL.
Proof.
  set (P := fun k c : str =>
    truthy c && bool_decide (c ∈ canonical_names)
    && bool_decide (NORM_TO_CANONICAL
         !! collapse_spaces false
              (replace_char "-" " " (replace_char "_" " " k)) = Some c)).
  assert (Hcheck : forallb (fun '(canon, syns) =>
            forallb (fun s => P (lower (strip (chars s))) (chars canon)) syns)
          FEATURE_SYNONYMS = true) by (vm_compute; reflexivity).
  intros k c Hk.
  pose proof (fill_tables_forall P (fun s => lower (strip s)) Hcheck k c Hk) as H.
  unfold P in H.
  apply andb_true_iff in H as [[H1 H2]%andb_true_iff H3].
  apply bool_decide_eq_true in H2. apply bool_decide_eq_true in H3.
  split; [exact H1|]. split; [exact H2|exact H3].
Qed.

Lemma norm_table_values :
  map_Forall (fun _ c => truthy c = true /\ c ∈ canonical_names) NORM_TO_CANONICAL.
Proof.
  set (P := fun _ c : str => truthy c && bool_decide (c ∈ canonical_names)).
  assert (Hcheck : forallb (fun '(canon, syns) =>
            forallb (fun s => P (norm_key (chars s)) (chars canon)) syns)
          FEATURE_SYNONYMS = true) by (vm_compute; reflexivity).
  intros k c Hk.
  pose proof (fill_tables_forall P norm_key Hcheck k c Hk) as H.
  unfold P in H. apply andb_true_iff in H as [H1 H2].
  apply bool_decide_eq_true in H2. split; [exact H1|exact H2].
Qed.

Lemma norm_table_no_empty_key : NORM_TO_CANONICAL !! norm_key [] = None.
Proof. vm_compute. reflexivity. Qed.

(** The normalised table alone decides. *)
Lemma match_canonical_norm s :
  match_canonical s = NORM_TO_CANONICAL !! norm_key (first_segment s).
Proof.
  unfold match_canonical. destruct s as [|c s]; [symmetry; exact norm_table_no_empty_key|].
  cbn [truthy negb]. cbv zeta. rewrite norm_key_strip.
  set (primary := strip (first_segment (c :: s))).
  destruct (SYNONYM_TO_CANONICAL !! lower primary) as [canon|] eqn:Hex; [|done].
  apply exact_table_facts in Hex as (Ht & _ & Hn). cbn [truthy_opt]. rewrite Ht.
  rewrite <- norm_key_strip. fold primary. unfold norm_key.
  unfold primary at 1. rewrite strip_idem. fold primary. by rewrite Hn.
Qed.

Lemma match_canonical_known s c :
  match_canonical s = Some c -> truthy c = true /\ c ∈ canonical_names.
Proof. rewrite match_canonical_norm. apply norm_table_values. Qed.

Lemma lower_char_idem c : lower_char (lower_char c) = lower_char c.
Proof. by destruct c as [[[] [] [] [] [] [] [] []]| |? ? ? ?]. Qed.

Lemma is_space_lower c : is_space (lower_char c) = is_space c.
Proof. by destruct c as [[[] [] [] [] [] [] [] []]| |? ? ? ?]. Qed.

Lemma separator_lower c : none_of ";|," (lower_char c) = none_of ";|," c.
Proof. by destruct c as [[[] [] [] [] [] [] [] []]| |? ? ? ?]. Qed.

Lemma map_take_while (f : char -> char) p s :
  (forall c, p (f c) = p c) -> take_while p (map f s) = map f (take_while p s).
Proof.
  intros Hp. induction s as [|c s IH]; cbn [map take_while]; [done|].
  rewrite Hp. destruct (p c); cbn [map]; by rewrite ?IH.
Qed.

Lemma map_drop_while (f : char -> char) p s :
  (forall c, p (f c) = p c) -> drop_while p (map f s) = map f (drop_while p s).
Proof.
  intros Hp. induction s as [|c s IH]; cbn [map drop_while]; [done|].
  rewrite Hp. by destruct (p c).
Qed.

Lemma map_rstrip_by (f : char -> char) p s :
  (forall c, p (f c) = p c) -> rstrip_by p (map f s) = map f (rstrip_by p s).
Proof.
  intros Hp. unfold rstrip_by.
  by rewrite <- map_rev, (map_drop_while f p _ Hp), map_rev.
Qed.

Lemma strip_lower s : strip (lower s) = lower (strip s).
Proof.
  unfold strip, lower.
  by rewrite (map_drop_while _ _ _ is_space_lower),
             (map_rstrip_by _ _ _ is_space_lower).
Qed.

Lemma lower_idem s : lower (lower s) = lower s.
Proof.
  unfold lower. rewrite map_map. apply map_ext. intros c. apply lower_char_idem.
Qed.

Lemma norm_key_lower s : norm_key (lower s) = norm_key s.
Proof. unfold norm_key. by rewrite strip_lower, lower_idem. Qed.

Lemma first_segment_lower s : first_segment (lower s) = lower (first_segment s).
Proof. apply map_take_while, separator_lower. Qed.

Lemma first_segment_cut a c b :
  any_of ";|," c = true -> first_segment (a ++ c :: b) = first_segment a.
Proof.
  intros Hc. unfold first_segment.
  induction a as [|x a IH]; cbn [app take_while].
  - unfold none_of. by rewrite Hc.
  - destruct (none_of ";|," x); by rewrite ?IH.
Qed.

(** Every alias of the table leads, through the normalised table, to the
    feature it is listed under. *)
Lemma alias_table_facts canon syns s :
  (canon, syns) ∈ FEATURE_SYNONYMS -> s ∈ syns ->
  NORM_TO_CANONICAL !! norm_key (chars s) = Some (chars canon).
Proof.
  assert (Hcheck : forallb (fun '(canon, syns) =>
            forallb (fun s => bool_decide
              (NORM_TO_CANONICAL !! norm_key (chars s) = Some (chars canon))) syns)
          FEATURE_SYNONYMS = true) by (vm_compute; reflexivity).
  intros Hc Hs. rewrite forallb_forall in Hcheck.
  apply list_elem_of_In, Hcheck in Hc. cbv beta iota in Hc.
  rewrite forallb_forall in Hc. apply list_elem_of_In, Hc in Hs.
  by apply bool_decide_eq_true in Hs.
Qed.

(** ** When the pass raises *)

Lemma new_fan_pwm_raises cfg c e :
  new_fan_pwm cfg c = Raised e ->
  exists pct, feature_fans_pct cfg !! c = Some pct /\ pct_to_pwm pct = Raised e.
Proof.
  unfold new_fan_pwm. destruct (feature_fans_pct cfg !! c) as [pct|]; [|done].
  destruct (pct_to_pwm pct) as [n|e'] eqn:E; [done|]. intros [= <-]. by exists pct.
Qed.

Lemma process_line_raises cfg l st e :
  process_line cfg l st = Raised e ->
  exists c pct,
    c ∈ canonical_names
    /\ feature_fans_pct cfg !! c = Some pct /\ pct_to_pwm pct = Raised e.
Proof.
  rewrite process_line_eq. cbv zeta.
  destruct (re_match TYPE_PREFIX_RE _) as [m|]; [|done].
  destruct (match_canonical _) as [c|] eqn:Hc; [|done].
  destruct (negb _ && truthy c); [|done].
  unfold feature_boundary. destruct (new_fan_pwm cfg c) as [nf|e'] eqn:Hf; [done|].
  intros [= <-]. apply new_fan_pwm_raises in Hf as (pct & H1 & H2).
  exists c, pct. split; [|done]. by apply match_canonical_known in Hc as [_ ?].
Qed.

Lemma main_loop_raises cfg lines : forall st e,
  main_loop cfg lines st = Raised e ->
  exists c pct,
    c ∈ canonical_names
    /\ feature_fans_pct cfg !! c = Some pct /\ pct_to_pwm pct = Raised e.
Proof.
  induction lines as [|l lines IH]; intros st e; cbn [main_loop]; [done|].
  destruct (process_line cfg l st) as [st1|e1] eqn:H1.
  - apply IH.
  - intros [= <-]. by apply process_line_raises in H1.
Qed.

Lemma main_loop_total cfg lines st :
  fans_round cfg -> exists st', main_loop cfg lines st = Ok st'.
Proof.
  intros Hr. destruct (main_loop cfg lines st) as [st'|e] eqn:H; [by exists st'|].
  apply main_loop_raises in H as (c & pct & _ & Hl & Hp).
  destruct (Hr c pct Hl) as [n Hn]. congruence.
Qed.

(** ** The feature names the pass keeps *)

Lemma update_layer_feature a b st :
  current_feature_canon (update_layer_from_line a b st) = None
  \/ current_feature_canon (update_layer_from_line a b st) = current_feature_canon st.
Proof. unfold update_layer_from_line. by_cases; auto. Qed.

Lemma apply_flow_feature cfg l f st :
  current_feature_canon (apply_flow_to_line cfg l f st).2 = current_feature_canon st.
Proof. unfold apply_flow_to_line. by_cases. Qed.

Lemma flowed_feature cfg l st :
  current_feature_canon (flowed cfg l st).2 = None
  \/ current_feature_canon (flowed cfg l st).2 = current_feature_canon st.
Proof.
  unfold flowed. destruct (flow_factor _ _ _).
  - rewrite apply_flow_feature. apply update_layer_feature.
  - apply update_layer_feature.
Qed.

Lemma observe_feature s st :
  current_feature_canon (observe s st) = current_feature_canon st.
Proof. by pose proof (observe_same s st) as (_&_&_&_&_&_&?&_). Qed.

Lemma known_feature_step o o' : known_feature o -> o' = None \/ o' = o -> known_feature o'.
Proof. by intros H [-> | ->]. Qed.

Lemma process_line_names cfg l st st' :
  known_feature (prev_feature_canon st) ->
  known_feature (current_feature_canon st) ->
  process_line cfg l st = Ok st' ->
  known_feature (prev_feature_canon st') /\ known_feature (current_feature_canon st').
Proof.
  intros Hp Hc. rewrite process_line_eq. cbv zeta.
  destruct (re_match TYPE_PREFIX_RE _) as [m|].
  - destruct (match_canonical _) as [c|] eqn:Hm.
    + apply match_canonical_known in Hm as [_ Hk].
      destruct (negb _ && truthy c).
      * intros (nf & _ & _ & _ & -> & -> & _)%feature_boundary_flags.
        split; [done|].
        unfold marker_state. by destruct (_ <? _).
      * intros [= <-]. split; [done|]. unfold marker_state. by destruct (_ <? _).
    + intros [= <-]. split; [done|]. unfold marker_state. by destruct (_ <? _).
  - intros [= <-]. split.
    + pose proof (update_layer_overrides l (flowed cfg l st).1
        (observe (rstrip_nl (flowed cfg l st).1)
           (append_out (flowed cfg l st).1
              (set_processed_line (flowed cfg l st).1 (flowed cfg l st).2))))
        as (-> & _).
      rewrite observe_overrides_prev. cbn [prev_feature_canon append_out set_processed_line].
      by pose proof (flowed_overrides cfg l st) as (-> & _).
    + eapply known_feature_step; [|apply update_layer_feature].
      rewrite observe_feature. cbn [current_feature_canon append_out set_processed_line].
      eapply known_feature_step; [exact Hc | apply flowed_feature].
Qed.

Lemma main_loop_names cfg lines : forall st st',
  known_feature (prev_feature_canon st) ->
  known_feature (current_feature_canon st) ->
  main_loop cfg lines st = Ok st' ->
  known_feature (prev_feature_canon st') /\ known_feature (current_feature_canon st').
Proof.
  induction lines as [|l lines IH]; intros st st' Hp Hc; cbn [main_loop].
  - by intros [= <-].
  - destruct (process_line cfg l st) as [st1|] eqn:H1; [|done].
    destruct (process_line_names _ _ _ _ Hp Hc H1) as [Hp1 Hc1]. by apply IH.
Qed.

(** ** Documents without recognised feature markers *)

Lemma flow_factor_no_feature cfg skip st :
  current_feature_canon st = None -> flow_factor cfg skip st = None.
Proof. unfold flow_factor. by intros ->. Qed.

Lemma unmarked_step cfg l st :
  current_feature_canon st = None -> no_known_marker l = true ->
  exists st',
    process_line cfg l st = Ok st'
    /\ out_lines st' = out_lines st ++ [l]
    /\ current_feature_canon st' = None.
Proof.
  intros Hc Hn. rewrite process_line_eq. cbv zeta.
  assert (H1 : current_feature_canon
                 (update_layer_from_line l (processed_line st) st) = None).
  { destruct (update_layer_feature l (processed_line st) st) as [H|H]; congruence. }
  assert (Hfl : flowed cfg l st
                = (l, update_layer_from_line l (processed_line st) st)).
  { unfold flowed. by rewrite (flow_factor_no_feature _ _ _ H1). }
  rewrite Hfl. cbn [fst snd]. unfold no_known_marker in Hn.
  destruct (re_match TYPE_PREFIX_RE l) as [m|].
  - destruct (match_canonical _) as [c|]; [done|].
    eexists. split; [done|]. cbn [out_lines set_prev_feature_canon current_feature_canon].
    rewrite marker_state_out, update_layer_out. split; [done|].
    unfold marker_state. by destruct (_ <? _).
  - eexists. split; [done|]. rewrite update_layer_out, observe_out.
    cbn [out_lines append_out set_processed_line]. rewrite update_layer_out.
    split; [done|].
    match goal with |- current_feature_canon (update_layer_from_line ?a ?b ?s) = _ =>
      destruct (update_layer_feature a b s) as [H|H]; [done|rewrite H] end.
    by rewrite observe_feature.
Qed.

Lemma unmarked_loop cfg lines : forall st,
  current_feature_canon st = None ->
  forallb no_known_marker lines = true ->
  exists st', main_loop cfg lines st = Ok st' /\ out_lines st' = out_lines st ++ lines.
Proof.
  induction lines as [|l lines IH]; intros st Hc; cbn [main_loop forallb].
  - intros _. exists st. by rewrite app_nil_r.
  - intros [Hl Hr]%andb_true_iff.
    destruct (unmarked_step cfg l st Hc Hl) as (st1 & -> & Hout & Hc1).
    destruct (IH st1 Hc1 Hr) as (st' & -> & Hout').
    exists st'. split; [done|]. by rewrite Hout', Hout, <- app_assoc.
Qed.

(** ** The command line *)

Lemma collect_lookup {A : Type} (get : str -> option A) (c : str) :
  collect get !! c = if bool_decide (c ∈ canonical_names) then get c else None.
Proof.
  unfold collect.
  assert (Hgen : forall l (d : gmap str A),
    fold_left (fun d canon =>
                 match get canon with Some v => <[ canon := v ]> d | None => d end)
              l d !! c
    = if bool_decide (c ∈ l)
      then match get c with Some v => Some v | None => d !! c end
      else d !! c).
  { induction l as [|a l IH]; intros d; cbn [fold_left].
    - by rewrite bool_decide_eq_false_2 by apply not_elem_of_nil.
    - rewrite IH. destruct (decide (a = c)) as [->|Hne].
      + rewrite (bool_decide_eq_true_2 (c ∈ c :: l)) by apply list_elem_of_here.
        destruct (get c) as [v|]; [|by destruct (bool_decide _)].
        rewrite lookup_insert_eq. by destruct (bool_decide _).
      + assert (Hd : (match get a with Some v => <[ a := v ]> d | None => d end) !! c
                     = d !! c).
        { destruct (get a); [by rewrite lookup_insert_ne|done]. }
        rewrite Hd. destruct (decide (c ∈ l)) as [Hin|Hin].
        * rewrite !bool_decide_eq_true_2; [done| by apply list_elem_of_further |done].
        * rewrite !bool_decide_eq_false_2; [done| |done].
          intros [?|?]%elem_of_cons; [congruence|done]. }
  rewrite Hgen. rewrite lookup_empty. destruct (bool_decide _); [|done].
  by destruct (get c).
Qed.

Lemma collect_nothing {A : Type} (get : str -> option A) :
  (forall c, c ∈ canonical_names -> get c = None) -> collect get = ∅.
Proof.
  intros H. apply map_empty. intros c. rewrite collect_lookup.
  destruct (decide (c ∈ canonical_names)) as [Hin|Hin].
  - rewrite bool_decide_eq_true_2 by done. by apply H.
  - by rewrite bool_decide_eq_false_2.
Qed.

(** ** Comment lines *)

Lemma is_comment_drop s :
  is_comment s = true -> exists r, drop_while is_space s = Latin ";" :: r.
Proof.
  unfold is_comment. destruct (drop_while is_space s) as [|c r]; [done|].
  intros H. apply char_eqb_true in H as ->. by exists r.
Qed.

Lemma is_comment_shape s :
  is_comment s = true ->
  exists ws r, s = ws ++ Latin ";" :: r /\ forallb is_space ws = true.
Proof.
  intros [r Hd]%is_comment_drop. exists (take_while is_space s), r.
  split; [|apply take_while_all]. by rewrite <- Hd, take_drop_while.
Qed.

Lemma drop_while_app p ws c x :
  forallb p ws = true -> p c = false -> drop_while p (ws ++ c :: x) = c :: x.
Proof.
  intros Hws Hc. induction ws as [|a ws IH]; cbn [app drop_while forallb] in *.
  - by rewrite Hc.
  - apply andb_true_iff in Hws as [-> Hws]. by apply IH.
Qed.

Lemma comment_rstrip l : is_comment l = true -> is_comment (rstrip_nl l) = true.
Proof.
  intros (ws & r & -> & Hws)%is_comment_shape. unfold rstrip_nl.
  rewrite rstrip_by_stop by reflexivity.
  unfold is_comment. by rewrite drop_while_app.
Qed.

(** The patterns of commands skip white space and then need the letter of
    the command. *)
Lemma command_head q R1 R2 s :
  (forall c, is_space c = true -> q c = false) ->
  re_match (Cat Bol (Cat (Star is_space) (Cat (Cat (Chr q) R1) R2))) s =
    match drop_while is_space s with
    | c :: s' =>
        if q c
        then run R1 (run R2 accept) (Some c)
               (S (length (take_while is_space s))) s' None
        else None
    | [] => None
    end.
Proof.
  intros H. unfold re_match.
  change (run (Cat Bol ?r) ?k None 0%nat s None) with (run r k None 0%nat s None).
  cbn [run]. rewrite star_commit; [reflexivity|].
  intros c s' prev' pos' Hc. by rewrite (H c Hc).
Qed.

Lemma space_not_M c : is_space c = true -> ci "M" c = false.
Proof. destruct c as [[[] [] [] [] [] [] [] []]| |? ? ? ?]; vm_compute; congruence. Qed.

Ltac comment_no_match Hd lem :=
  unfold LitI, Seq; cbn [fold_right map chars list_ascii_of_string];
  rewrite command_head by apply lem; rewrite Hd; reflexivity.

Lemma comment_no_command s :
  is_comment s = true ->
  re_match M82_RE s = None /\ re_match M83_RE s = None /\ re_match G92_RE s = None
  /\ re_match TEMP_CMD_RE s = None /\ re_match FAN_OFF_RE s = None
  /\ re_match FAN_ON_RE s = None.
Proof.
  intros [r Hd]%is_comment_drop.
  split; [unfold M82_RE; comment_no_match Hd space_not_M|].
  split; [unfold M83_RE; comment_no_match Hd space_not_M|].
  split; [unfold G92_RE; comment_no_match Hd space_not_G|].
  split; [unfold TEMP_CMD_RE; comment_no_match Hd space_not_M|].
  split; [unfold FAN_OFF_RE; comment_no_match Hd space_not_M|].
  unfold FAN_ON_RE; comment_no_match Hd space_not_M.
Qed.

Lemma comment_observe s st : is_comment s = true -> observe s st = st.
Proof.
  intros (H1&H2&H3&H4&H5&H6)%comment_no_command.
  unfold observe, track_temp_fan, track_extrusion, is_match.
  by rewrite H1, H2, H3, H4, H5, H6.
Qed.

Lemma comment_code_part s :
  is_comment s = true -> is_match MOVE_RE (py_partition ";" s).1.1 = false.
Proof.
  intros (ws & s1 & -> & Hws)%is_comment_shape.
  rewrite py_partition_prefix.
  - by apply move_needs_command.
  - clear -Hws. induction ws as [|c ws IH]; cbn [forallb] in *; [done|].
    apply andb_true_iff in Hws as [Hc Hs]. rewrite (IH Hs), andb_true_r.
    apply space_not_semicolon in Hc. unfold only in Hc.
    by rewrite char_eqb_sym, Hc.
Qed.

Lemma comment_flow cfg s factor st :
  is_comment s = true -> apply_flow_to_line cfg s factor st = (s, st).
Proof.
  intros H%comment_code_part. unfold apply_flow_to_line.
  destruct factor as [f|]; [|done].
  destruct (ltb _ _); [done|].
  destruct (py_partition ";" s) as [[code_part sep] comment]. simpl in H.
  by rewrite H.
Qed.

Lemma update_layer_tracking a b st :
  same_tracking st (update_layer_from_line a b st).
Proof. unfold update_layer_from_line. by_cases; by repeat split. Qed.

(** An iteration on a comment line that is no feature marker. *)
Lemma comment_step cfg l st :
  is_comment l = true -> re_match TYPE_PREFIX_RE l = None ->
  process_line cfg l st
  = Ok (update_layer_from_line l l
          (append_out l
             (set_processed_line l
                (update_layer_from_line l (processed_line st) st)))).
Proof.
  intros Hc Ht. rewrite process_line_eq. cbv zeta.
  assert (Hfl : flowed cfg l st
                = (l, update_layer_from_line l (processed_line st) st)).
  { unfold flowed. destruct (flow_factor _ _ _); [|done]. by apply comment_flow. }
  rewrite Hfl. cbn [fst snd]. rewrite Ht.
  by rewrite (comment_observe _ _ (comment_rstrip _ Hc)).
Qed.

(** ** Lines that give the layer index *)

Lemma space_not_l c : is_space c = true -> ci "l" c = false.
Proof. destruct c as [[[] [] [] [] [] [] [] []]| |? ? ? ?]; vm_compute; congruence. Qed.

(** A line with a layer index starts, after white space, the semicolon and
    more white space, with the letter L. *)
Lemma layer_marker_shape s m :
  layer_marker s = Some m ->
  exists s0 c s1,
    drop_while is_space s = Latin ";" :: s0
    /\ drop_while is_space s0 = c :: s1 /\ ci "L" c = true.
Proof.
  unfold layer_marker.
  destruct (re_match LAYER_NUM_RE s) as [m1|] eqn:H1.
  - intros _. revert H1. unfold LAYER_NUM_RE. unfold Seq at 1. cbn [fold_right].
    rewrite re_match_head by apply space_not_semicolon.
    destruct (drop_while is_space s) as [|c0 s0]; [done|].
    destruct (only ";" c0) eqn:Hc; [|done]. apply only_eq in Hc as ->.
    unfold LitI, Seq. cbn [fold_right map chars list_ascii_of_string run].
    intros H. destruct s0 as [|c s1]; [done|].
    destruct (ci "L" c) eqn:E; [|done].
    exists (c :: s1), c, s1. split; [done|]. split; [|done].
    apply drop_while_head. by apply ci_L_facts in E as [? _].
  - unfold LAYER_WORD_RE. unfold Seq at 1. cbn [fold_right].
    rewrite re_match_head by apply space_not_semicolon.
    destruct (drop_while is_space s) as [|c0 s0]; [done|].
    destruct (only ";" c0) eqn:Hc; [|done]. apply only_eq in Hc as ->.
    unfold LitI, Plus, Seq. cbn [fold_right map chars list_ascii_of_string run].
    rewrite star_commit.
    + intros H. destruct (drop_while is_space s0) as [|c s1] eqn:Hd0; [done|].
      destruct (ci "l" c) eqn:E; [|done].
      exists s0, c, s1. split; [done|]. split; [done|]. exact E.
    + intros c' s' prev' pos' Hsp. by rewrite (space_not_l _ Hsp).
Qed.

Lemma layer_marker_comment s m : layer_marker s = Some m -> is_comment s = true.
Proof.
  intros (s0 & c & s1 & Hd & _)%layer_marker_shape. unfold is_comment. by rewrite Hd.
Qed.

Lemma layer_marker_not_type s m :
  layer_marker s = Some m -> re_match TYPE_PREFIX_RE s = None.
Proof.
  intros (s0 & c & s1 & Hd & Hd0 & Hc)%layer_marker_shape.
  unfold TYPE_PREFIX_RE. unfold Seq at 1. cbn [fold_right].
  rewrite re_match_head by apply space_not_semicolon. rewrite Hd.
  change (only ";" ";") with true. cbv iota.
  unfold LitI, Seq. cbn [fold_right map chars list_ascii_of_string run].
  rewrite star_commit.
  - rewrite Hd0. apply ci_L_facts in Hc as [_ Ht]. by rewrite Ht.
  - intros c' s' prev' pos' Hsp.
    destruct c' as [[[] [] [] [] [] [] [] []]| |? ? ? ?]; vm_compute in Hsp; try done.
Qed.

(** ** The baseline when a feature is entered again *)

Lemma override_fan_temp canon new_fan st :
  current_temp (override_fan canon new_fan st) = current_temp st.
Proof.
  unfold override_fan. destruct new_fan as [p|]; [|done].
  cbn [current_temp set_prev_overrode_fan set_current_fan_pwm].
  apply insert_fan_pwm_temp.
Qed.

(** A boundary into a feature with a temperature leaves that temperature
    tracked. *)
Lemma feature_boundary_temp cfg c t st st1 :
  feature_temps cfg !! c = Some t ->
  feature_boundary cfg c st = Ok st1 ->
  current_temp st1 = Some t.
Proof.
  intros Ht. unfold feature_boundary. rewrite Ht.
  destruct (new_fan_pwm cfg c) as [nf|]; [|done]. intros [= <-].
  cbn [current_temp set_prev_feature_canon]. by rewrite override_fan_temp.
Qed.

(** The baseline a boundary records is the temperature tracked after the
    exit commands and the restore. *)
Lemma feature_boundary_baseline cfg c st st1 :
  feature_boundary cfg c st = Ok st1 ->
  exists nf,
    baseline_temp st1
    = current_temp (restore_fan nf
        (restore_temp cfg (feature_temps cfg !! c) (emit_exit cfg st))).
Proof.
  unfold feature_boundary. destruct (new_fan_pwm cfg c) as [nf|]; [|done].
  intros [= <-]. exists nf. cbn [baseline_temp set_prev_feature_canon].
  by destruct (boundary_tail_baselines cfg c (feature_temps cfg !! c) nf
    (snapshot_baselines (restore_fan nf
       (restore_temp cfg (feature_temps cfg !! c) (emit_exit cfg st))))) as [-> _].
Qed.
(** ** Two boundaries in a row *)

(** A boundary records the temperature and the fan duty tracked at its
    snapshot. *)
Lemma feature_boundary_snapshot cfg c st st1 :
  feature_boundary cfg c st = Ok st1 ->
  baseline_temp st1 = current_temp (before_snapshot cfg c st)
  /\ baseline_fan_pwm st1 = current_fan_pwm (before_snapshot cfg c st).
Proof.
  unfold feature_boundary, before_snapshot.
  destruct (new_fan_pwm cfg c) as [nf|]; [|done]. intros [= <-].
  cbn [baseline_temp baseline_fan_pwm set_prev_feature_canon].
  destruct (boundary_tail_baselines cfg c (feature_temps cfg !! c) nf
    (snapshot_baselines (restore_fan nf
       (restore_temp cfg (feature_temps cfg !! c) (emit_exit cfg st)))))
    as [-> ->].
  done.
Qed.

(** Lines on which no boundary is taken keep the baselines and the override
    flags. *)
Lemma main_loop_quiet_overrides cfg lines : forall st st',
  quiet cfg lines st = true ->
  main_loop cfg lines st = Ok st' ->
  prev_overrode_temp st' = prev_overrode_temp st
  /\ prev_overrode_fan st' = prev_overrode_fan st
  /\ baseline_temp st' = baseline_temp st
  /\ baseline_fan_pwm st' = baseline_fan_pwm st.
Proof.
  induction lines as [|l lines IH]; intros st st'; cbn [quiet main_loop].
  - by intros _ [= <-].
  - intros [Hf Hq]%andb_true_iff. apply negb_true_iff in Hf.
    destruct (process_line cfg l st) as [st1|] eqn:H1; [|done].
    intros H2. destruct (process_line_quiet_overrides _ _ _ _ Hf H1) as (A1&A2&A3&A4).
    destruct (IH _ _ Hq H2) as (B1&B2&B3&B4).
    repeat split; congruence.
Qed.

(** The iteration on a recognised marker outside the skipped layers is a
    feature boundary, taken in a state that has the overrides of the state
    the iteration started in and the marker as last line. *)
Lemma process_line_boundary cfg l st st' m c :
  re_match TYPE_PREFIX_RE l = Some m ->
  match_canonical (group1 m l) = Some c ->
  skip_active cfg (update_layer_from_line l (processed_line st) st) = false ->
  process_line cfg l st = Ok st' ->
  exists ms,
    same_overrides st ms
    /\ out_lines ms = out_lines st ++ [l]
    /\ feature_boundary cfg c ms = Ok st'.
Proof.
  intros Hm Hc Hs. rewrite process_line_eq. cbv zeta.
  rewrite (flowed_marker _ _ _ m Hm). cbn [fst snd]. rewrite Hm, Hc, Hs.
  destruct (match_canonical_known _ _ Hc) as [-> _]. cbn [negb andb].
  intros H. eexists. split; [|split; [|exact H]].
  - eapply same_overrides_trans;
      [apply update_layer_overrides | apply marker_state_overrides].
  - by rewrite marker_state_out, update_layer_out.
Qed.

(** ** Stretches without feature markers *)





(** ** Injected temperature commands and the tracked fan duty *)

Lemma fan_re_not_temp x :
  re_match FAN_OFF_RE (chars "M104" ++ x) = None
  /\ re_match FAN_ON_RE (chars "M104" ++ x) = None
  /\ re_match FAN_OFF_RE (chars "M109" ++ x) = None
  /\ re_match FAN_ON_RE (chars "M109" ++ x) = None.
Proof. repeat split; reflexivity. Qed.

Lemma insert_temp_fan cfg t reason st :
  current_fan_pwm (insert_temp cfg t reason st) = current_fan_pwm st.
Proof.
  unfold insert_temp, insert_raw.
  rewrite !app_assoc, closing_no_nl. rewrite <- !app_assoc.
  unfold observe, track_temp_fan, is_match, cmd_temp.
  destruct (fan_re_not_temp (chars " S" ++ fmt_temp t ++ chars " ; set temp ("
                             ++ reason ++ chars ")")) as (H1 & H2 & H3 & H4).
  destruct (wait_temp cfg).
  - rewrite H3, H4.
    repeat case_match; cbn [current_fan_pwm set_current_temp];
      by rewrite (proj2 (track_extrusion_temp _ _)).
  - rewrite H1, H2.
    repeat case_match; cbn [current_fan_pwm set_current_temp];
      by rewrite (proj2 (track_extrusion_temp _ _)).
Qed.

Lemma restore_temp_fan cfg new_temp st :
  current_fan_pwm (restore_temp cfg new_temp st) = current_fan_pwm st.
Proof.
  unfold restore_temp.
  destruct (prev_overrode_temp st), new_temp, (baseline_temp st); try done.
  cbn [current_fan_pwm set_current_temp]. apply insert_temp_fan.
Qed.

Lemma override_temp_fan cfg canon new_temp st :
  current_fan_pwm (override_temp cfg canon new_temp st) = current_fan_pwm st.
Proof.
  unfold override_temp. destruct new_temp as [t|]; [|done].
  cbn [current_fan_pwm set_prev_overrode_temp set_current_temp].
  apply insert_temp_fan.
Qed.

Lemma emit_enter_none cfg canon st :
  feature_gcode_enter cfg !! canon = None -> emit_enter cfg canon st = st.
Proof. unfold emit_enter. by intros ->. Qed.

(** ** What a boundary with a restore leaves *)

Lemma boundary_after_restore_temp cfg B ms st3 t0 :
  feature_temps cfg !! B = None ->
  prev_overrode_temp ms = true ->
  baseline_temp ms = Some t0 ->
  feature_boundary cfg B ms = Ok st3 ->
  baseline_temp st3 = Some t0
  /\ (feature_gcode_enter cfg !! B = None -> current_temp st3 = Some t0).
Proof.
  intros Hn Hp Hb. unfold feature_boundary. rewrite Hn.
  destruct (new_fan_pwm cfg B) as [nf|]; [|done]. intros [= <-].
  pose proof (emit_exit_same cfg ms) as (_ & Ebt & _ & Ept & _).
  assert (Hc : current_temp (restore_fan nf (restore_temp cfg None (emit_exit cfg ms)))
               = Some t0).
  { rewrite restore_fan_temp. unfold restore_temp. by rewrite Ept, Ebt, Hp, Hb. }
  set (s3 := restore_fan nf (restore_temp cfg None (emit_exit cfg ms))) in *.
  cbn [baseline_temp current_temp set_prev_feature_canon]. split.
  - pose proof (boundary_tail_baselines cfg B None nf (snapshot_baselines s3))
      as [Hbt _].
    unfold override_temp in Hbt. by rewrite Hbt.
  - intros He. rewrite override_fan_temp, (emit_enter_none _ _ _ He). done.
Qed.

Lemma boundary_after_restore_fan cfg B ms st3 b0 :
  feature_fans_pct cfg !! B = None ->
  prev_overrode_fan ms = true ->
  baseline_fan_pwm ms = Some b0 ->
  feature_boundary cfg B ms = Ok st3 ->
  baseline_fan_pwm st3 = Some b0
  /\ (feature_gcode_enter cfg !! B = None -> current_fan_pwm st3 = Some b0).
Proof.
  intros Hn Hp Hb. unfold feature_boundary, new_fan_pwm. rewrite Hn. intros [= <-].
  pose proof (same_bookkeeping_trans _ _ _ (emit_exit_same cfg ms)
                (restore_temp_same cfg (feature_temps cfg !! B) _))
    as (_ & _ & Ebf & _ & Epf & _).
  assert (Hc : current_fan_pwm
                 (restore_fan None
                    (restore_temp cfg (feature_temps cfg !! B) (emit_exit cfg ms)))
               = Some b0).
  { unfold restore_fan. by rewrite Epf, Ebf, Hp, Hb. }
  set (s3 := restore_fan None _) in *.
  cbn [baseline_fan_pwm current_fan_pwm set_prev_feature_canon]. split.
  - pose proof (boundary_tail_baselines cfg B (feature_temps cfg !! B) None
                  (snapshot_baselines s3)) as [_ Hbf].
    unfold override_fan in Hbf. by rewrite Hbf.
  - intros He. cbn [override_fan current_fan_pwm set_prev_overrode_fan].
    rewrite override_temp_fan, (emit_enter_none _ _ _ He). done.
Qed.

(** ** Encoding and writing *)

Lemma utf8_encode_app a b :
  utf8_encode (a ++ b)
  = match utf8_encode a, utf8_encode b with
    | Some x, Some y => Some (x ++ y)
    | _, _ => None
    end.
Proof.
  induction a as [|c a IH]; cbn [app utf8_encode].
  - by destruct (utf8_encode b).
  - rewrite IH. destruct (utf8_encode_char c) as [x|]; [|done].
    destruct (utf8_encode a) as [y|]; [|done].
    destruct (utf8_encode b) as [z|]; [|done].
    by rewrite app_assoc.
Qed.

(** The write succeeds exactly when the text of all the lines can be
    encoded, and then it writes that encoding. *)
Lemma write_lines_ok lines data :
  write_lines lines = (data, None) <-> utf8_encode (concat lines) = Some data.
Proof.
  revert data. induction lines as [|l lines IH]; intros data;
    cbn [write_lines concat].
  - cbn [utf8_encode]. split; congruence.
  - rewrite utf8_encode_app. destruct (utf8_encode l) as [b|]; [|split; congruence].
    destruct (write_lines lines) as [d err] eqn:Hw.
    destruct (utf8_encode (concat lines)) as [y|] eqn:Hy.
    + pose proof (proj2 (IH y) eq_refl) as [= -> ->]. split; congruence.
    + split; [|congruence]. intros [= <- ->].
      by pose proof (proj1 (IH d) eq_refl).
Qed.

(** A write that fails fails at the first line that cannot be encoded, with
    the lines before it written. *)
Lemma write_lines_failed lines data e :
  write_lines lines = (data, Some e) ->
  e = UnicodeEncodeError
  /\ exists before l after,
       lines = before ++ l :: after
       /\ utf8_encode l = None
       /\ utf8_encode (concat before) = Some data.
Proof.
  revert data. induction lines as [|l lines IH]; intros data;
    cbn [write_lines]; [done|].
  destruct (utf8_encode l) as [b|] eqn:Hl.
  - destruct (write_lines lines) as [d err] eqn:Hw. intros [= <- ->].
    destruct (IH d eq_refl) as (-> & before & l1 & after & -> & Hl1 & Hb).
    split; [done|]. exists (l :: before), l1, after. split; [done|]. split; [done|].
    cbn [concat]. by rewrite utf8_encode_app, Hl, Hb.
  - intros [= <- <-]. split; [done|]. by exists [], l, lines.
Qed.

(** ** Text that can be encoded *)

Lemma forallb_firstn (q : char -> bool) n s :
  forallb q s = true -> forallb q (firstn n s) = true.
Proof.
  intros H. rewrite <- (firstn_skipn n s), forallb_app in H.
  by apply andb_true_iff in H as [? _].
Qed.

Lemma forallb_skipn (q : char -> bool) n s :
  forallb q s = true -> forallb q (skipn n s) = true.
Proof.
  intros H. rewrite <- (firstn_skipn n s), forallb_app in H.
  by apply andb_true_iff in H as [_ ?].
Qed.

Lemma forallb_rstrip (q : char -> bool) p s :
  forallb q s = true -> forallb q (rstrip_by p s) = true.
Proof.
  intros H. destruct (rstrip_by_spec p s) as [[t Ht] _].
  rewrite Ht, forallb_app in H. by apply andb_true_iff in H as [? _].
Qed.

Lemma forallb_repeat (q : char -> bool) c n :
  q c = true -> forallb q (repeat c n) = true.
Proof. intros H. induction n as [|n IH]; cbn [repeat forallb]; [done|]. by rewrite H. Qed.

Lemma forallb_app_intro (q : char -> bool) a b :
  forallb q a = true -> forallb q b = true -> forallb q (a ++ b) = true.
Proof. intros Ha Hb. by rewrite forallb_app, Ha, Hb. Qed.

Lemma forallb_concat (q : char -> bool) l :
  Forall (fun s => forallb q s = true) l -> forallb q (concat l) = true.
Proof.
  induction 1 as [|s l Hs _ IH]; cbn [concat]; [done|]. by apply forallb_app_intro.
Qed.

Lemma all_latin_chars s : all_latin (chars s) = true.
Proof. unfold chars, all_latin. by induction (list_ascii_of_string s). Qed.

Lemma all_latin_app a b :
  all_latin a = true -> all_latin b = true -> all_latin (a ++ b) = true.
Proof. apply forallb_app_intro. Qed.

Lemma all_latin_cons (a : ascii) s : all_latin s = true -> all_latin (Latin a :: s) = true.
Proof. done. Qed.

Lemma all_latin_zeros n : all_latin (zeros n) = true.
Proof. by apply forallb_repeat. Qed.

Lemma all_latin_sign s : all_latin (sign_str s) = true.
Proof. by destruct s. Qed.

Lemma all_latin_str_of_Z n : all_latin (str_of_Z n) = true.
Proof. apply all_latin_chars. Qed.

Ltac latin :=
  repeat first
    [ apply all_latin_app
    | apply all_latin_cons
    | apply all_latin_chars
    | apply all_latin_str_of_Z
    | apply all_latin_zeros
    | apply all_latin_sign
    | apply forallb_firstn
    | apply forallb_skipn
    | apply forallb_rstrip
    | reflexivity ].

Lemma all_latin_fixed_digits n d : all_latin (fixed_digits n d) = true.
Proof. unfold fixed_digits. destruct d; latin. Qed.

Lemma all_latin_format_f x d : all_latin (format_f x d) = true.
Proof.
  unfold format_f. destruct x; latin; apply all_latin_fixed_digits.
Qed.

Lemma all_latin_fmt_float v d : all_latin (fmt_float v d) = true.
Proof.
  unfold fmt_float.
  assert (H : all_latin
                (if existsb (char_eqb ".") (format_f v d)
                 then rstrip_by (char_eqb ".") (rstrip_by (char_eqb "0") (format_f v d))
                 else format_f v d) = true).
  { destruct (existsb _ _); [|apply all_latin_format_f].
    unfold all_latin. do 2 apply forallb_rstrip. apply all_latin_format_f. }
  destruct (truthy _); [exact H | reflexivity].
Qed.

Lemma all_latin_repr x : all_latin (repr x) = true.
Proof.
  unfold repr. destruct x as [s|s| |s m e]; latin.
  destruct (shortest_from _ _ _ _ _) as [c q]. unfold strip_zeros.
  apply all_latin_app; [latin|].
  destruct (_ && _).
  - destruct (_ <=? 0); [latin|]. destruct (_ <=? _); latin.
  - apply all_latin_app; [latin|]. apply all_latin_app.
    + destruct (skipn 1 _) eqn:E; [done|]. rewrite <- E. latin.
    + apply all_latin_app; [latin|]. apply all_latin_app; [by destruct (_ <? 0)|]. latin.
Qed.

Lemma all_latin_fmt_temp t : all_latin (fmt_temp t) = true.
Proof.
  unfold fmt_temp. destruct (is_integer t); [|apply all_latin_repr].
  destruct (to_Z t); [apply all_latin_str_of_Z | done].
Qed.

Lemma all_latin_encodable s : all_latin s = true -> encodable s = true.
Proof.
  unfold all_latin, encodable. induction s as [|c s IH]; cbn [forallb]; [done|].
  intros [Hc Hs]%andb_true_iff. rewrite (IH Hs). by destruct c.
Qed.

Lemma encodable_app a b : encodable (a ++ b) = encodable a && encodable b.
Proof. apply forallb_app. Qed.

Lemma encodable_encode s : encodable s = true <-> is_Some (utf8_encode s).
Proof.
  induction s as [|c s IH]; cbn [encodable forallb utf8_encode].
  - split; [eauto|done].
  - fold (encodable s). destruct c as [a| |h2 h1 h0 lo]; cbn [utf8_encode_char andb].
    + rewrite IH. destruct (N_of_ascii a <? 128)%N;
        destruct (utf8_encode s); split; intros [? ?]; try done; eauto.
    + rewrite IH. destruct (utf8_encode s); split; intros [? ?]; try done; eauto.
    + split; [done | by intros [? ?]].
Qed.

Lemma canonical_latin c : c ∈ canonical_names -> all_latin c = true.
Proof.
  unfold canonical_names. intros (x & -> & _)%list_elem_of_fmap. apply all_latin_chars.
Qed.

Lemma py_partition_app sep s a b r : py_partition sep s = (a, b, r) -> s = a ++ b ++ r.
Proof.
  revert a b r. induction s as [|c s IH]; intros a b r; cbn [py_partition].
  - by intros [= <- <- <-].
  - destruct (char_eqb c sep); [by intros [= <- <- <-]|].
    destruct (py_partition sep s) as [[a' b'] r'].
    intros [= <- <- <-]. cbn [app]. f_equal. by apply IH.
Qed.

Lemma apply_flow_encodable cfg l f st :
  encodable l = true -> encodable (apply_flow_to_line cfg l f st).1 = true.
Proof.
  intros Hl. unfold apply_flow_to_line.
  destruct f as [f|]; [|done].
  destruct (ltb _ _); [done|].
  destruct (py_partition ";" l) as [[code_part sep] comment] eqn:Hp.
  destruct (negb _); [done|].
  destruct (re_search E_WORD_RE code_part) as [m_e|]; [|done].
  destruct (of_str _) as [e_val|]; [|done].
  destruct (leb _ _); [done|].
  destruct (span1 m_e) as [start stop]. cbn [fst].
  apply py_partition_app in Hp. rewrite Hp, !encodable_app in Hl.
  apply andb_true_iff in Hl as [Hc [Hs Hm]%andb_true_iff].
  rewrite !encodable_app.
  rewrite (forallb_firstn _ _ _ Hc), (forallb_skipn _ _ _ Hc).
  rewrite (all_latin_encodable _ (all_latin_fmt_float _ _)).
  destruct (truthy sep); [by rewrite encodable_app, Hs, Hm | done].
Qed.

Lemma rewritten_encodable cfg l st :
  encodable l = true -> encodable (rewritten cfg l st) = true.
Proof.
  intros Hl. unfold rewritten. destruct (flow_factor _ _ _); [|done].
  by apply apply_flow_encodable.
Qed.

Lemma with_nl_encodable s : encodable s = true -> encodable (with_nl s) = true.
Proof.
  intros H. unfold with_nl. destruct (ends_with_nl s); [done|].
  by rewrite encodable_app, H.
Qed.

Lemma temp_line_encodable cfg t reason :
  all_latin reason = true -> encodable (temp_line cfg t reason) = true.
Proof.
  intros H. apply all_latin_encodable. unfold temp_line, cmd_temp.
  destruct (wait_temp cfg); latin; try apply all_latin_fmt_temp; by latin.
Qed.

Lemma fan_line_encodable p reason :
  all_latin reason = true -> encodable (fan_line p reason) = true.
Proof.
  intros H. apply all_latin_encodable. unfold fan_line. latin; by latin.
Qed.

Lemma tagged_encodable (tag name : str) gcs :
  all_latin tag = true -> all_latin name = true ->
  Forall (fun gc => encodable gc = true) gcs ->
  Forall (fun l => encodable l = true)
    (map (fun gc => with_nl (gc ++ tag ++ name)) gcs).
Proof.
  intros Ht Hn. induction 1 as [|gc gcs Hgc _ IH]; cbn [map]; constructor; [|done].
  apply with_nl_encodable. rewrite !encodable_app, Hgc.
  by rewrite (all_latin_encodable _ Ht), (all_latin_encodable _ Hn).
Qed.

Lemma boundary_block_encodable cfg c new_fan st :
  gcodes_encodable cfg ->
  known_feature (prev_feature_canon st) ->
  c ∈ canonical_names ->
  Forall (fun l => encodable l = true) (boundary_block cfg c new_fan st).
Proof.
  intros [Hen Hex] Hprev Hc. pose proof (canonical_latin _ Hc) as Hlc.
  unfold boundary_block. repeat apply Forall_app_2.
  - unfold exit_lines. destruct (prev_feature_canon st) as [p|]; [|constructor].
    destruct (truthy p); [|constructor].
    apply tagged_encodable; [done | by apply canonical_latin |].
    destruct (feature_gcode_exit cfg !! p) as [gcs|] eqn:E; [|constructor].
    by apply (Hex p).
  - unfold restore_temp_lines.
    destruct (prev_overrode_temp st), (feature_temps cfg !! c), (baseline_temp st);
      try constructor; [|constructor]. by apply temp_line_encodable.
  - unfold restore_fan_lines.
    destruct (prev_overrode_fan st), new_fan, (baseline_fan_pwm st);
      try constructor; [|constructor]. by apply fan_line_encodable.
  - unfold enter_lines. apply tagged_encodable; [done|done|].
    destruct (feature_gcode_enter cfg !! c) as [gcs|] eqn:E; [|constructor].
    by apply (Hen c).
  - unfold set_temp_lines. destruct (feature_temps cfg !! c); constructor; [|constructor].
    by apply temp_line_encodable.
  - unfold set_fan_lines. destruct new_fan; constructor; [|constructor].
    by apply fan_line_encodable.
Qed.

(** An iteration that takes the feature boundary takes it for a canonical
    name. *)
Lemma process_line_fires_known cfg l st st' :
  fires_boundary cfg l st = true ->
  process_line cfg l st = Ok st' ->
  exists c new_fan,
    c ∈ canonical_names
    /\ out_lines st' = out_lines st ++ rewritten cfg l st
                       :: boundary_block cfg c new_fan st.
Proof.
  unfold fires_boundary. rewrite process_line_eq. cbv zeta.
  rewrite flowed_fst.
  destruct (re_match TYPE_PREFIX_RE _) as [m|]; [|done].
  destruct (match_canonical _) as [c|] eqn:Hc; [|done].
  intros ->. intros (new_fan & Hf & Hout)%feature_boundary_out.
  exists c, new_fan. split; [by apply match_canonical_known in Hc as [_ ?]|].
  rewrite Hout, marker_state_out, flowed_out, <- app_assoc. simpl. do 2 f_equal.
  pose proof (same_overrides_trans _ _ _ (flowed_overrides cfg l st)
    (marker_state_overrides (rewritten cfg l st) (Some c) _)) as (?&?&?&?&?&_).
  by apply boundary_block_ext.
Qed.

Lemma process_line_encodable cfg l st st' :
  gcodes_encodable cfg ->
  known_feature (prev_feature_canon st) ->
  encodable l = true ->
  Forall (fun x => encodable x = true) (out_lines st) ->
  process_line cfg l st = Ok st' ->
  Forall (fun x => encodable x = true) (out_lines st').
Proof.
  intros Hg Hprev Hl Hout Hp. destruct (fires_boundary cfg l st) eqn:Hf.
  - destruct (process_line_fires_known _ _ _ _ Hf Hp) as (c & nf & Hc & ->).
    apply Forall_app_2; [done|]. constructor; [by apply rewritten_encodable|].
    by apply boundary_block_encodable.
  - destruct (process_line_quiet _ _ _ Hf) as (st1 & Hp1 & Ho).
    rewrite Hp in Hp1. injection Hp1 as <-. rewrite Ho.
    apply Forall_app_2; [done|]. constructor; [by apply rewritten_encodable|constructor].
Qed.

Lemma main_loop_encodable cfg lines : forall st st',
  gcodes_encodable cfg ->
  known_feature (prev_feature_canon st) ->
  known_feature (current_feature_canon st) ->
  Forall (fun x => encodable x = true) lines ->
  Forall (fun x => encodable x = true) (out_lines st) ->
  main_loop cfg lines st = Ok st' ->
  Forall (fun x => encodable x = true) (out_lines st').
Proof.
  induction lines as [|l lines IH]; intros st st' Hg Hp Hc Hl Ho; cbn [main_loop].
  - by intros [= <-].
  - destruct (process_line cfg l st) as [st1|] eqn:H1; [|done].
    apply Forall_cons in Hl as [Hl Hls].
    destruct (process_line_names _ _ _ _ Hp Hc H1) as [Hp1 Hc1].
    apply IH; try done. by apply (process_line_encodable cfg l st).
Qed.

(** ** Decoding *)

Lemma text_of_codes_encodable l s : text_of_codes l = Some s -> encodable s = true.
Proof.
  revert s. induction l as [|n l IH]; intros s; cbn [text_of_codes].
  - by intros [= <-].
  - unfold char_of_code.
    destruct (n <? 256)%N.
    + destruct (text_of_codes l) as [s'|]; [|done]. intros [= <-].
      cbn [encodable forallb]. by apply IH.
    + destruct (n =? replacement_code)%N; [|done].
      destruct (text_of_codes l) as [s'|]; [|done]. intros [= <-].
      cbn [encodable forallb]. by apply IH.
Qed.

Lemma translate_newlines_encodable s : forall b,
  encodable s = true -> encodable (translate_newlines b s) = true.
Proof.
  induction s as [|c s IH]; intros b; cbn [translate_newlines encodable forallb];
    [done|].
  intros [Hc Hs]%andb_true_iff. fold (encodable s) in Hs.
  destruct (char_eqb c cr); [by apply IH|].
  destruct (char_eqb c nl && b); [by apply IH|].
  cbn [encodable forallb]. rewrite Hc. by apply IH.
Qed.

Lemma split_lines_encodable s : forall cur,
  encodable cur = true -> encodable s = true ->
  Forall (fun l => encodable l = true) (split_lines cur s).
Proof.
  assert (Hrev : forall x, encodable x = true -> encodable (rev x) = true).
  { intros x Hx. unfold encodable in *. rewrite forallb_forall in *.
    intros c Hc. apply Hx. by apply in_rev. }
  induction s as [|c s IH]; intros cur Hcur; cbn [split_lines encodable forallb].
  - intros _. destruct cur; constructor; [by apply Hrev | constructor].
  - intros [Hc Hs]%andb_true_iff. fold (encodable s) in Hs.
    assert (Hcc : encodable (c :: cur) = true).
    { cbn [encodable forallb]. by rewrite Hc. }
    destruct (char_eqb c nl); [constructor; [by apply Hrev | by apply IH] | by apply IH].
Qed.

Lemma readlines_encodable raw text :
  decode_text raw = Some text ->
  Forall (fun l => encodable l = true) (readlines text).
Proof.
  intros H%text_of_codes_encodable. unfold readlines.
  apply split_lines_encodable; [done|]. by apply translate_newlines_encodable.
Qed.

(** Bytes below 128 are their own text and their own encoding. *)
Lemma byte_round_trip b : byte_of_N (Byte.to_N b) = b.
Proof. by destruct b. Qed.

Lemma ascii_of_small b :
  (Byte.to_N b <? 256)%N = true
  /\ ascii_of_N (Byte.to_N b) = ascii_of_byte b
  /\ N_of_ascii (ascii_of_byte b) = Byte.to_N b.
Proof. by destruct b. Qed.

Lemma ascii_decode data :
  ascii_only data = true -> decode_text data = Some (text_of_ascii data).
Proof.
  unfold decode_text, text_of_ascii, ascii_only.
  induction data as [|b data IH]; cbn [forallb map utf8_decode text_of_codes]; [done|].
  intros [Hb Hd]%andb_true_iff. rewrite Hb. cbn [text_of_codes].
  rewrite (IH Hd). unfold char_of_code.
  destruct (ascii_of_small b) as (-> & -> & _). done.
Qed.

Lemma ascii_encode data :
  ascii_only data = true -> utf8_encode (text_of_ascii data) = Some data.
Proof.
  unfold text_of_ascii, ascii_only.
  induction data as [|b data IH]; cbn [forallb map utf8_encode]; [done|].
  intros [Hb Hd]%andb_true_iff. rewrite (IH Hd). cbn [utf8_encode_char].
  destruct (ascii_of_small b) as (_ & _ & ->). rewrite Hb.
  by rewrite byte_round_trip.
Qed.

Lemma ascii_no_cr data :
  no_cr_byte data = true -> no_cr (text_of_ascii data).
Proof.
  unfold no_cr, no_cr_byte, text_of_ascii.
  induction data as [|b data IH]; cbn [forallb map]; [done|].
  intros [Hb Hd]%andb_true_iff. rewrite (IH Hd), andb_true_r.
  revert Hb. by destruct b.
Qed.

(** ** Runs that write the file *)

(** The run on a file that is read, when the pass completes with lines that
    can all be encoded. *)
Lemma run_writes cfg input_file raw text files st :
  files !! input_file = Some raw ->
  decode_text raw = Some text ->
  run_pass cfg (readlines text) = Ok st ->
  Forall (fun l => encodable l = true) (out_lines st) ->
  exists data,
    utf8_encode (writelines (out_lines st)) = Some data
    /\ process_gcode cfg input_file files
       = Some {| files_after := <[ input_file := data ]> files;
                 events := [OpenWrite input_file; WriteData input_file data];
                 exit_status := 0 |}.
Proof.
  intros Hf Hd Hr Henc.
  assert (He : encodable (writelines (out_lines st)) = true).
  { unfold writelines. by apply forallb_concat. }
  apply encodable_encode in He as [data Hdata]. exists data. split; [done|].
  unfold process_gcode, write_back. rewrite Hf, Hd, Hr.
  by rewrite (proj2 (write_lines_ok _ _) Hdata).
Qed.

Lemma plain_run cfg input_file raw text files :
  is_plain cfg ->
  files !! input_file = Some raw ->
  decode_text raw = Some text ->
  exists data,
    utf8_encode (translate_newlines false text) = Some data
    /\ process_gcode cfg input_file files
       = Some {| files_after := <[ input_file := data ]> files;
                 events := [OpenWrite input_file; WriteData input_file data];
                 exit_status := 0 |}
    /\ (ascii_only raw = true -> no_cr_byte raw = true ->
        data = raw /\ <[ input_file := data ]> files = files).
Proof.
  intros Hp Hf Hd.
  destruct (plain_loop cfg (readlines text)
              (reset_state (first_loop (readlines text) initial_state)) Hp)
    as (st & Hr & Hout); [done|done|].
  cbn [out_lines reset_state app] in Hout.
  destruct (run_writes cfg input_file raw text files st Hf Hd Hr) as (data & He & Hrun).
  { rewrite Hout. by apply (readlines_encodable raw). }
  assert (Hw : writelines (out_lines st) = translate_newlines false text).
  { rewrite Hout. unfold writelines, readlines. by rewrite split_lines_concat. }
  rewrite Hw in He. exists data. split; [done|]. split; [done|].
  intros Ha Hn. rewrite (ascii_decode _ Ha) in Hd. injection Hd as <-.
  rewrite (translate_no_cr _ (ascii_no_cr _ Hn)), (ascii_encode _ Ha) in He.
  injection He as <-. split; [done|]. by apply insert_id.
Qed.
(** * Properties *)

(** ** The layer counter *)

(** C1 (the code departs from the claim): a [;LAYER_CHANGE] or
    [;BEFORE_LAYER_CHANGE] line raises [current_layer] twice, not once.  The
    main loop calls [update_layer_from_line] at the top of the iteration
    and again at its end; such a line is neither an explicit layer index
    nor a feature marker, so the layer-change rule fires in both calls:
    [n] becomes [n + 2] (and the sentinel [-1] becomes [1]).  The line
    itself is written unchanged. *)
Theorem C1_layer_change_counted_twice cfg l st :
  is_match LAYER_CHANGE_RE l = true ->
  exists st',
    process_line cfg l st = Ok st'
    /\ current_layer st' = next_layer (next_layer (current_layer st))
    /\ out_lines st' = out_lines st ++ [l].
Proof.
  intros H. rewrite process_line_eq. cbv zeta.
  assert (Hfl : flowed cfg l st
                = (l, update_layer_from_line l (processed_line st) st)).
  { unfold flowed. rewrite (update_layer_on_change _ _ _ H). done. }
  rewrite Hfl. cbn [fst snd]. rewrite (layer_change_not_type _ H).
  eexists. split; [done|].
  rewrite !(update_layer_on_change _ _ _ H).
  cbn [current_layer out_lines set_current_feature_canon set_current_layer].
  pose proof (observe_same (rstrip_nl l)
    (append_out l (set_processed_line l
       (set_current_feature_canon None
          (set_current_layer (next_layer (current_layer st)) st)))))
    as (_&_&_&_&_&_&_&Hl&_).
  rewrite Hl, observe_out. done.
Qed.

(** The failing input of C1: on the one-line document [;LAYER_CHANGE] the
    pass starts at layer 0 and the iteration ends at layer 2. *)
Lemma C1_witness_single_marker :
  exists st',
    process_line no_overrides (line ";LAYER_CHANGE")
      (start_state doc_layer_change) = Ok st'
    /\ current_layer st'
       = next_layer (next_layer (current_layer (start_state doc_layer_change)))
    /\ out_lines st'
       = out_lines (start_state doc_layer_change) ++ [line ";LAYER_CHANGE"].
Proof.
  apply (C1_layer_change_counted_twice no_overrides (line ";LAYER_CHANGE")
           (start_state doc_layer_change)).
  vm_compute. reflexivity.
Defined.

(** The same run, step by step: layer 0 at the start, 1 after the call at
    the top of the iteration, 2 at the end of the pass. *)
Example layer_change_trace :
  current_layer (start_state doc_layer_change) = 0
  /\ current_layer
       (update_layer_from_line (line ";LAYER_CHANGE")
          (processed_line (start_state doc_layer_change))
          (start_state doc_layer_change)) = 1
  /\ (current_layer <$> state_of (run_pass no_overrides doc_layer_change))
     = Some 2.
Proof. vm_compute. repeat split; reflexivity. Qed.

(** C2 (the code departs from the claim): [last_z] is first seeded from the
    LAST line of the document.  The first loop leaves the last line in
    [processed_line], whatever the document, and the first call of
    [update_layer_from_line] in the main loop reads that stale value.  On
    [G1 Z0.2] followed by [G1 Z0.1] the seed is 0.1, so the Z of the first
    motion line, 0.2, counts as a rise: the layer is already 1 after the
    first line. *)
Theorem C2_last_z_seeded_from_last_line (lines : list str) :
  processed_line (start_state lines) = List.last lines []
  /\ (let st0 := start_state doc_falling_z in
      last_z (update_layer_from_line (line "G1 Z0.2") (processed_line st0) st0)
      = of_str (chars "0.1")
      /\ ((fun st => (current_layer st, last_z st))
            <$> state_of (process_line no_overrides (line "G1 Z0.2") st0))
         = Some (1, of_str (chars "0.2"))).
Proof.
  split.
  - unfold start_state, reset_state. cbn [processed_line]. apply first_loop_last.
  - vm_compute. repeat split; reflexivity.
Qed.

(** C4 (the code departs from the claim): the sentinel [-1] is assigned
    when the variables are first set up, but the assignments between the two
    loops put [current_layer] back to [0], so the main loop starts at layer
    0 on every document and a document without any layer signal ends at
    layer 0. *)
Theorem C4_pass_starts_at_layer_zero (lines : list str) :
  current_layer initial_state = -1
  /\ current_layer (start_state lines) = 0
  /\ (current_layer <$> state_of (run_pass no_overrides doc_no_signal))
     = Some 0.
Proof. split; [reflexivity|]. split; [reflexivity|]. vm_compute. reflexivity. Qed.

(** ** Feature markers and what is injected *)

(** C3, as stated, fails: with bridges at 210 degrees the one-line document
    [;TYPE:bridge] comes out as the marker followed by the injected
    temperature command; the injected line does not precede the marker. *)
Lemma C3_counterexample_injection_after_marker :
  (out_lines <$> state_of (run_pass bridge_210 doc_bridge))
  = Some [line ";TYPE:bridge"; line "M104 S210 ; set temp (bridge)"]
  /\ ~ (exists pre post,
          [line ";TYPE:bridge"; line "M104 S210 ; set temp (bridge)"]
          = pre ++ line "M104 S210 ; set temp (bridge)"
                :: line ";TYPE:bridge" :: post).
Proof.
  split; [vm_compute; reflexivity|].
  intros (pre & post & H).
  destruct pre as [|a [|b pre]]; simpl in H.
  - vm_compute in H. discriminate H.
  - injection H as _ H. vm_compute in H. discriminate H.
  - injection H as _ _ H. by destruct pre.
Qed.

(** C3, amended: for every feature marker line, the iteration appends the
    marker itself, unchanged.  If the text of the marker is not recognised,
    or the layer is skipped, it appends nothing else.  If the text is
    recognised and the layer is not skipped, it appends right after the
    marker, as one block and in this order, the exit commands of the
    previous feature, the restore commands, the enter commands and the
    override commands of the new feature. *)
Theorem C3_injected_block_follows_marker cfg l st st' m :
  re_match TYPE_PREFIX_RE l = Some m ->
  process_line cfg l st = Ok st' ->
  match match_canonical (group1 m l) with
  | Some c =>
      if skip_active cfg (update_layer_from_line l (processed_line st) st)
      then out_lines st' = out_lines st ++ [l]
      else exists new_fan,
             new_fan_pwm cfg c = Ok new_fan
             /\ out_lines st'
                = out_lines st
                  ++ l :: exit_lines cfg st ++ restore_temp_lines cfg c st
                  ++ restore_fan_lines new_fan st ++ enter_lines cfg c
                  ++ set_temp_lines cfg c ++ set_fan_lines new_fan c
  | None => out_lines st' = out_lines st ++ [l]
  end.
Proof.
  intros Hm Hp. pose proof (process_line_marker _ _ _ _ _ Hm Hp) as H.
  cbv zeta in H. destruct (match_canonical (group1 m l)) as [c|] eqn:Hc.
  - destruct (match_canonical_known _ _ Hc) as [Ht _]. rewrite Ht, andb_true_r in H.
    destruct (skip_active cfg _); cbn [negb] in H.
    + by destruct H as [-> _].
    + destruct H as (new_fan & Hf & ->). by exists new_fan.
  - by destruct H as [-> _].
Qed.

(** The amended C3 on the bridge marker of the one-line document. *)
Lemma C3_witness_bridge_marker :
  match match_canonical
          (group1 {| m_end := 12; m_span := Some (6, 12)%nat |} (line ";TYPE:bridge"))
  with
  | Some c =>
      if skip_active bridge_210
           (update_layer_from_line (line ";TYPE:bridge")
              (processed_line (start_state doc_bridge)) (start_state doc_bridge))
      then out_lines (state_after bridge_210 doc_bridge)
           = out_lines (start_state doc_bridge) ++ [line ";TYPE:bridge"]
      else exists new_fan,
             new_fan_pwm bridge_210 c = Ok new_fan
             /\ out_lines (state_after bridge_210 doc_bridge)
                = out_lines (start_state doc_bridge)
                  ++ line ";TYPE:bridge"
                  :: exit_lines bridge_210 (start_state doc_bridge)
                  ++ restore_temp_lines bridge_210 c (start_state doc_bridge)
                  ++ restore_fan_lines new_fan (start_state doc_bridge)
                  ++ enter_lines bridge_210 c
                  ++ set_temp_lines bridge_210 c ++ set_fan_lines new_fan c
  | None => out_lines (state_after bridge_210 doc_bridge)
            = out_lines (start_state doc_bridge) ++ [line ";TYPE:bridge"]
  end.
Proof.
  apply (C3_injected_block_follows_marker bridge_210 (line ";TYPE:bridge")
           (start_state doc_bridge) (state_after bridge_210 doc_bridge)
           {| m_end := 12; m_span := Some (6, 12)%nat |});
    vm_compute; reflexivity.
Defined.

(** The same marker in a skipped first layer: only the marker is written. *)
Example skipped_bridge_marker_output :
  (out_lines <$> state_of (run_pass bridge_210_skip_1 doc_bridge))
  = Some [line ";TYPE:bridge"].
Proof. vm_compute. reflexivity. Qed.

(** ** Restoring the baseline *)

(** C6, as stated, fails: bridges are printed at 210 degrees and nothing
    set a temperature before the bridge, so no baseline was recorded.  At
    the following infill marker the previous feature has an active
    override and the new one defines none, the boundary branch is taken,
    and yet only the marker is written: no restore command. *)
Lemma C6_counterexample_no_baseline_no_restore :
  let st := state_at bridge_210 doc_bridge_infill 1 in
  prev_overrode_temp st = true
  /\ feature_temps bridge_210 !! chars "infill" = None
  /\ fires_boundary bridge_210 (line ";TYPE:infill") st = true
  /\ baseline_temp st = None
  /\ (out_lines <$> state_of (process_line bridge_210 (line ";TYPE:infill") st))
     = Some (out_lines st ++ [line ";TYPE:infill"]).
Proof. vm_compute. repeat split; reflexivity. Qed.

(** C6, amended.  The pass enters a feature A at a boundary taken in [st];
    the lines that follow take no boundary; then the marker of a feature B
    is reached outside the skipped layers.  If A has a temperature override
    and B has none, and a temperature was tracked at the snapshot of the
    boundary into A, that is after the exit commands of the feature before
    A and the restore, before the enter commands and the override of A,
    then the boundary into B appends, right after the exit commands of A,
    the restore command for exactly that temperature; the baseline recorded
    next is that temperature, and it is the tracked temperature at the end
    of the boundary if B has no enter commands.  If no temperature was
    tracked at that snapshot, no temperature command is written at all.
    The same holds for the fan, where the command carries the duty clamped
    to 0..255. *)
Theorem C6_restore_targets_recorded_baseline cfg A B st st1 lines st2 lB m st3 :
  feature_boundary cfg A st = Ok st1 ->
  quiet cfg lines st1 = true ->
  main_loop cfg lines st1 = Ok st2 ->
  re_match TYPE_PREFIX_RE lB = Some m ->
  match_canonical (group1 m lB) = Some B ->
  skip_active cfg (update_layer_from_line lB (processed_line st2) st2) = false ->
  process_line cfg lB st2 = Ok st3 ->
  (is_Some (feature_temps cfg !! A) -> feature_temps cfg !! B = None ->
   match current_temp (before_snapshot cfg A st) with
   | Some t0 =>
       (exists rest,
          out_lines st3 = out_lines st2 ++ lB :: exit_lines cfg st2
                          ++ temp_line cfg t0 restore_reason :: rest)
       /\ baseline_temp st3 = Some t0
       /\ (feature_gcode_enter cfg !! B = None -> current_temp st3 = Some t0)
   | None =>
       exists new_fan,
         out_lines st3 = out_lines st2 ++ lB :: exit_lines cfg st2
                         ++ restore_fan_lines new_fan st2 ++ enter_lines cfg B
                         ++ set_fan_lines new_fan B
   end)
  /\ (is_Some (feature_fans_pct cfg !! A) -> feature_fans_pct cfg !! B = None ->
      match current_fan_pwm (before_snapshot cfg A st) with
      | Some b0 =>
          (exists rest,
             out_lines st3 = out_lines st2 ++ lB :: exit_lines cfg st2
                             ++ restore_temp_lines cfg B st2
                             ++ fan_line b0 restore_reason :: rest)
          /\ baseline_fan_pwm st3 = Some b0
          /\ (feature_gcode_enter cfg !! B = None -> current_fan_pwm st3 = Some b0)
      | None =>
          out_lines st3 = out_lines st2 ++ lB :: exit_lines cfg st2
                          ++ restore_temp_lines cfg B st2 ++ enter_lines cfg B
                          ++ set_temp_lines cfg B
      end).
Proof.
  intros HA Hq Hl Hm HB Hs Hp.
  destruct (feature_boundary_snapshot _ _ _ _ HA) as [Hbt1 Hbf1].
  destruct (feature_boundary_flags _ _ _ _ HA) as (nfA & HnfA & Hpt1 & Hpf1 & _).
  destruct (main_loop_quiet_overrides _ _ _ _ Hq Hl) as (Hpt2 & Hpf2 & Hbt2 & Hbf2).
  pose proof (process_line_marker _ _ _ _ _ Hm Hp) as Hblock. cbv zeta in Hblock.
  rewrite HB, Hs in Hblock. destruct (match_canonical_known _ _ HB) as [HtB _].
  rewrite HtB in Hblock. cbn [negb andb] in Hblock.
  destruct Hblock as (nfB & HnfB & Hout).
  destruct (process_line_boundary _ _ _ _ _ _ Hm HB Hs Hp) as (ms & Hso & _ & Hfb).
  destruct Hso as (_ & Hms_pt & Hms_pf & Hms_bt & Hms_bf & _).
  split.
  - intros HtA HnB.
    assert (Hpt : prev_overrode_temp st2 = true).
    { rewrite Hpt2, Hpt1. by apply bool_decide_eq_true_2. }
    assert (Hbt : baseline_temp st2 = current_temp (before_snapshot cfg A st))
      by congruence.
    destruct (current_temp (before_snapshot cfg A st)) as [t0|].
    + split; [|].
      * rewrite Hout. unfold boundary_block, restore_temp_lines.
        rewrite Hpt, HnB, Hbt. cbn [app]. eauto.
      * apply (boundary_after_restore_temp cfg B ms st3 t0); [done| | |done]; congruence.
    + exists nfB. rewrite Hout. unfold boundary_block, restore_temp_lines, set_temp_lines.
      rewrite Hpt, HnB, Hbt. by cbn [app].
  - intros HfA HnB.
    assert (nfB = None) as ->.
    { unfold new_fan_pwm in HnfB. rewrite HnB in HnfB. congruence. }
    assert (Hpf : prev_overrode_fan st2 = true).
    { rewrite Hpf2, Hpf1. apply bool_decide_eq_true_2.
      destruct HfA as [pct Hpct]. unfold new_fan_pwm in HnfA. rewrite Hpct in HnfA.
      destruct (pct_to_pwm pct); [|done]. injection HnfA as <-. eauto. }
    assert (Hbf : baseline_fan_pwm st2 = current_fan_pwm (before_snapshot cfg A st))
      by congruence.
    destruct (current_fan_pwm (before_snapshot cfg A st)) as [b0|].
    + split; [|].
      * rewrite Hout. unfold boundary_block, restore_fan_lines.
        rewrite Hpf, Hbf. cbn [app]. eauto.
      * apply (boundary_after_restore_fan cfg B ms st3 b0); [done| | |done]; congruence.
    + rewrite Hout. unfold boundary_block, restore_fan_lines, set_fan_lines.
      rewrite Hpf, Hbf. cbn [app]. by rewrite app_nil_r.
Qed.

(** The amended C6 where 200 degrees were set before the bridge: the
    boundary into the bridge records 200, and the infill boundary restores
    200. *)
Lemma C6_witness_heated_bridge :
  let st2 := state_at bridge_210 doc_heated_bridge_infill 2 in
  let st3 := step_after bridge_210 (line ";TYPE:infill") st2 in
  (exists rest,
     out_lines st3 = out_lines st2 ++ line ";TYPE:infill" :: exit_lines bridge_210 st2
                     ++ temp_line bridge_210 (of_Z 200) restore_reason :: rest)
  /\ baseline_temp st3 = Some (of_Z 200)
  /\ (feature_gcode_enter bridge_210 !! chars "infill" = None ->
      current_temp st3 = Some (of_Z 200)).
Proof.
  cbv zeta.
  set (st := marker_state (line ";TYPE:bridge") (Some (chars "bridge"))
               (flowed bridge_210 (line ";TYPE:bridge")
                  (state_at bridge_210 doc_heated_bridge_infill 1)).2).
  destruct (C6_restore_targets_recorded_baseline bridge_210
              (chars "bridge") (chars "infill") st
              (state_at bridge_210 doc_heated_bridge_infill 2) []
              (state_at bridge_210 doc_heated_bridge_infill 2)
              (line ";TYPE:infill") {| m_end := 12; m_span := Some (6, 12)%nat |}
              (step_after bridge_210 (line ";TYPE:infill")
                 (state_at bridge_210 doc_heated_bridge_infill 2)))
    as [Ht _]; try (vm_compute; reflexivity).
  assert (Hs : is_Some (feature_temps bridge_210 !! chars "bridge")).
  { exists (of_Z 210). vm_compute. reflexivity. }
  assert (Hn : feature_temps bridge_210 !! chars "infill" = None)
    by (vm_compute; reflexivity).
  specialize (Ht Hs Hn).
  assert (Hbase : current_temp (before_snapshot bridge_210 (chars "bridge") st)
                  = Some (of_Z 200)) by (vm_compute; reflexivity).
  rewrite Hbase in Ht. exact Ht.
Defined.

(** The scenario of the claim, run as a whole: the temperature in effect
    before the bridge, 200, is what the restore command carries. *)
Example heated_bridge_infill_output :
  (out_lines <$> state_of (run_pass bridge_210 doc_heated_bridge_infill))
  = Some [line "M104 S200"; line ";TYPE:bridge";
          line "M104 S210 ; set temp (bridge)"; line ";TYPE:infill";
          line "M104 S200 ; set temp (restore baseline at feature boundary)"].
Proof. vm_compute. reflexivity. Qed.

(** ** Layers left untouched *)

(** C7, as stated, fails: one layer is to be skipped and the document
    starts with the raft marker [;LAYER:-1].  On the bridge marker that
    follows, [current_layer] is [-1], below the limit 1, and the
    temperature command is injected all the same: the skip test also asks
    for [current_layer >= 0]. *)
Lemma C7_counterexample_negative_layer_not_skipped :
  let st := state_at bridge_210_skip_1 doc_raft_bridge 1 in
  current_layer
    (update_layer_from_line (line ";TYPE:bridge") (processed_line st) st) = -1
  /\ -1 < skip_first_layers bridge_210_skip_1
  /\ (out_lines <$> state_of (process_line bridge_210_skip_1 (line ";TYPE:bridge") st))
     = Some (out_lines st
             ++ [line ";TYPE:bridge"; line "M104 S210 ; set temp (bridge)"]).
Proof. vm_compute. repeat split; reflexivity. Qed.

(** C7, amended: with [skip_first_layers = N > 0], an iteration whose layer,
    as updated at the top of the iteration, lies in [0 <= current_layer < N]
    ends normally and appends exactly the input line: no flow rewriting and
    no injected temperature, fan or custom command. *)
Theorem C7_skipped_layers_pass_through cfg line st :
  0 < skip_first_layers cfg ->
  0 <= current_layer (update_layer_from_line line (processed_line st) st)
     < skip_first_layers cfg ->
  exists st',
    process_line cfg line st = Ok st'
    /\ out_lines st' = out_lines st ++ [line]
    /\ rewritten cfg line st = line
    /\ fires_boundary cfg line st = false.
Proof.
  intros HN [H0 H1].
  assert (Hskip : skip_active cfg
            (update_layer_from_line line (processed_line st) st) = true).
  { unfold skip_active. apply andb_true_iff. split; [apply andb_true_iff; split|].
    - by apply Z.ltb_lt.
    - by apply Z.leb_le.
    - by apply Z.ltb_lt. }
  assert (Hrw : rewritten cfg line st = line).
  { unfold rewritten. by rewrite Hskip, flow_factor_skipped. }
  assert (Hf : fires_boundary cfg line st = false).
  { unfold fires_boundary. rewrite Hskip, Hrw.
    destruct (re_match TYPE_PREFIX_RE line); [|done].
    by destruct (match_canonical _). }
  destruct (process_line_quiet _ _ _ Hf) as (st' & Hp & Hout).
  exists st'. rewrite Hrw in Hout. done.
Qed.

(** The amended C7 on a bridge marker in layer 0 with one layer skipped. *)
Lemma C7_witness_first_layer_marker :
  exists st',
    process_line bridge_210_skip_1 (line ";TYPE:bridge")
      (start_state doc_bridge) = Ok st'
    /\ out_lines st' = out_lines (start_state doc_bridge) ++ [line ";TYPE:bridge"]
    /\ rewritten bridge_210_skip_1 (line ";TYPE:bridge") (start_state doc_bridge)
       = line ";TYPE:bridge"
    /\ fires_boundary bridge_210_skip_1 (line ";TYPE:bridge")
         (start_state doc_bridge) = false.
Proof.
  apply (C7_skipped_layers_pass_through bridge_210_skip_1 (line ";TYPE:bridge")
           (start_state doc_bridge)); vm_compute; [reflexivity|].
  split; [discriminate | reflexivity].
Defined.

(** ** Exit commands that are never written *)




(** The sample run as a whole: the exit command configured for bridges,
    [M117 bridge done], is nowhere in the output. *)
Example unknown_marker_output :
  (out_lines <$> state_of (run_pass bridge_exit doc_unknown_marker))
  = Some [line ";TYPE:bridge"; line ";TYPE:Skirt"; line ";TYPE:infill";
          line "G1 X1"].
Proof. vm_compute. reflexivity. Qed.

(** ** The flow rewriter *)

(** C5: with a flow factor [f] that differs from 1.0 by more than 1e-12, on
    a motion line whose code part carries an extrusion word with value
    [e_val], let [delta] be [e_val] in relative mode and [e_val] minus the
    accumulator in absolute mode.  If [delta <= 0] the line comes back
    unchanged and the accumulator becomes [e_val] in absolute mode.  If
    [delta > 0] only the numeric token after [E] is replaced, by
    [fmt_float] of [delta * f] (relative) or of the accumulator plus
    [delta * f] (absolute); that text has at most [flow_decimals] digits
    after the point, no trailing zero there and no trailing point
    ([trimmed_decimal]); the text before the token, the text after it, the
    separator and the comment stay in place, and in absolute mode the
    accumulator becomes the new value.  On [; TYPE: infill] followed by [G1 X10 E5], with the infill
    flow factor 1.1 and the accumulator at 0, the output line is
    [G1 X10 E5.5]. *)
Theorem C5_flow_rewrites_positive_extrusion cfg st l f code_part sep comment
    m_e e_val :
  ltb eps_flow (abs (sub f f1)) = true ->
  py_partition ";" l = (code_part, sep, comment) ->
  is_match MOVE_RE code_part = true ->
  re_search E_WORD_RE code_part = Some m_e ->
  of_str (group1 m_e code_part) = Some e_val ->
  let delta := if e_relative st then e_val else sub e_val (last_e_abs st) in
  let new_e :=
    if e_relative st then mul delta f else add (last_e_abs st) (mul delta f) in
  let res := apply_flow_to_line cfg l (Some f) st in
  (leb delta f0 = true ->
   res.1 = l
   /\ last_e_abs res.2 = (if e_relative st then last_e_abs st else e_val))
  /\ (ltb f0 delta = true ->
      res.1 = firstn (span1 m_e).1 code_part
              ++ fmt_float new_e (flow_decimals cfg)
              ++ skipn (span1 m_e).2 code_part ++ sep ++ comment
      /\ trimmed_decimal (flow_decimals cfg) (fmt_float new_e (flow_decimals cfg))
      /\ last_e_abs res.2 = (if e_relative st then last_e_abs st else new_e))
  /\ (out_lines <$> state_of (run_pass infill_flow doc_infill_move))
     = Some [line "; TYPE: infill"; line "G1 X10 E5.5"]
  /\ fmt_float (mul (of_Z 5) (of_decimal false 11 (-1))) 5 = chars "5.5".
Proof.
  intros Hf Hp Hm He Hv delta new_e res.
  apply ltb_asym in Hf as [Hf _].
  assert (Hres : res =
    if leb delta f0
    then (l, if e_relative st then st else set_last_e_abs e_val st)
    else (firstn (span1 m_e).1 code_part ++ fmt_float new_e (flow_decimals cfg)
            ++ skipn (span1 m_e).2 code_part ++ sep ++ comment,
          if e_relative st then st else set_last_e_abs new_e st)).
  { subst res. unfold apply_flow_to_line. rewrite Hf, Hp, Hm. cbn [negb].
    rewrite He, Hv. fold delta. destruct (leb delta f0); [done|].
    fold new_e. destruct (span1 m_e) as [start stop]. cbn [fst snd].
    rewrite <- !app_assoc. do 4 f_equal.
    destruct sep; [|done]. by rewrite (py_partition_no_sep _ _ _ _ Hp). }
  split; [|split; [|split]].
  - intros Hd. rewrite Hres, Hd. split; [done|]. by destruct (e_relative st).
  - intros Hd. apply ltb_asym in Hd as [_ Hd]. rewrite Hres, Hd.
    split; [done|]. split; [apply fmt_float_trimmed|]. by destruct (e_relative st).
  - vm_compute. reflexivity.
  - vm_compute. reflexivity.
Qed.

(** C5 at the sample scenario: [G1 X10 E5] under infill with factor 1.1. *)
Lemma C5_witness_infill_move :
  let st := state_at infill_flow doc_infill_move 1 in
  let res := apply_flow_to_line infill_flow (line "G1 X10 E5")
               (Some (of_decimal false 11 (-1))) st in
  res.1 = line "G1 X10 E5.5"
  /\ last_e_abs res.2 = of_decimal false 55 (-1).
Proof.
  cbv zeta.
  pose proof (C5_flow_rewrites_positive_extrusion infill_flow
    (state_at infill_flow doc_infill_move 1) (line "G1 X10 E5")
    (of_decimal false 11 (-1)) (line "G1 X10 E5") [] []
    {| m_end := 9; m_span := Some (8, 9)%nat |} (of_Z 5)) as H.
  cbv zeta in H.
  destruct H as (_ & Hpos & _); try (vm_compute; reflexivity).
  destruct Hpos as (H1 & _ & H2); [vm_compute; reflexivity|].
  split.
  - rewrite H1. vm_compute. reflexivity.
  - rewrite H2. vm_compute. reflexivity.
Defined.

(** ** Tokens that do not parse *)

(** C8: a numeric token that a pattern recognizes and that [float()] or
    [int()] refuses leaves the state variable it would set as it was, and
    the line is not rewritten: (1) temperature, (2) fan duty, (3) the
    extrusion origin after [G92], (4) the extrusion value in the flow
    rewriter, which returns the line itself, so the main loop outputs the
    input line, (5) the layer index and (6) the Z value.  (7) Whatever the
    lines hold, the main loop writes for each input line, in order, one
    block that starts with that line, either as it is or with only its
    extrusion token replaced; no line is dropped.  Of the two readers only
    [int()] can refuse a token the patterns accept (more than 4300
    digits). *)
Theorem C8_unparsed_tokens_change_nothing cfg st :
  (forall s m,
     re_match TEMP_CMD_RE s = Some m -> of_str (group1 m s) = None ->
     track_temp_fan s st = st)
  /\ (forall s m,
        re_match TEMP_CMD_RE s = None -> is_match FAN_OFF_RE s = false ->
        re_match FAN_ON_RE s = Some m -> int_of_str (group1 m s) = None ->
        track_temp_fan s st = st)
  /\ (forall s m,
        is_match M82_RE s = false -> is_match M83_RE s = false ->
        re_search E_WORD_RE s = Some m -> of_str (group1 m s) = None ->
        track_extrusion s st = st)
  /\ (forall l f code_part sep comment m,
        py_partition ";" l = (code_part, sep, comment) ->
        re_search E_WORD_RE code_part = Some m ->
        of_str (group1 m code_part) = None ->
        apply_flow_to_line cfg l f st = (l, st) /\ rewritten cfg l st = l)
  /\ (forall s processed m,
        layer_marker s = Some m -> int_of_str (group1 m s) = None ->
        current_layer (update_layer_from_line s processed st) = current_layer st
        /\ last_z (update_layer_from_line s processed st) = last_z st)
  /\ (forall s processed m,
        layer_marker s = None -> is_match LAYER_CHANGE_RE s = false ->
        re_search Z_WORD_RE (py_partition ";" processed).1.1 = Some m ->
        of_str (group1 m (py_partition ";" processed).1.1) = None ->
        update_layer_from_line s processed st = st)
  /\ (forall lines st',
        main_loop cfg lines st = Ok st' ->
        exists blocks,
          out_lines st' = out_lines st ++ concat blocks
          /\ Forall2
               (fun l block => exists pl inj, block = pl :: inj /\ kept l pl)
               lines blocks).
Proof.
  split; [|split; [|split; [|split; [|split; [|split]]]]].
  - intros s m Hm Hv. unfold track_temp_fan. by rewrite Hm, Hv.
  - intros s m Ht Hoff Hm Hv. unfold track_temp_fan. by rewrite Ht, Hoff, Hm, Hv.
  - intros s m H82 H83 Hm Hv. unfold track_extrusion. rewrite H82, H83, Hm, Hv.
    by destruct (is_match G92_RE s).
  - intros l f code_part sep comment m Hp Hm Hv.
    assert (Hflow : forall f st1, apply_flow_to_line cfg l f st1 = (l, st1)).
    { intros f' st1. unfold apply_flow_to_line. destruct f' as [f'|]; [|done].
      destruct (ltb _ _); [done|]. rewrite Hp. destruct (negb _); [done|].
      by rewrite Hm, Hv. }
    split; [apply Hflow|].
    unfold rewritten. destruct (flow_factor _ _ _); [|done]. by rewrite Hflow.
  - intros s processed m Hl Hv. unfold update_layer_from_line. by rewrite Hl, Hv.
  - intros s processed m Hl Hc Hm Hv. unfold update_layer_from_line.
    rewrite Hl, Hc, Hm, Hv. by destruct (is_match MOVE_RE _).
  - intros lines st'. apply main_loop_out.
Qed.

(** C8 on a fan command and a layer marker with 4301 digits. *)
Lemma C8_witness_too_many_digits :
  let st := start_state [long_layer_marker] in
  track_temp_fan long_fan_command st = st
  /\ current_layer (update_layer_from_line long_layer_marker [] st)
     = current_layer st
  /\ exists blocks,
       out_lines (state_after no_overrides [long_layer_marker])
       = out_lines st ++ concat blocks
       /\ Forall2
            (fun l block => exists pl inj, block = pl :: inj /\ kept l pl)
            [long_layer_marker] blocks.
Proof.
  cbv zeta.
  destruct (C8_unparsed_tokens_change_nothing no_overrides
              (start_state [long_layer_marker]))
    as (_ & Hfan & _ & _ & Hlayer & _ & Hrun).
  split; [|split].
  - apply (Hfan long_fan_command {| m_end := 4307; m_span := Some (6, 4307)%nat |});
      vm_compute; reflexivity.
  - apply (Hlayer long_layer_marker []
             {| m_end := 4308; m_span := Some (7, 4308)%nat |});
      vm_compute; reflexivity.
  - apply (Hrun [long_layer_marker]). vm_compute. reflexivity.
Defined.

(** ** The file and the exit status *)



(** What the sample file holds after the run: the Windows line end has
    become a newline, and the command injected after the last line, which
    had no newline, follows it on the same line. *)
Example sample_file_rewritten :
  files_after (outcome_of sample_files
                 (process_gcode bridge_210 sample_path sample_files)) !! sample_path
  = Some (raw "M104 S200" ++ [Byte.x0a] ++ raw ";TYPE:bridge" ++ [Byte.x0a]
          ++ raw "M104 S210 ; set temp (bridge)" ++ [Byte.x0a]
          ++ raw ";TYPE:infill"
          ++ raw "M104 S200 ; set temp (restore baseline at feature boundary)"
          ++ [Byte.x0a])
  /\ exit_status (outcome_of sample_files
                    (process_gcode bridge_210 sample_path sample_files)) = 0.
Proof. vm_compute. split; reflexivity. Qed.

(** A run whose write fails: the enter command of bridges holds a surrogate;
    the pass completes, the file is emptied, the marker is written, the
    command is not, and the exit status is 1. *)
Example stray_gcode_truncates_the_file :
  let o := outcome_of sample_files
             (process_gcode bridge_stray_gcode sample_path sample_files) in
  files_after o !! sample_path
  = Some (raw "M104 S200" ++ [Byte.x0a] ++ raw ";TYPE:bridge" ++ [Byte.x0a])
  /\ exit_status o = 1
  /\ List.last (events o) (LogError []) = Traceback UnicodeEncodeError.
Proof. vm_compute. repeat split; reflexivity. Qed.
(** * More properties of the code *)

(** X1: with no override configured for any feature, whatever the other
    options are, the pass ends without raising and writes exactly the lines
    it read. *)
Theorem plain_pass_is_identity cfg lines :
  is_plain cfg ->
  exists st, run_pass cfg lines = Ok st /\ out_lines st = lines.
Proof.
  intros Hp. unfold run_pass.
  destruct (plain_loop cfg lines (reset_state (first_loop lines initial_state)) Hp)
    as (st & Hst & Hout); [done|done|].
  exists st. split; [done|]. by rewrite Hout.
Qed.

Lemma plain_pass_is_identity_witness :
  exists st,
    run_pass plain_waiting doc_unknown_marker = Ok st
    /\ out_lines st = doc_unknown_marker.
Proof.
  apply (plain_pass_is_identity plain_waiting doc_unknown_marker).
  by repeat split.
Defined.

(** X2: [readlines] followed by [writelines] gives the text back with its
    line ends normalised, and gives it back unchanged when it holds no
    carriage return; every line read is non-empty and has a newline at its
    end or nowhere. *)
Theorem readlines_writelines (text : str) :
  writelines (readlines text) = translate_newlines false text
  /\ no_cr (writelines (readlines text))
  /\ Forall is_line (readlines text)
  /\ (no_cr text -> writelines (readlines text) = text).
Proof.
  unfold writelines, readlines. rewrite split_lines_concat. simpl.
  split; [done|]. split; [apply translate_removes_cr|].
  split; [by apply split_lines_shape|]. apply translate_no_cr.
Qed.

Lemma readlines_writelines_witness :
  writelines (readlines (line "G1 X1" ++ chars "G1 X2"))
  = line "G1 X1" ++ chars "G1 X2".
Proof.
  apply (readlines_writelines (line "G1 X1" ++ chars "G1 X2")).
  vm_compute. reflexivity.
Defined.

(** X3: run without any override on a file that exists, [process_gcode]
    exits with status 0 and leaves in the file the UTF-8 encoding of its
    decoded text with the line ends normalised: bytes that are not UTF-8
    come back as the encoding of U+FFFD, and nothing else changes.  A file
    of bytes below 128 without carriage returns is written back byte for
    byte. *)
Theorem plain_run_keeps_the_file (cfg : config) (input_file : str)
    (raw : bytes) (text : str) (files : gmap str bytes) :
  is_plain cfg ->
  files !! input_file = Some raw ->
  decode_text raw = Some text ->
  exists data,
    utf8_encode (translate_newlines false text) = Some data
    /\ process_gcode cfg input_file files
       = Some {| files_after := <[ input_file := data ]> files;
                 events := [OpenWrite input_file; WriteData input_file data];
                 exit_status := 0 |}
    /\ (ascii_only raw = true -> no_cr_byte raw = true ->
        data = raw /\ <[ input_file := data ]> files = files).
Proof. apply plain_run. Qed.

Lemma plain_run_keeps_the_file_witness :
  exists data,
    utf8_encode (translate_newlines false degree_text) = Some data
    /\ process_gcode plain_waiting sample_path degree_files
       = Some {| files_after := <[ sample_path := data ]> degree_files;
                 events := [OpenWrite sample_path; WriteData sample_path data];
                 exit_status := 0 |}
    /\ (ascii_only degree_raw = true -> no_cr_byte degree_raw = true ->
        data = degree_raw /\ <[ sample_path := data ]> degree_files = degree_files).
Proof.
  apply (plain_run_keeps_the_file plain_waiting sample_path degree_raw degree_text
           degree_files).
  - by repeat split.
  - vm_compute. reflexivity.
  - vm_compute. reflexivity.
Defined.

(** X4: whatever text follows [TYPE:], the name [match_canonical] gives for
    it, if any, is one of the ten canonical feature names. *)
Theorem match_canonical_gives_canonical_names (s c : str) :
  match_canonical s = Some c -> c ∈ canonical_names /\ c <> [].
Proof.
  intros [Ht Hc]%match_canonical_known. split; [done|]. by destruct c.
Qed.

Lemma match_canonical_gives_canonical_names_witness :
  chars "top_surface" ∈ canonical_names /\ chars "top_surface" <> [].
Proof.
  apply (match_canonical_gives_canonical_names (chars "TopSkin , 0.2mm")).
  vm_compute. reflexivity.
Defined.

(** X5: recognition depends only on the normalised text before the first
    [;], [|] or [,]: two marker texts with the same normal form get the same
    answer, be it a feature or none; the table of exact spellings never
    decides differently from the normalised one. *)
Theorem match_canonical_by_normal_form (s t : str) :
  norm_key (first_segment s) = norm_key (first_segment t) ->
  match_canonical s = match_canonical t.
Proof. intros H. by rewrite !match_canonical_norm, H. Qed.

Lemma match_canonical_by_normal_form_witness :
  match_canonical (chars "  Wall-Outer | speed 40")
  = match_canonical (chars "wall_outer").
Proof.
  apply (match_canonical_by_normal_form
           (chars "  Wall-Outer | speed 40") (chars "wall_outer")).
  vm_compute. reflexivity.
Defined.

(** X6: the letter case of a marker text does not matter. *)
Theorem match_canonical_ignores_case (s t : str) :
  lower s = lower t -> match_canonical s = match_canonical t.
Proof.
  intros H. rewrite !match_canonical_norm.
  rewrite <- (norm_key_lower (first_segment s)), <- (norm_key_lower (first_segment t)).
  by rewrite <- !first_segment_lower, H.
Qed.

Lemma match_canonical_ignores_case_witness :
  match_canonical (chars "BRIDGE Infill") = match_canonical (chars "bridge infill").
Proof.
  apply (match_canonical_ignores_case (chars "BRIDGE Infill") (chars "bridge infill")).
  vm_compute. reflexivity.
Defined.

(** X7: what follows the first [;], [|] or [,] of a marker text is not
    looked at. *)
Theorem match_canonical_ignores_annotation (a b : str) (c : char) :
  any_of ";|," c = true -> match_canonical (a ++ c :: b) = match_canonical a.
Proof.
  intros Hc. by rewrite !match_canonical_norm, (first_segment_cut a c b Hc).
Qed.

Lemma match_canonical_ignores_annotation_witness :
  match_canonical (chars "Support" ++ Latin "," :: chars " tree")
  = match_canonical (chars "Support").
Proof.
  apply (match_canonical_ignores_annotation (chars "Support") (chars " tree") ",").
  reflexivity.
Defined.

(** X8: every alias of [FEATURE_SYNONYMS], in any spelling with the same
    normal form, is recognised as the feature it is listed under: no alias
    is taken over by another feature. *)
Theorem aliases_name_their_feature (canon : string) (syns : list string)
    (s : string) (t : str) :
  (canon, syns) ∈ FEATURE_SYNONYMS -> s ∈ syns ->
  norm_key (first_segment t) = norm_key (chars s) ->
  match_canonical t = Some (chars canon).
Proof.
  intros Hc Hs Ht. rewrite match_canonical_norm, Ht.
  by apply (alias_table_facts canon syns s).
Qed.

Lemma aliases_name_their_feature_witness :
  match_canonical (chars " Bridge_Infill ; 0.4") = Some (chars "bridge").
Proof.
  apply (aliases_name_their_feature "bridge"
           ["bridge"; "bridges"; "bridge infill"; "bridge-infill"]%string
           "bridge infill" (chars " Bridge_Infill ; 0.4")).
  - unfold FEATURE_SYNONYMS. do 7 apply list_elem_of_further. apply list_elem_of_here.
  - do 2 apply list_elem_of_further. apply list_elem_of_here.
  - vm_compute. reflexivity.
Defined.

(** X9: on a file that exists, a run that the embedding covers ends with a
    non-zero status in one of two ways only.  Either a configured fan
    percentage of a canonical feature cannot be rounded to a duty (a [nan]
    or an infinity): the exception is raised during the pass and the file
    is left as it was.  Or the pass completes and one of its lines cannot be
    encoded, which takes a custom command with a surrogate: the file has
    then been emptied and holds the lines before that one. *)
Theorem failed_run_has_two_causes (cfg : config) (input_file : str)
    (raw : bytes) (files : gmap str bytes) (o : outcome) :
  files !! input_file = Some raw ->
  process_gcode cfg input_file files = Some o ->
  exit_status o <> 0 ->
  (exists c pct e,
     c ∈ canonical_names
     /\ feature_fans_pct cfg !! c = Some pct
     /\ pct_to_pwm pct = Raised e
     /\ events o = [Traceback e]
     /\ files_after o = files)
  \/ (exists text st before l after data,
        decode_text raw = Some text
        /\ run_pass cfg (readlines text) = Ok st
        /\ out_lines st = before ++ l :: after
        /\ utf8_encode l = None
        /\ utf8_encode (concat before) = Some data
        /\ events o = [OpenWrite input_file; WriteData input_file data;
                       Traceback UnicodeEncodeError]
        /\ files_after o = <[ input_file := data ]> files
        /\ ~ gcodes_encodable cfg).
Proof.
  intros Hf. unfold process_gcode. rewrite Hf.
  destruct (decode_text raw) as [text|] eqn:Hd; [|done].
  destruct (run_pass cfg (readlines text)) as [st|e] eqn:Hr.
  - intros [= <-]. unfold write_back.
    destruct (write_lines (out_lines st)) as [data [e|]] eqn:Hw;
      cbn [exit_status events files_after app]; [|done].
    intros _. right.
    destruct (write_lines_failed _ _ _ Hw) as (-> & before & l & after & Ho & Hl & Hb).
    exists text, st, before, l, after, data. repeat split; try done.
    intros Hg.
    assert (Henc : Forall (fun x => encodable x = true) (out_lines st)).
    { apply (main_loop_encodable cfg (readlines text)
               (reset_state (first_loop (readlines text) initial_state)) st Hg);
        [done | done | by apply (readlines_encodable raw) | constructor | exact Hr]. }
    rewrite Ho in Henc. apply Forall_app in Henc as [_ Henc].
    apply Forall_cons in Henc as [Henc _].
    apply encodable_encode in Henc as [? Henc]. congruence.
  - intros [= <-] _. left. cbn [events files_after].
    apply main_loop_raises in Hr as (c & pct & Hc & Hl & Hp).
    by exists c, pct, e.
Qed.

Lemma failed_run_has_two_causes_witness :
  let o := outcome_of sample_files
             (process_gcode bridge_stray_gcode sample_path sample_files) in
  (exists c pct e,
     c ∈ canonical_names
     /\ feature_fans_pct bridge_stray_gcode !! c = Some pct
     /\ pct_to_pwm pct = Raised e
     /\ events o = [Traceback e]
     /\ files_after o = sample_files)
  \/ (exists text st before l after data,
        decode_text sample_raw = Some text
        /\ run_pass bridge_stray_gcode (readlines text) = Ok st
        /\ out_lines st = before ++ l :: after
        /\ utf8_encode l = None
        /\ utf8_encode (concat before) = Some data
        /\ events o = [OpenWrite sample_path; WriteData sample_path data;
                       Traceback UnicodeEncodeError]
        /\ files_after o = <[ sample_path := data ]> sample_files
        /\ ~ gcodes_encodable bridge_stray_gcode).
Proof.
  apply (failed_run_has_two_causes bridge_stray_gcode sample_path sample_raw
           sample_files).
  - vm_compute. reflexivity.
  - vm_compute. reflexivity.
  - vm_compute. discriminate.
Defined.

(** X10: when every configured fan percentage can be rounded and no
    configured custom command holds a surrogate, the run on a file that
    exists and that the embedding covers does not fail: the pass completes,
    every line it produced can be encoded, the exit status is 0 and the
    encoded lines are written to the file. *)
Theorem run_ends_when_fans_round (cfg : config) (input_file : str)
    (raw : bytes) (text : str) (files : gmap str bytes) :
  fans_round cfg ->
  gcodes_encodable cfg ->
  files !! input_file = Some raw ->
  decode_text raw = Some text ->
  exists st data,
    run_pass cfg (readlines text) = Ok st
    /\ utf8_encode (writelines (out_lines st)) = Some data
    /\ process_gcode cfg input_file files
       = Some {| files_after := <[ input_file := data ]> files;
                 events := [OpenWrite input_file; WriteData input_file data];
                 exit_status := 0 |}.
Proof.
  intros Hr Hg Hf Hd.
  destruct (main_loop_total cfg (readlines text)
              (reset_state (first_loop (readlines text) initial_state)) Hr)
    as [st Hst].
  assert (Henc : Forall (fun x => encodable x = true) (out_lines st)).
  { apply (main_loop_encodable cfg (readlines text)
             (reset_state (first_loop (readlines text) initial_state)) st Hg);
      [done | done | by apply (readlines_encodable raw) | constructor | exact Hst]. }
  destruct (run_writes cfg input_file raw text files st Hf Hd Hst Henc)
    as (data & He & Hrun).
  by exists st, data.
Qed.

Lemma run_ends_when_fans_round_witness :
  exists st data,
    run_pass (bridge_fan (of_Z 50)) (readlines sample_text) = Ok st
    /\ utf8_encode (writelines (out_lines st)) = Some data
    /\ process_gcode (bridge_fan (of_Z 50)) sample_path sample_files
       = Some {| files_after := <[ sample_path := data ]> sample_files;
                 events := [OpenWrite sample_path; WriteData sample_path data];
                 exit_status := 0 |}.
Proof.
  apply (run_ends_when_fans_round (bridge_fan (of_Z 50)) sample_path sample_raw
           sample_text sample_files).
  - intros c pct H. unfold bridge_fan in H. cbn [feature_fans_pct] in H.
    apply lookup_singleton_Some in H as [_ <-]. eexists. vm_compute. reflexivity.
  - split; intros c gcs H; unfold bridge_fan in H;
      cbn [feature_gcode_enter feature_gcode_exit] in H; by rewrite lookup_empty in H.
  - vm_compute. reflexivity.
  - vm_compute. reflexivity.
Defined.

(** X11: the feature names the pass keeps, for the feature it is in and for
    the one before, are canonical names or none, after any number of lines:
    no text of the document is ever kept as a feature name. *)
Theorem pass_keeps_canonical_names (cfg : config) (lines : list str) (n : nat)
    (st : state) :
  main_loop cfg (firstn n lines) (reset_state (first_loop lines initial_state)) = Ok st ->
  known_feature (prev_feature_canon st) /\ known_feature (current_feature_canon st).
Proof. by apply main_loop_names. Qed.

Lemma pass_keeps_canonical_names_witness :
  known_feature (prev_feature_canon (state_at bridge_210 doc_unknown_marker 3))
  /\ known_feature (current_feature_canon (state_at bridge_210 doc_unknown_marker 3)).
Proof.
  apply (pass_keeps_canonical_names bridge_210 doc_unknown_marker 3).
  vm_compute. reflexivity.
Defined.

(** X12: whatever is configured, a document in which no line is a feature
    marker with a recognised text comes out line for line as it went in, and
    the pass does not raise. *)
Theorem unmarked_document_is_unchanged (cfg : config) (lines : list str) :
  forallb no_known_marker lines = true ->
  exists st, run_pass cfg lines = Ok st /\ out_lines st = lines.
Proof.
  intros H. unfold run_pass.
  destruct (unmarked_loop cfg lines (reset_state (first_loop lines initial_state)))
    as (st & Hst & Hout); [done|done|].
  exists st. split; [done|]. by rewrite Hout.
Qed.

Lemma unmarked_document_is_unchanged_witness :
  exists st,
    run_pass infill_flow [line "M104 S200"; line ";TYPE:Skirt"; line "G1 X10 E5"] = Ok st
    /\ out_lines st = [line "M104 S200"; line ";TYPE:Skirt"; line "G1 X10 E5"].
Proof.
  apply (unmarked_document_is_unchanged infill_flow
           [line "M104 S200"; line ";TYPE:Skirt"; line "G1 X10 E5"]).
  vm_compute. reflexivity.
Defined.

(** X13: the dictionaries the script hands to [process_gcode] hold, under
    each canonical feature name, exactly the options given for it, an empty
    list of commands counting as none, and nothing under any other key; the
    flow precision is 5 and the two global options are passed as they are. *)
Theorem config_of_args_holds_the_options (args : cli_args) (c : str) :
  let cfg := config_of_args args in
  let given := bool_decide (c ∈ canonical_names) in
  let fa := arg_feature args c in
  feature_temps cfg !! c = (if given then arg_temp fa else None)
  /\ feature_fans_pct cfg !! c = (if given then arg_fan fa else None)
  /\ feature_flow cfg !! c = (if given then arg_flow fa else None)
  /\ feature_gcode_enter cfg !! c
     = (if given then non_empty (arg_gcode fa) else None)
  /\ feature_gcode_exit cfg !! c
     = (if given then non_empty (arg_gcode_exit fa) else None)
  /\ flow_decimals cfg = 5%nat
  /\ wait_temp cfg = arg_wait_temp args
  /\ skip_first_layers cfg = arg_skip_first_layers args.
Proof.
  cbv zeta. unfold config_of_args.
  cbn [feature_temps feature_fans_pct feature_flow feature_gcode_enter
       feature_gcode_exit flow_decimals wait_temp skip_first_layers].
  rewrite !collect_lookup. done.
Qed.

(** X14: called without an option that sets something for a feature, on a
    file that exists, the script exits with status 0 and leaves in the file
    the UTF-8 encoding of its decoded text with the line ends normalised;
    a file of bytes below 128 without carriage returns is written back byte
    for byte. *)
Theorem script_without_overrides_keeps_the_file (args : cli_args) (raw : bytes)
    (text : str) (files : gmap str bytes) :
  (forall c, c ∈ canonical_names -> sets_nothing (arg_feature args c)) ->
  files !! arg_input_file args = Some raw ->
  decode_text raw = Some text ->
  exists data,
    utf8_encode (translate_newlines false text) = Some data
    /\ main args files
       = Some {| files_after := <[ arg_input_file args := data ]> files;
                 events := [OpenWrite (arg_input_file args);
                            WriteData (arg_input_file args) data];
                 exit_status := 0 |}
    /\ (ascii_only raw = true -> no_cr_byte raw = true ->
        data = raw /\ <[ arg_input_file args := data ]> files = files).
Proof.
  intros Hn Hf Hd. unfold main. apply (plain_run _ _ raw); [|done|done].
  unfold is_plain, config_of_args.
  cbn [feature_temps feature_fans_pct feature_flow feature_gcode_enter
       feature_gcode_exit].
  repeat split; apply collect_nothing; intros c Hc;
    destruct (Hn c Hc) as (?&?&?&?&?); done.
Qed.

Lemma script_without_overrides_keeps_the_file_witness :
  exists data,
    utf8_encode (translate_newlines false sample_text) = Some data
    /\ main plain_args sample_files
       = Some {| files_after := <[ arg_input_file plain_args := data ]> sample_files;
                 events := [OpenWrite (arg_input_file plain_args);
                            WriteData (arg_input_file plain_args) data];
                 exit_status := 0 |}
    /\ (ascii_only sample_raw = true -> no_cr_byte sample_raw = true ->
        data = sample_raw
        /\ <[ arg_input_file plain_args := data ]> sample_files = sample_files).
Proof.
  apply (script_without_overrides_keeps_the_file plain_args sample_raw sample_text
           sample_files).
  - intros c _. by repeat split.
  - vm_compute. reflexivity.
  - vm_compute. reflexivity.
Defined.

(** X15: a whole fan percentage from 0 to 100 becomes the duty nearest to
    255 hundredths of it, a tie going to the even duty: the floating-point
    computation of [pct_to_pwm] gives the exact answer there, between 0 and
    255. *)
Theorem whole_percent_duty (k : Z) :
  0 <= k <= 100 ->
  pct_to_pwm (of_Z k) = Ok (div_half_even (255 * k) 100)
  /\ 0 <= div_half_even (255 * k) 100 <= 255.
Proof.
  intros Hk.
  assert (Hall : forallb (fun n =>
            match pct_to_pwm (of_Z (Z.of_nat n)) with
            | Ok v => (v =? div_half_even (255 * Z.of_nat n) 100)
                      && (0 <=? v) && (v <=? 255)
            | Raised _ => false
            end) (seq 0 101) = true) by (vm_compute; reflexivity).
  rewrite forallb_forall in Hall. specialize (Hall (Z.to_nat k)).
  rewrite Z2Nat.id in Hall by lia.
  assert (Hin : In (Z.to_nat k) (seq 0 101)) by (apply in_seq; lia).
  specialize (Hall Hin). destruct (pct_to_pwm (of_Z k)) as [v|]; [|done].
  apply andb_true_iff in Hall as [[H1 H2]%andb_true_iff H3].
  apply Z.eqb_eq in H1. subst v. split; [done|]. lia.
Qed.

Lemma whole_percent_duty_witness :
  pct_to_pwm (of_Z 50) = Ok (div_half_even (255 * 50) 100)
  /\ 0 <= div_half_even (255 * 50) 100 <= 255.
Proof. apply (whole_percent_duty 50). lia. Defined.

(** X16: a comment line that is no feature marker is written as it is and
    is never read as a command: the tracked temperature and fan duty, the
    extrusion mode and origin, the baselines, the override flags and the
    previous feature stay as they were, so a commented-out [M104] or [M83]
    has no effect on the pass. *)
Theorem comment_line_is_not_a_command (cfg : config) (l : str) (st : state) :
  is_comment l = true ->
  re_match TYPE_PREFIX_RE l = None ->
  exists st',
    process_line cfg l st = Ok st'
    /\ out_lines st' = out_lines st ++ [l]
    /\ same_tracking st st'
    /\ same_overrides st st'.
Proof.
  intros Hc Ht. eexists. split; [by apply comment_step|].
  set (st1 := update_layer_from_line l (processed_line st) st).
  set (st2 := append_out l (set_processed_line l st1)).
  split; [|split].
  - rewrite update_layer_out. unfold st2. cbn [out_lines append_out set_processed_line].
    unfold st1. by rewrite update_layer_out.
  - destruct (update_layer_tracking l l st2) as (A1&A2&A3&A4).
    destruct (update_layer_tracking l (processed_line st) st) as (B1&B2&B3&B4).
    fold st1 in B1, B2, B3, B4.
    unfold same_tracking. rewrite A1, A2, A3, A4. exact (conj B1 (conj B2 (conj B3 B4))).
  - eapply same_overrides_trans; [|apply update_layer_overrides].
    eapply same_overrides_trans; [apply update_layer_overrides|].
    fold st1. by repeat split.
Qed.

Lemma comment_line_is_not_a_command_witness :
  exists st',
    process_line bridge_210 (line "; M104 S250") (start_state [line "; M104 S250"])
    = Ok st'
    /\ out_lines st' = out_lines (start_state [line "; M104 S250"])
                       ++ [line "; M104 S250"]
    /\ same_tracking (start_state [line "; M104 S250"]) st'
    /\ same_overrides (start_state [line "; M104 S250"]) st'.
Proof.
  apply (comment_line_is_not_a_command bridge_210 (line "; M104 S250")
           (start_state [line "; M104 S250"])).
  - vm_compute. reflexivity.
  - vm_compute. reflexivity.
Defined.

(** X17: a line that gives the layer index, [;LAYER:n] or [; layer n], sets
    the layer to that index whatever it was, leaves no feature active, and is
    written as it is; the height last seen and the tracked temperature, fan
    and extrusion are not touched. *)
Theorem layer_index_line_sets_the_layer (cfg : config) (l : str) (st : state)
    (m : match_obj) (n : Z) :
  layer_marker l = Some m ->
  int_of_str (group1 m l) = Some n ->
  exists st',
    process_line cfg l st = Ok st'
    /\ current_layer st' = n
    /\ current_feature_canon st' = None
    /\ out_lines st' = out_lines st ++ [l]
    /\ last_z st' = last_z st
    /\ same_tracking st st'
    /\ same_overrides st st'.
Proof.
  intros Hm Hn. eexists. split.
  { apply comment_step;
      [by apply (layer_marker_comment l m) | by apply (layer_marker_not_type l m)]. }
  unfold update_layer_from_line. rewrite Hm, Hn.
  cbn [current_layer current_feature_canon out_lines last_z
       set_current_feature_canon set_current_layer append_out set_processed_line].
  by repeat split.
Qed.

Lemma layer_index_line_sets_the_layer_witness :
  exists st',
    process_line bridge_210 (line ";LAYER:7") (start_state [line ";LAYER:7"]) = Ok st'
    /\ current_layer st' = 7
    /\ current_feature_canon st' = None
    /\ out_lines st' = out_lines (start_state [line ";LAYER:7"]) ++ [line ";LAYER:7"]
    /\ last_z st' = last_z (start_state [line ";LAYER:7"])
    /\ same_tracking (start_state [line ";LAYER:7"]) st'
    /\ same_overrides (start_state [line ";LAYER:7"]) st'.
Proof.
  eapply (layer_index_line_sets_the_layer bridge_210 (line ";LAYER:7")
            (start_state [line ";LAYER:7"]) _ 7).
  - vm_compute. reflexivity.
  - vm_compute. reflexivity.
Defined.

(** X18: when the marker of a feature with a temperature override and no
    exit commands comes again while that feature is still the previous one,
    the boundary replaces the recorded baseline by the temperature tracked
    when the marker is reached: the override itself, unless the document has
    set another temperature since.  The baseline recorded at the first entry
    is lost, and the restore at the next feature without a temperature asks
    for the temperature tracked at the repeated marker. *)
Theorem repeated_marker_overwrites_baseline (cfg : config) (c : str) (t : float)
    (st st2 : state) :
  feature_temps cfg !! c = Some t ->
  feature_gcode_exit cfg !! c = None ->
  prev_feature_canon st = Some c ->
  feature_boundary cfg c st = Ok st2 ->
  baseline_temp st2 = current_temp st
  /\ current_temp st2 = Some t
  /\ forall d, feature_temps cfg !! d = None ->
       restore_temp_lines cfg d st2
       = match current_temp st with
         | Some b => [temp_line cfg b restore_reason]
         | None => []
         end.
Proof.
  intros Ht Hx Hp H2.
  assert (Hb : baseline_temp st2 = current_temp st).
  { destruct (feature_boundary_baseline _ _ _ _ H2) as (nf & ->).
    rewrite restore_fan_temp, Ht.
    assert (He : emit_exit cfg st = st).
    { unfold emit_exit. rewrite Hp, Hx. by destruct (truthy c). }
    rewrite He. unfold restore_temp. by destruct (prev_overrode_temp st). }
  split; [done|]. split; [by apply (feature_boundary_temp cfg c t st)|].
  intros d Hd. unfold restore_temp_lines.
  destruct (feature_boundary_flags _ _ _ _ H2) as (_ & _ & -> & _).
  rewrite Ht, Hd, Hb. by rewrite bool_decide_eq_true_2 by eauto.
Qed.

Lemma repeated_marker_overwrites_baseline_witness :
  let st := state_at bridge_210 doc_heated_bridge_infill 2 in
  let st2 := boundary_after bridge_210 (chars "bridge") st in
  baseline_temp st2 = current_temp st
  /\ current_temp st2 = Some (of_Z 210)
  /\ forall d, feature_temps bridge_210 !! d = None ->
       restore_temp_lines bridge_210 d st2
       = match current_temp st with
         | Some b => [temp_line bridge_210 b restore_reason]
         | None => []
         end.
Proof.
  cbv zeta.
  apply (repeated_marker_overwrites_baseline bridge_210 (chars "bridge") (of_Z 210)
           (state_at bridge_210 doc_heated_bridge_infill 2)
           (boundary_after bridge_210 (chars "bridge")
              (state_at bridge_210 doc_heated_bridge_infill 2)));
    vm_compute; reflexivity.
Defined.

(** The first entry into the bridge recorded 200 degrees; the repeated
    marker records the override, 210. *)
Example repeated_bridge_marker_baseline :
  baseline_temp (state_at bridge_210 doc_heated_bridge_infill 2) = Some (of_Z 200)
  /\ baseline_temp (boundary_after bridge_210 (chars "bridge")
                      (state_at bridge_210 doc_heated_bridge_infill 2))
     = Some (of_Z 210).
Proof. vm_compute. split; reflexivity. Qed.

(** X19: for a temperature in whole degrees from 0 to 1000, the command the
    pass injects is [M104], or [M109] with [wait_temp], followed by the
    degrees without a decimal point and the reason as a comment. *)
Theorem whole_degrees_command (cfg : config) (n : Z) (reason : str) (st : state) :
  0 <= n <= 1000 ->
  out_lines (insert_temp cfg (of_Z n) reason st)
  = out_lines st
    ++ [chars (if wait_temp cfg then "M109" else "M104") ++ chars " S"
        ++ str_of_Z n ++ chars " ; set temp (" ++ reason ++ chars ")" ++ [nl]].
Proof.
  intros Hn. rewrite insert_temp_out. unfold temp_line, cmd_temp.
  assert (Hall : forallb (fun k =>
            bool_decide (fmt_temp (of_Z (Z.of_nat k)) = str_of_Z (Z.of_nat k)))
            (seq 0 1001) = true) by (vm_compute; reflexivity).
  rewrite forallb_forall in Hall. specialize (Hall (Z.to_nat n)).
  rewrite Z2Nat.id in Hall by lia.
  assert (Hin : In (Z.to_nat n) (seq 0 1001)) by (apply in_seq; lia).
  apply Hall, bool_decide_eq_true in Hin. rewrite Hin.
  by destruct (wait_temp cfg).
Qed.

Lemma whole_degrees_command_witness :
  out_lines (insert_temp plain_waiting (of_Z 210) (chars "bridge") initial_state)
  = out_lines initial_state
    ++ [chars (if wait_temp plain_waiting then "M109" else "M104") ++ chars " S"
        ++ str_of_Z 210 ++ chars " ; set temp (" ++ chars "bridge" ++ chars ")"
        ++ [nl]].
Proof.
  apply (whole_degrees_command plain_waiting 210 (chars "bridge") initial_state). lia.
Defined.
